(** * skapi-js: realtime session, presence tracker and WebRTC call signaling

    A shallow embedding of the realtime module of the skapi-js client
    ([connectRealtime], [postRealtime], [joinRealtime], [getRealtimeUsers],
    [connectRTC], [receiveRTC], [closeRTC] and their helpers) together with
    the properties its specification states about them.

    The module keeps its state in module-level variables and talks to the
    host through a WebSocket, RTCPeerConnection objects and two callbacks.
    The embedding threads one [State] record holding those variables through
    a small state / log / exception monad; every call into the host (a frame
    handed to [socket.send], a callback invocation, an operation on a peer
    connection, a timer) is appended to an effect log, in program order.

    The program is single-threaded. An [await] on a host operation
    (setRemoteDescription, createAnswer, addIceCandidate, getUserMedia) is
    taken to return at once; the two awaits the module's own logic depends
    on are modelled: the connection promise [__socket], which may still be
    pending, and the promise of a membership query, on which message
    handlers wait until the request behind it settles ([settle]). *)

From Stdlib Require Import ZArith String List Bool Lia.
From stdpp Require Import base option gmap strings list.

Local Open Scope string_scope.
Local Open Scope list_scope.
Set Warnings "-register-all".

(** ** JavaScript values *)

Module JS.

(** The result of [JSON.parse]. Numbers that occur on this wire are
    integers. An object is the list of its own properties. *)
Inductive json : Type :=
| JNull
| JBool (b : bool)
| JNum (n : Z)
| JStr (s : string)
| JArr (l : list json)
| JObj (l : list (string * json)).

(** ToBoolean. *)
Definition truthy (j : json) : bool :=
  match j with
  | JNull => false
  | JBool b => b
  | JNum n => negb (n =? 0)%Z
  | JStr s => negb (bool_decide (s = EmptyString))
  | JArr _ | JObj _ => true
  end.

Fixpoint assoc {A : Type} (k : string) (l : list (string * A)) : option A :=
  match l with
  | [] => None
  | (k', v) :: l' => if bool_decide (k' = k) then Some v else assoc k l'
  end.

(** [data?.[k]] for one of the wire keys: [undefined] unless [data] is an
    object that has the property. *)
Definition get (j : json) (k : string) : option json :=
  match j with
  | JObj l => assoc k l
  | _ => None
  end.

(** [if (data?.[k])]: the property when it is truthy. *)
Definition get_truthy (j : json) (k : string) : option json :=
  match get j k with
  | Some v => if truthy v then Some v else None
  | None => None
  end.

(** [data?.[k]] used as a condition. *)
Definition has_truthy (j : json) (k : string) : bool :=
  match get_truthy j k with
  | Some _ => true
  | None => false
  end.

(** The three metadata fields [#user_id], [#scid] and [#srid] are stamped by
    the relay as strings; they are read here as such, and any other JSON
    kind is read as absent. *)
Definition get_string (j : json) (k : string) : option string :=
  match get_truthy j k with
  | Some (JStr s) => Some s
  | _ => None
  end.

(** [a || b] on possibly undefined values. *)
Definition or_else (a b : option json) : option json :=
  match a with
  | Some v => Some v
  | None => b
  end.

(** [String.prototype.includes]. *)
Definition str_includes (hay needle : string) : bool :=
  match String.index 0 needle hay with
  | Some _ => true
  | None => false
  end.

(** [v.includes(needle)] for a JSON value [v]: defined on strings and on
    arrays (strict equality with a string), a TypeError ([None]) on every
    other truthy value. *)
Definition includes (v : json) (needle : string) : option bool :=
  match v with
  | JStr s => Some (str_includes s needle)
  | JArr l =>
      Some (existsb (fun e => match e with
                              | JStr s => bool_decide (s = needle)
                              | _ => false
                              end) l)
  | _ => None
  end.

(** A property key: [obj[undefined]] addresses the property "undefined". *)
Definition key (o : option string) : string :=
  match o with
  | Some s => s
  | None => "undefined"
  end.

(** [!s] for a possibly undefined string. *)
Definition falsy_str (o : option string) : bool :=
  match o with
  | Some s => bool_decide (s = EmptyString)
  | None => true
  end.

End JS.

Import JS.

(** ** Host objects, frames and events *)

(** [RTCPeerConnection.connectionState]. *)
Inductive ConnState : Type :=
| conn_new | conn_connecting | conn_connected
| conn_disconnected | conn_failed | conn_closed.

(** [RTCDataChannel.readyState]. *)
Inductive ChanState : Type :=
| chan_connecting | chan_open | chan_closing | chan_closed.

(** [WebSocket.readyState] of a socket whose [onopen] has fired. *)
Inductive ReadyState : Type :=
| OPEN | CLOSING | CLOSED.

(** The variable [__socket]: [null]/[undefined], a promise that is still
    pending (its socket has not opened), or a promise resolved with a
    socket. *)
Inductive SocketSlot : Type :=
| NoSocket
| Connecting
| Resolved (readyState : ReadyState).

Record PeerConnection : Type := mkPeer { connectionState : ConnState }.

Inductive Action : Type :=
| joinRoom | keepAlive | sendMessage | broadcast | rtc | rtcBroadcast.

(** Addressing of an outbound frame: the [uid] or the [rid] property. A
    property whose value is [undefined] is left out by [JSON.stringify];
    [rid: null] is the leave request. *)
Inductive Target : Type :=
| NoTarget
| Uid (u : option string)
| Rid (r : option string).

(** The [content] property of an outbound frame. Locally generated session
    descriptions are named by the call that produced them. *)
Inductive Content : Type :=
| NoContent
| CMessage (m : json)
| CReject
| CPickup
| CSdpOffer (peer : string)
| CSdpAnswer (peer : string) (offer : json).

(** An outbound frame; the [token] property, supplied by the session
    provider, is the same on every frame and is left out. *)
Record Frame : Type := mkFrame {
  action : Action;
  target : Target;
  content : Content
}.

Inductive MsgType : Type :=
| Tmessage | Tprivate | Tnotice | Trtc.

(** The closure returned by [receiveRTC(msg, rtc)]: it captures the message
    (of which only [sender] is read) and the signaling payload. *)
Record RTCreceiver : Type := mkReceiver {
  h_sender : option string;
  h_rtc : json
}.

(** The object handed to the realtime callback for an inbound frame. *)
Record Msg : Type := mkMsg {
  type : MsgType;
  message : json;
  sender : option string;
  sender_cid : option string;
  sender_rid : option string;
  receiveRTC_handle : option RTCreceiver
}.

(** Everything the realtime callback [cb] can be called with. *)
Inductive RealtimeEvent : Type :=
| EvMsg (m : Msg)
| EvSuccess
| EvClose
| EvReconnect (delay : Z)
| EvErrorMaxAttempts
| EvErrorTransport.

(** What the per-peer callback [peerCallbacks[peer]] is called with by the
    functions embedded here. *)
Inductive RTCEvent : Type :=
| RtcPickup
| RtcConnectionStateChange (state : ConnState).

(** Calls into the host, in program order. *)
Inductive Effect : Type :=
| Send (f : Frame)
| Cb (e : RealtimeEvent)
| PeerCb (peer : string) (e : RTCEvent)
| NewRTCPeerConnection (peer : string) (ice : string)
| AddTrack (peer : string) (track : string)
| SetRemoteDescription (peer : string) (sdp : json)
| CreateAnswer (peer : string)
| CreateOffer (peer : string)
| SetLocalDescription (peer : string)
| AddIceCandidate (peer : string) (candidate : json)
| CreateDataChannel (peer : string) (label : string)
| ChannelClose (peer : string) (label : string)
| PeerClose (peer : string)
| SetTimeout (delay : Z)
| SetInterval (period : Z)
| ClearInterval
| SocketClose
| Request (promise : nat) (group : string) (user_id : option string).

Inductive Error : Type :=
| NoRealtimeConnection
| NoPeerConnection
| RecipientRequired
| MediaNotSecure
| DuplicateDataChannel (protocol : string)
| NotJoined (recipient : string)
| NoRecipient
| ConnectionNotOpen
| GroupRequired
| GroupNotString
| InvalidUserId
| TypeError
| ReferenceError.

(** ** Module state *)

(** A user's connection ids; [undefined] when the frame had no [#scid]. *)
Abbreviation cid := (option string).

(** An [onmessage] handler suspended at [await __roomPending[room]]. *)
Record Waiter : Type := mkWaiter {
  w_promise : nat;
  w_leave : bool;
  w_msg : Msg
}.

Record State : Type := mkState {
  (* the module-level variables *)
  reconnectAttempts : nat;
  __roomList : gmap string (gmap string (list cid));
  __roomPending : gmap string nat;
  __keepAliveInterval : bool;
  __rtcCandidates : gmap string (list json);
  __rtcSdpOffer : gmap string (list json);
  __socket : SocketSlot;
  __socket_room : option string;
  __peerConnection : gmap string PeerConnection;
  __dataChannel : gmap string (list (string * ChanState));
  __mediaStream : option (list string);
  peerCallbacks : gset string;
  __caller_ringing : gset string;
  __receiver_ringing : gset string;
  (* the profile and page the session runs in *)
  user_id : string;
  secure_context : bool;
  (* promises of the membership queries that have not settled, and the
     message handlers waiting on one of them *)
  inflight : gmap nat (string * option string);
  next_promise : nat;
  waiting : list Waiter
}.

Definition set_reconnectAttempts (v : nat) (s : State) : State :=
  mkState v (__roomList s) (__roomPending s) (__keepAliveInterval s)
    (__rtcCandidates s) (__rtcSdpOffer s) (__socket s) (__socket_room s)
    (__peerConnection s) (__dataChannel s) (__mediaStream s) (peerCallbacks s)
    (__caller_ringing s) (__receiver_ringing s) (user_id s) (secure_context s)
    (inflight s) (next_promise s) (waiting s).

Definition set_roomList (v : gmap string (gmap string (list cid))) (s : State) : State :=
  mkState (reconnectAttempts s) v (__roomPending s) (__keepAliveInterval s)
    (__rtcCandidates s) (__rtcSdpOffer s) (__socket s) (__socket_room s)
    (__peerConnection s) (__dataChannel s) (__mediaStream s) (peerCallbacks s)
    (__caller_ringing s) (__receiver_ringing s) (user_id s) (secure_context s)
    (inflight s) (next_promise s) (waiting s).

Definition set_roomPending (v : gmap string nat) (s : State) : State :=
  mkState (reconnectAttempts s) (__roomList s) v (__keepAliveInterval s)
    (__rtcCandidates s) (__rtcSdpOffer s) (__socket s) (__socket_room s)
    (__peerConnection s) (__dataChannel s) (__mediaStream s) (peerCallbacks s)
    (__caller_ringing s) (__receiver_ringing s) (user_id s) (secure_context s)
    (inflight s) (next_promise s) (waiting s).

Definition set_keepAliveInterval (v : bool) (s : State) : State :=
  mkState (reconnectAttempts s) (__roomList s) (__roomPending s) v
    (__rtcCandidates s) (__rtcSdpOffer s) (__socket s) (__socket_room s)
    (__peerConnection s) (__dataChannel s) (__mediaStream s) (peerCallbacks s)
    (__caller_ringing s) (__receiver_ringing s) (user_id s) (secure_context s)
    (inflight s) (next_promise s) (waiting s).

Definition set_rtcCandidates (v : gmap string (list json)) (s : State) : State :=
  mkState (reconnectAttempts s) (__roomList s) (__roomPending s) (__keepAliveInterval s)
    v (__rtcSdpOffer s) (__socket s) (__socket_room s)
    (__peerConnection s) (__dataChannel s) (__mediaStream s) (peerCallbacks s)
    (__caller_ringing s) (__receiver_ringing s) (user_id s) (secure_context s)
    (inflight s) (next_promise s) (waiting s).

Definition set_rtcSdpOffer (v : gmap string (list json)) (s : State) : State :=
  mkState (reconnectAttempts s) (__roomList s) (__roomPending s) (__keepAliveInterval s)
    (__rtcCandidates s) v (__socket s) (__socket_room s)
    (__peerConnection s) (__dataChannel s) (__mediaStream s) (peerCallbacks s)
    (__caller_ringing s) (__receiver_ringing s) (user_id s) (secure_context s)
    (inflight s) (next_promise s) (waiting s).

Definition set_socket (v : SocketSlot) (s : State) : State :=
  mkState (reconnectAttempts s) (__roomList s) (__roomPending s) (__keepAliveInterval s)
    (__rtcCandidates s) (__rtcSdpOffer s) v (__socket_room s)
    (__peerConnection s) (__dataChannel s) (__mediaStream s) (peerCallbacks s)
    (__caller_ringing s) (__receiver_ringing s) (user_id s) (secure_context s)
    (inflight s) (next_promise s) (waiting s).

Definition set_socket_room (v : option string) (s : State) : State :=
  mkState (reconnectAttempts s) (__roomList s) (__roomPending s) (__keepAliveInterval s)
    (__rtcCandidates s) (__rtcSdpOffer s) (__socket s) v
    (__peerConnection s) (__dataChannel s) (__mediaStream s) (peerCallbacks s)
    (__caller_ringing s) (__receiver_ringing s) (user_id s) (secure_context s)
    (inflight s) (next_promise s) (waiting s).

Definition set_peerConnection (v : gmap string PeerConnection) (s : State) : State :=
  mkState (reconnectAttempts s) (__roomList s) (__roomPending s) (__keepAliveInterval s)
    (__rtcCandidates s) (__rtcSdpOffer s) (__socket s) (__socket_room s)
    v (__dataChannel s) (__mediaStream s) (peerCallbacks s)
    (__caller_ringing s) (__receiver_ringing s) (user_id s) (secure_context s)
    (inflight s) (next_promise s) (waiting s).

Definition set_dataChannel (v : gmap string (list (string * ChanState))) (s : State) : State :=
  mkState (reconnectAttempts s) (__roomList s) (__roomPending s) (__keepAliveInterval s)
    (__rtcCandidates s) (__rtcSdpOffer s) (__socket s) (__socket_room s)
    (__peerConnection s) v (__mediaStream s) (peerCallbacks s)
    (__caller_ringing s) (__receiver_ringing s) (user_id s) (secure_context s)
    (inflight s) (next_promise s) (waiting s).

Definition set_mediaStream (v : option (list string)) (s : State) : State :=
  mkState (reconnectAttempts s) (__roomList s) (__roomPending s) (__keepAliveInterval s)
    (__rtcCandidates s) (__rtcSdpOffer s) (__socket s) (__socket_room s)
    (__peerConnection s) (__dataChannel s) v (peerCallbacks s)
    (__caller_ringing s) (__receiver_ringing s) (user_id s) (secure_context s)
    (inflight s) (next_promise s) (waiting s).

Definition set_peerCallbacks (v : gset string) (s : State) : State :=
  mkState (reconnectAttempts s) (__roomList s) (__roomPending s) (__keepAliveInterval s)
    (__rtcCandidates s) (__rtcSdpOffer s) (__socket s) (__socket_room s)
    (__peerConnection s) (__dataChannel s) (__mediaStream s) v
    (__caller_ringing s) (__receiver_ringing s) (user_id s) (secure_context s)
    (inflight s) (next_promise s) (waiting s).

Definition set_caller_ringing (v : gset string) (s : State) : State :=
  mkState (reconnectAttempts s) (__roomList s) (__roomPending s) (__keepAliveInterval s)
    (__rtcCandidates s) (__rtcSdpOffer s) (__socket s) (__socket_room s)
    (__peerConnection s) (__dataChannel s) (__mediaStream s) (peerCallbacks s)
    v (__receiver_ringing s) (user_id s) (secure_context s)
    (inflight s) (next_promise s) (waiting s).

Definition set_receiver_ringing (v : gset string) (s : State) : State :=
  mkState (reconnectAttempts s) (__roomList s) (__roomPending s) (__keepAliveInterval s)
    (__rtcCandidates s) (__rtcSdpOffer s) (__socket s) (__socket_room s)
    (__peerConnection s) (__dataChannel s) (__mediaStream s) (peerCallbacks s)
    (__caller_ringing s) v (user_id s) (secure_context s)
    (inflight s) (next_promise s) (waiting s).

Definition set_inflight (v : gmap nat (string * option string)) (n : nat) (s : State) : State :=
  mkState (reconnectAttempts s) (__roomList s) (__roomPending s) (__keepAliveInterval s)
    (__rtcCandidates s) (__rtcSdpOffer s) (__socket s) (__socket_room s)
    (__peerConnection s) (__dataChannel s) (__mediaStream s) (peerCallbacks s)
    (__caller_ringing s) (__receiver_ringing s) (user_id s) (secure_context s)
    v n (waiting s).

Definition set_waiting (v : list Waiter) (s : State) : State :=
  mkState (reconnectAttempts s) (__roomList s) (__roomPending s) (__keepAliveInterval s)
    (__rtcCandidates s) (__rtcSdpOffer s) (__socket s) (__socket_room s)
    (__peerConnection s) (__dataChannel s) (__mediaStream s) (peerCallbacks s)
    (__caller_ringing s) (__receiver_ringing s) (user_id s) (secure_context s)
    (inflight s) (next_promise s) v.

(** The state of a freshly loaded module for the given profile and page. *)
Definition initial (uid : string) (secure : bool) : State :=
  mkState 0 ∅ ∅ false ∅ ∅ NoSocket None ∅ ∅ None ∅ ∅ ∅ uid secure ∅ 0 [].

(** ** The monad: state, effect log, exceptions *)

(** How a call ends: it returns, it throws (an async function rejects), or
    it stays suspended on the pending connection promise. Mutations made and
    effects issued before a throw persist, as in JavaScript. *)
Inductive Outcome (A : Type) : Type :=
| Ok (a : A)
| Throw (e : Error)
| Blocked.

Arguments Ok {A} a.
Arguments Throw {A} e.
Arguments Blocked {A}.

Record Res (A : Type) : Type := mkRes {
  r_st : State;
  r_log : list Effect;
  r_out : Outcome A
}.

Arguments mkRes {A} r_st r_log r_out.
Arguments r_st {A} r.
Arguments r_log {A} r.
Arguments r_out {A} r.

Definition M (A : Type) : Type := State -> Res A.

Definition ret {A : Type} (a : A) : M A :=
  fun s => mkRes s [] (Ok a).

(** The log of [r] with [l] put in front. *)
Definition after {A : Type} (l : list Effect) (r : Res A) : Res A :=
  match r with
  | mkRes s' l' out => mkRes s' (l ++ l') out
  end.

Definition bind {A B : Type} (m : M A) (f : A -> M B) : M B :=
  fun s =>
    match m s with
    | mkRes s1 l1 (Ok a) => after l1 (f a s1)
    | mkRes s1 l1 (Throw e) => mkRes s1 l1 (Throw e)
    | mkRes s1 l1 Blocked => mkRes s1 l1 Blocked
    end.

Notation "x <- m ;; k" := (bind m (fun x => k))
  (at level 100, m at next level, right associativity).
Notation "m ;;; k" := (bind m (fun _ => k))
  (at level 100, right associativity).

Definition throw {A : Type} (e : Error) : M A :=
  fun s => mkRes s [] (Throw e).

Definition blocked {A : Type} : M A :=
  fun s => mkRes s [] Blocked.

Definition read {A : Type} (f : State -> A) : M A :=
  fun s => mkRes s [] (Ok (f s)).

Definition modify (f : State -> State) : M unit :=
  fun s => mkRes (f s) [] (Ok tt).

Definition emit (e : Effect) : M unit :=
  fun s => mkRes s [e] (Ok tt).

Definition when (b : bool) (m : M unit) : M unit :=
  if b then m else ret tt.

(** [for (let x of l) body(x)]. *)
Fixpoint for_each {A : Type} (l : list A) (body : A -> M unit) : M unit :=
  match l with
  | [] => ret tt
  | x :: l' => body x ;;; for_each l' body
  end.

(** A call to an async function whose promise is dropped: what it did
    stays, how it ended is not observed. *)
Definition detached {A : Type} (m : M A) : M unit :=
  fun s =>
    match m s with
    | mkRes s1 l1 _ => mkRes s1 l1 (Ok tt)
    end.

(** [try { body } catch (err) { handler }]. *)
Definition try_catch {A : Type} (body handler : M A) : M A :=
  fun s =>
    match body s with
    | mkRes s1 l1 (Throw _) => after l1 (handler s1)
    | r => r
    end.

(** ** Parameters of the calls *)

(** The [mediaStream] parameter: absent, a [MediaStream] object (its
    tracks), or a constraints object. *)
Inductive MediaParam : Type :=
| NoMedia
| MediaStreamObject (tracks : list string)
| MediaConstraints (video audio : bool).

Record ReceiveParams : Type := mkReceiveParams {
  rp_ice : option string;
  rp_reject : bool;
  rp_mediaStream : MediaParam
}.

(** One entry of [dataChannelOptions]; only [protocol] takes part in the
    control flow. *)
Record DataChannelOption : Type := mkOption {
  protocol : option string
}.

Record ConnectParams : Type := mkConnectParams {
  cp_recipient : string;
  cp_ice : option string;
  cp_mediaStream : MediaParam;
  cp_dataChannelOptions : option (list DataChannelOption)
}.

(** What the membership request settles with: the [list] of the response,
    each entry already split into user id and connection id, or a failure. *)
Inductive Reply : Type :=
| Fulfilled (entries : list (string * string))
| Rejected.

Definition default_ice : string := "stun:stun.skapi.com:3468".

(** [navigator.mediaDevices.getUserMedia]: the host hands back one track
    per requested kind. *)
Definition getUserMedia (video audio : bool) : list string :=
  ((if video then ["video"] else []) ++ (if audio then ["audio"] else []))%list.

Definition is_closed (c : ChanState) : bool :=
  match c with chan_closed => true | _ => false end.

Definition conn_is_closed (c : ConnState) : bool :=
  match c with conn_closed => true | _ => false end.

(** [maxAttempts] of [socket.onclose]. *)
Definition maxAttempts : nat := 10.

(** [Math.min(1000 * (2 ** reconnectAttempts), 30000)]. *)
Definition reconnect_delay (attempts : nat) : Z :=
  Z.min (1000 * 2 ^ Z.of_nat attempts) 30000.

(** ** The realtime module *)

Section Realtime.

(** Three functions of the repository that the module imports and whose
    source is not part of it. [UserId r] tells whether [validator.UserId(r)]
    returns (rather than throws); [decode] is [JSON.parse(decodeURI(data))],
    [None] when either throws; [extractFormData m] is
    [extractFormData(m).data]. *)
Variable UserId : string -> bool.
Variable decode : string -> option json.
Variable extractFormData : json -> json.

(** [let socket = __socket ? await __socket : __socket]. *)
Definition await_socket : M (option ReadyState) :=
  slot <- read __socket ;;
  match slot with
  | NoSocket => ret None
  | Connecting => blocked
  | Resolved rs => ret (Some rs)
  end.

(** [socket.send(JSON.stringify(frame))]; a TypeError when [socket] is
    [null]. The log records the call. *)
Definition socket_send (socket : option ReadyState) (f : Frame) : M unit :=
  match socket with
  | Some _ => emit (Send f)
  | None => throw TypeError
  end.

(** *** Signaling helpers *)

Definition sdpanswer (from : option string) (sdpoffer : json) : M unit :=
  peerConnection <- read (fun s => __peerConnection s !! key from) ;;
  socket <- await_socket ;;
  match socket with
  | None => throw NoRealtimeConnection
  | Some _ =>
      match peerConnection with
      | None => throw NoPeerConnection
      | Some _ =>
          emit (SetRemoteDescription (key from) sdpoffer) ;;;
          emit (CreateAnswer (key from)) ;;;
          emit (SetLocalDescription (key from)) ;;;
          emit (Send (mkFrame rtc (Uid from) (CSdpAnswer (key from) sdpoffer)))
      end
  end.

Definition addIceCandidate (from : option string) (candidate : json) : M unit :=
  peerConnection <- read (fun s => __peerConnection s !! key from) ;;
  match peerConnection with
  | None => throw NoPeerConnection
  | Some _ => emit (AddIceCandidate (key from) candidate)
  end.

Definition sendOffer (recipient : string) : M unit :=
  socket <- await_socket ;;
  peerConnection <- read (fun s => __peerConnection s !! recipient) ;;
  match peerConnection with
  | None => throw TypeError
  | Some _ =>
      emit (CreateOffer recipient) ;;;
      emit (SetLocalDescription recipient) ;;;
      try_catch
        (if UserId recipient
         then socket_send socket
                (mkFrame rtc (Uid (Some recipient)) (CSdpOffer recipient))
         else throw InvalidUserId)
        (room <- read __socket_room ;;
         if bool_decide (room = Some recipient)
         then socket_send socket
                (mkFrame rtcBroadcast (Rid (Some recipient)) (CSdpOffer recipient))
         else throw (NotJoined recipient))
  end.

(** *** closeRTC *)

Definition closeRTC (recipient : option string) : M unit :=
  let k := key recipient in
  modify (fun s => set_rtcSdpOffer (delete k (__rtcSdpOffer s)) s) ;;;
  modify (fun s => set_rtcCandidates (delete k (__rtcCandidates s)) s) ;;;
  if falsy_str recipient then throw RecipientRequired else
  channels <- read (fun s => default [] (__dataChannel s !! k)) ;;
  for_each channels
    (fun ch => when (negb (is_closed (snd ch))) (emit (ChannelClose k (fst ch)))) ;;;
  modify (fun s => set_dataChannel (delete k (__dataChannel s)) s) ;;;
  peerConnection <- read (fun s => __peerConnection s !! k) ;;
  match peerConnection with
  | Some pc =>
      when (negb (conn_is_closed (connectionState pc))) (emit (PeerClose k)) ;;;
      registered <- read (fun s => bool_decide (k ∈ peerCallbacks s)) ;;
      if registered
      then emit (PeerCb k (RtcConnectionStateChange conn_closed))
      else throw TypeError
  | None => ret tt
  end ;;;
  modify (fun s => set_peerConnection (delete k (__peerConnection s)) s).

(** *** receiveRTC and connectRTC *)

(** The localhost-or-https check both calls start with. *)
Definition media_guard (m : MediaParam) : M unit :=
  match m with
  | MediaConstraints video audio =>
      secure <- read secure_context ;;
      if (video || audio) && negb secure then throw MediaNotSecure else ret tt
  | _ => ret tt
  end.

(** [if (params?.mediaStream) { ... }]: store the stream and add its tracks
    to the peer connection. *)
Definition attach_media (peer : string) (m : MediaParam) : M unit :=
  match m with
  | NoMedia => ret tt
  | _ =>
      match m with
      | MediaStreamObject tracks => modify (set_mediaStream (Some tracks))
      | MediaConstraints video audio =>
          when (video || audio)
               (modify (set_mediaStream (Some (getUserMedia video audio))))
      | NoMedia => ret tt
      end ;;;
      stream <- read __mediaStream ;;
      match stream with
      | Some tracks => for_each tracks (fun t => emit (AddTrack peer t))
      | None => ret tt
      end
  end.

(** [if (!__peerConnection?.[peer]) __peerConnection[peer] = new
    RTCPeerConnection(...)]. *)
Definition ensure_peerConnection (peer : string) (ice : option string) : M unit :=
  peerConnection <- read (fun s => __peerConnection s !! peer) ;;
  match peerConnection with
  | Some _ => ret tt
  | None =>
      emit (NewRTCPeerConnection peer (default default_ice ice)) ;;;
      modify (fun s => set_peerConnection
                         (<[peer := mkPeer conn_new]> (__peerConnection s)) s)
  end.

(** [if (!__dataChannel[peer]) __dataChannel[peer] = {}]. *)
Definition ensure_dataChannel (peer : string) : M unit :=
  modify (fun s => match __dataChannel s !! peer with
                   | Some _ => s
                   | None => set_dataChannel (<[peer := []]> (__dataChannel s)) s
                   end).

(** The function [receiveRTC(msg, rtc)] returns, called with [params]. The
    awaited host operations are taken to complete at once, so that the
    answers started together under [Promise.all] run one after the other,
    in the order they were started. *)
Definition receiveRTC (h : RTCreceiver) (params : ReceiveParams) : M unit :=
  let from := h_sender h in
  let k := key from in
  media_guard (rp_mediaStream params) ;;;
  socket <- await_socket ;;
  match socket with
  | None => throw NoRealtimeConnection
  | Some _ =>
      if rp_reject params
      then emit (Send (mkFrame rtc (Uid from) CReject))
      else
        ensure_peerConnection k (rp_ice params) ;;;
        attach_media k (rp_mediaStream params) ;;;
        modify (fun s => set_peerCallbacks ({[k]} ∪ peerCallbacks s) s) ;;;
        ensure_dataChannel k ;;;
        offers <- read (fun s => __rtcSdpOffer s !! k) ;;
        match offers with
        | Some (o :: os) =>
            for_each (o :: os) (sdpanswer from) ;;;
            modify (fun s => set_rtcSdpOffer (delete k (__rtcSdpOffer s)) s) ;;;
            candidates <- read (fun s => __rtcCandidates s !! k) ;;
            match candidates with
            | Some (c :: cs) =>
                for_each (c :: cs) (addIceCandidate from) ;;;
                modify (fun s => set_rtcCandidates (delete k (__rtcCandidates s)) s)
            | _ => ret tt
            end
        | _ => ret tt
        end ;;;
        match get_truthy (h_rtc h) "sdpoffer" with
        | Some o => sdpanswer from o
        | None => ret tt
        end ;;;
        emit (Send (mkFrame rtc (Uid from) CPickup)) ;;;
        emit (PeerCb k RtcPickup) ;;;
        modify (fun s => set_receiver_ringing (__receiver_ringing s ∖ {[k]}) s)
  end.

(** [params.dataChannelOptions[i].protocol || 'default']. *)
Definition protocol_of (o : DataChannelOption) : string :=
  match protocol o with
  | Some p => if bool_decide (p = EmptyString) then "default" else p
  | None => "default"
  end.

(** The [dataChannelOptions] after [validator.Params] has filled in the
    default. *)
Definition options_of (params : ConnectParams) : list DataChannelOption :=
  default [mkOption (Some "default")] (cp_dataChannelOptions params).

(** One round of the loop that creates the data channels. *)
Definition create_channel (recipient : string) (o : DataChannelOption) : M unit :=
  let label := protocol_of o in
  channels <- read (fun s => default [] (__dataChannel s !! recipient)) ;;
  if existsb (fun ch => bool_decide (fst ch = label)) channels
  then throw (DuplicateDataChannel label)
  else
    emit (CreateDataChannel recipient label) ;;;
    modify (fun s => set_dataChannel
                       (<[recipient := (channels ++ [(label, chan_connecting)])%list]>
                          (__dataChannel s)) s).

Definition connectRTC (params : ConnectParams) : M unit :=
  socket <- await_socket ;;
  match socket with
  | None => throw NoRealtimeConnection
  | Some readyState =>
      let recipient := cp_recipient params in
      media_guard (cp_mediaStream params) ;;;
      match readyState with
      | OPEN =>
          ensure_peerConnection recipient (cp_ice params) ;;;
          attach_media recipient (cp_mediaStream params) ;;;
          modify (fun s => set_peerCallbacks ({[recipient]} ∪ peerCallbacks s) s) ;;;
          ensure_dataChannel recipient ;;;
          for_each (options_of params) (create_channel recipient) ;;;
          sendOffer recipient ;;;
          modify (fun s => set_caller_ringing ({[recipient]} ∪ __caller_ringing s) s)
      | _ => ret tt
      end
  end.

(** *** The session: connect, open, close *)

(** [connectRealtime(cb, delay)]: a new connection promise and its timer
    unless one is already there. What the timer does when it fires (open
    the socket, install the handlers below) is the host's part. *)
Definition connectRealtime (delay : Z) : M unit :=
  attempts <- read reconnectAttempts ;;
  slot <- read __socket ;;
  match attempts, slot with
  | O, Connecting | O, Resolved _ => ret tt
  | _, _ => modify (set_socket Connecting) ;;; emit (SetTimeout delay)
  end.

(** [socket.onopen]. [resolve(socket)] settles the promise this connection
    was started with; [__socket] holds it only if it is still the pending
    one. *)
Definition onopen : M unit :=
  modify (set_reconnectAttempts 0) ;;;
  emit (Cb EvSuccess) ;;;
  room <- read __socket_room ;;
  when (negb (falsy_str room)) (emit (Send (mkFrame joinRoom (Rid room) NoContent))) ;;;
  emit (SetInterval 30000) ;;;
  modify (set_keepAliveInterval true) ;;;
  modify (fun s => match __socket s with
                   | Connecting => set_socket (Resolved OPEN) s
                   | _ => s
                   end).

(** The body of [closeRealtime] after its first line, for the socket that
    line produced. *)
Definition closeRealtime_rest (socket : option ReadyState) : M unit :=
  interval <- read __keepAliveInterval ;;
  when interval (emit ClearInterval ;;; modify (set_keepAliveInterval false)) ;;;
  match socket with
  | Some _ => emit SocketClose
  | None => ret tt
  end ;;;
  modify (set_socket NoSocket) ;;;
  modify (set_socket_room None).

Definition closeRealtime : M unit :=
  socket <- await_socket ;;
  closeRealtime_rest socket.

(** [socket.onclose]. The handler calls [closeRealtime] without awaiting
    it. When [__socket] is [null] that call runs to its end on the spot;
    when [__socket] is a resolved promise the call stops at its [await] and
    the rest of it runs once the handler has returned; when the promise is
    pending it stays suspended. *)
Definition onclose (wasClean : bool) : M unit :=
  slot <- read __socket ;;
  let now : M unit :=
    match slot with
    | NoSocket => closeRealtime_rest None
    | _ => ret tt
    end in
  let later : M unit :=
    match slot with
    | Resolved rs => closeRealtime_rest (Some rs)
    | _ => ret tt
    end in
  if wasClean then
    emit (Cb EvClose) ;;;
    now ;;;
    later
  else
    now ;;;
    modify (fun s => set_reconnectAttempts (S (reconnectAttempts s)) s) ;;;
    attempts <- read reconnectAttempts ;;
    if (attempts <? maxAttempts)%nat then
      let delay := reconnect_delay attempts in
      emit (Cb (EvReconnect delay)) ;;;
      connectRealtime delay ;;;
      later
    else
      emit (Cb EvErrorMaxAttempts) ;;;
      now ;;;
      later ;;;
      later.

(** [socket.onerror]. *)
Definition onerror : M unit :=
  emit (Cb EvErrorTransport).

(** *** Sending and joining *)

Definition postRealtime (message : json) (recipient : string) : M unit :=
  socket <- await_socket ;;
  match socket with
  | None => throw NoRealtimeConnection
  | Some readyState =>
      if bool_decide (recipient = EmptyString) then throw NoRecipient else
      let message := extractFormData message in
      match readyState with
      | OPEN =>
          try_catch
            (if UserId recipient
             then emit (Send (mkFrame sendMessage (Uid (Some recipient))
                                      (CMessage message)))
             else throw InvalidUserId)
            (room <- read __socket_room ;;
             if bool_decide (room = Some recipient)
             then emit (Send (mkFrame broadcast (Rid (Some recipient))
                                      (CMessage message)))
             else throw (NotJoined recipient))
      | _ => throw ConnectionNotOpen
      end
  end.

(** [joinRealtime({ group })], [group] a string or [null]. *)
Definition joinRealtime (group : option string) : M unit :=
  socket <- await_socket ;;
  match socket with
  | None => throw NoRealtimeConnection
  | Some _ =>
      room <- read __socket_room ;;
      if falsy_str group && falsy_str room then ret tt else
      emit (Send (mkFrame joinRoom (Rid group) NoContent)) ;;;
      modify (set_socket_room group)
  end.

(** *** The presence tracker *)

(** The property key [__socket_room] is used as once it may have become
    [null]. *)
Definition room_key (room : option string) : string :=
  match room with
  | Some r => r
  | None => "null"
  end.

(** The three statements of the leave/disconnect branch that touch
    [__roomList]: filter the connection id out, then drop the user when the
    list is empty. *)
Definition leave_update (room user : string) (c : cid)
    (roomList : gmap string (gmap string (list cid)))
  : gmap string (gmap string (list cid)) :=
  let filtered :=
    match roomList !! room with
    | Some users =>
        match users !! user with
        | Some cids => <[room := <[user := filter (fun v => v ≠ c) cids]> users]> roomList
        | None => roomList
        end
    | None => roomList
    end in
  match filtered !! room with
  | Some users =>
      match users !! user with
      | Some [] => <[room := delete user users]> filtered
      | _ => filtered
      end
  | None => filtered
  end.

(** [__roomList?.[room]?.[user]] is there. *)
Definition tracked_user (room user : string)
    (roomList : gmap string (gmap string (list cid))) : bool :=
  match roomList !! room with
  | Some users => bool_decide (is_Some (users !! user))
  | None => false
  end.

(** The statements of the join branch that touch [__roomList]. *)
Definition join_update (room user : string) (c : cid)
    (roomList : gmap string (gmap string (list cid)))
  : gmap string (gmap string (list cid)) :=
  let created :=
    match roomList !! room with
    | Some _ => roomList
    | None => <[room := ∅]> roomList
    end in
  let users := default ∅ (created !! room) in
  match users !! user with
  | None => <[room := <[user := [c]]> users]> created
  | Some cids =>
      if bool_decide (c ∈ cids) then created
      else <[room := <[user := (cids ++ [c])%list]> users]> created
  end.

(** The leave/disconnect branch from after its [await]; [false] when the
    handler returns there. *)
Definition notice_leave (msg : Msg) : M bool :=
  room <- read (fun s => room_key (__socket_room s)) ;;
  let user := key (sender msg) in
  modify (fun s => set_roomList (leave_update room user (sender_cid msg) (__roomList s)) s) ;;;
  still <- read (fun s => tracked_user room user (__roomList s)) ;;
  ret (negb still).

(** The join branch from after its [await]; [false] when the handler
    returns there. *)
Definition notice_join (msg : Msg) : M bool :=
  room <- read (fun s => room_key (__socket_room s)) ;;
  let user := key (sender msg) in
  known <- read (fun s => tracked_user room user (__roomList s)) ;;
  modify (fun s => set_roomList (join_update room user (sender_cid msg) (__roomList s)) s) ;;;
  ret (negb known).

(** Which membership branch a notice takes: [Some true] the
    leave/disconnect one, [Some false] the join one, [None] neither. *)
Definition notice_branch (room : option string) (text : json) : M (option bool) :=
  if falsy_str room then ret None else
  match includes text "has left the message group.",
        includes text "has been disconnected.",
        includes text "has joined the message group." with
  | Some has_left, Some disconnected, Some joined =>
      ret (if has_left || disconnected then Some true
           else if joined then Some false
           else None)
  | _, _, _ => throw TypeError
  end.

(** The [if (type === 'notice')] block; [false] when the handler does not
    go on to the callback now: it has returned, or it is suspended on the
    pending query of the room. *)
Definition notice (msg : Msg) : M bool :=
  room <- read __socket_room ;;
  branch <- notice_branch room (message msg) ;;
  match branch with
  | None => ret true
  | Some leave =>
      pending <- read (fun s => __roomPending s !! key room) ;;
      match pending with
      | Some p =>
          modify (fun s => set_waiting (waiting s ++ [mkWaiter p leave msg])%list s) ;;;
          ret false
      | None => if leave then notice_leave msg else notice_join msg
      end
  end.

(** A suspended handler picks up after its [await] has returned. *)
Definition resume (w : Waiter) : M unit :=
  go <- (if w_leave w then notice_leave (w_msg w) else notice_join (w_msg w)) ;;
  when go (emit (Cb (EvMsg (w_msg w)))).

(** *** Inbound signaling *)

(** [__caller_ringing[from](from, __mediaStream)]. *)
Definition caller_pickup (k : string) : M unit :=
  peerConnection <- read (fun s => __peerConnection s !! k) ;;
  match peerConnection with
  | None => throw TypeError
  | Some _ => emit (PeerCb k RtcPickup)
  end.

(** The [if (type === 'rtc')] block; [None] when the handler returns inside
    it, otherwise the message as it goes to the callback. The variable
    [__receivedDataChannelList] that the first offer's [dataChannels] are
    assigned to is declared nowhere, and the module is strict code: the
    assignment throws a ReferenceError. *)
Definition rtc_signal (msg : Msg) : M (option Msg) :=
  me <- read user_id ;;
  if bool_decide (sender msg = Some me) then ret (Some msg) else
  let rtc := message msg in
  let from := sender msg in
  let k := key from in
  match get_truthy rtc "reject" with
  | Some _ =>
      peerConnection <- read (fun s => __peerConnection s !! k) ;;
      match peerConnection with
      | Some _ => closeRTC from
      | None => ret tt
      end ;;;
      ret None
  | None =>
      match get_truthy rtc "candidate" with
      | Some candidate =>
          peerConnection <- read (fun s => __peerConnection s !! k) ;;
          match peerConnection with
          | Some _ => detached (addIceCandidate from candidate)
          | None =>
              modify (fun s => set_rtcCandidates
                (<[k := (default [] (__rtcCandidates s !! k) ++ [candidate])%list]>
                   (__rtcCandidates s)) s)
          end
      | None => ret tt
      end ;;;
      msg' <- match get_truthy rtc "sdpoffer" with
              | Some sdpoffer =>
                  peerConnection <- read (fun s => __peerConnection s !! k) ;;
                  match peerConnection with
                  | Some _ => detached (sdpanswer from sdpoffer) ;;; ret msg
                  | None =>
                      modify (fun s => match __rtcSdpOffer s !! k with
                                       | Some _ => s
                                       | None => set_rtcSdpOffer
                                                   (<[k := []]> (__rtcSdpOffer s)) s
                                       end) ;;;
                      (if has_truthy rtc "dataChannels"
                       then throw ReferenceError else ret tt) ;;;
                      ringing <- read (fun s => bool_decide (k ∈ __receiver_ringing s)) ;;
                      modify (fun s => set_receiver_ringing ({[k]} ∪ __receiver_ringing s) s) ;;;
                      modify (fun s => set_rtcSdpOffer
                        (<[k := (default [] (__rtcSdpOffer s !! k) ++ [sdpoffer])%list]>
                           (__rtcSdpOffer s)) s) ;;;
                      ret (if ringing then msg
                           else mkMsg (type msg) (message msg) (sender msg)
                                  (sender_cid msg) (sender_rid msg)
                                  (Some (mkReceiver from rtc)))
                  end
              | None => ret msg
              end ;;
      match get_truthy rtc "pickup" with
      | Some _ =>
          ringing <- read (fun s => bool_decide (k ∈ __caller_ringing s)) ;;
          when ringing
            (caller_pickup k ;;;
             modify (fun s => set_caller_ringing (__caller_ringing s ∖ {[k]}) s))
      | None => ret tt
      end ;;;
      match get_truthy rtc "sdpanswer" with
      | Some answer =>
          peerConnection <- read (fun s => __peerConnection s !! k) ;;
          match peerConnection with
          | Some _ => emit (SetRemoteDescription k answer)
          | None => throw TypeError
          end
      | None => ret tt
      end ;;;
      ret (Some msg')
  end.

(** *** socket.onmessage *)

Definition classify (data : json) : MsgType :=
  if has_truthy data "#message" then Tmessage
  else if has_truthy data "#private" then Tprivate
  else if has_truthy data "#notice" then Tnotice
  else if has_truthy data "#rtc" then Trtc
  else Tmessage.

Definition payload (data : json) : json :=
  default JNull
    (or_else (get_truthy data "#rtc")
       (or_else (get_truthy data "#message")
          (or_else (get_truthy data "#private")
             (get_truthy data "#notice")))).

Definition make_msg (data : json) : Msg :=
  mkMsg (classify data) (payload data)
    (get_string data "#user_id")
    (match get_string data "#scid" with
     | Some c => Some ("scid:" ++ c)%string
     | None => None
     end)
    (get_string data "#srid")
    None.

Definition onmessage (event_data : string) : M unit :=
  match decode event_data with
  | None => ret tt
  | Some data =>
      let msg := make_msg data in
      go <- match type msg with
            | Tnotice => notice msg
            | _ => ret true
            end ;;
      if go then
        out <- match type msg with
               | Trtc => rtc_signal msg
               | _ => ret (Some msg)
               end ;;
        match out with
        | Some msg' => emit (Cb (EvMsg msg'))
        | None => ret tt
        end
      else ret tt
  end.

(** *** Membership queries *)

(** One entry of the response merged into [__roomList]. *)
Definition merge_entry (group : string)
    (roomList : gmap string (gmap string (list cid)))
    (entry : string * string)
  : gmap string (gmap string (list cid)) :=
  join_update group (fst entry) (Some (snd entry)) roomList.

(** [getRealtimeUsers(params)] for [params] as [validator.Params] returns
    them; the result is the promise handed back, named by its number. *)
Definition getRealtimeUsers (group : string) (user : option string) : M nat :=
  if bool_decide (group = EmptyString) then throw GroupRequired else
  pending <- read (fun s => __roomPending s !! group) ;;
  match falsy_str user, pending with
  | true, Some p => ret p
  | _, _ =>
      req <- read next_promise ;;
      emit (Request req group user) ;;;
      modify (fun s => set_inflight (<[req := (group, user)]> (inflight s)) (S req) s) ;;;
      when (falsy_str user)
        (modify (fun s => match __roomPending s !! group with
                          | Some _ => s
                          | None => set_roomPending (<[group := req]> (__roomPending s)) s
                          end)) ;;;
      ret req
  end.

(** The request behind promise [req] settles: the [then] callback merges
    the response of an unfiltered query, the [finally] callback drops the
    pending entry of the group, and the handlers that were waiting on the
    promise go on, in the order they arrived (on a failure each of them
    throws at its [await]). *)
Definition settle (req : nat) (reply : Reply) : M unit :=
  query <- read (fun s => inflight s !! req) ;;
  match query with
  | None => ret tt
  | Some (group, user) =>
      modify (fun s => set_inflight (delete req (inflight s)) (next_promise s) s) ;;;
      match reply with
      | Fulfilled entries =>
          when (falsy_str user)
            (modify (fun s => set_roomList
                                (fold_left (merge_entry group) entries (__roomList s)) s))
      | Rejected => ret tt
      end ;;;
      modify (fun s => set_roomPending (delete group (__roomPending s)) s) ;;;
      waiters <- read waiting ;;
      modify (set_waiting (filter (fun w => w_promise w ≠ req) waiters)) ;;;
      match reply with
      | Fulfilled _ =>
          for_each (filter (fun w => w_promise w = req) waiters)
                   (fun w => detached (resume w))
      | Rejected => ret tt
      end
  end.

End Realtime.

(** ** Connection state changes of a peer *)

(** [state === 'disconnected' || state === 'failed' || state === 'closed']. *)
Definition is_terminal (state : ConnState) : bool :=
  match state with
  | conn_disconnected | conn_failed | conn_closed => true
  | _ => false
  end.

(** [peer.onconnectionstatechange] as [iceCandidateHandler] installs it on
    the connection of the peer [key]; [state] is [peer.connectionState] at
    the time the event fires. *)
Definition onconnectionstatechange (key : string) (state : ConnState) : M unit :=
  emit (PeerCb key (RtcConnectionStateChange state)) ;;;
  when (is_terminal state) (closeRTC (Some key)).

(** ** The records module: reading a stored record

    [normalizeRecord] turns a record as the database stores it into the
    record the caller sees; each key of the stored record has a handler
    that writes some fields of the output. The handlers that compute
    something are embedded here, each as a function from the stored value
    to what it writes, together with [normalizeTypedString]. Strings are
    ASCII; numbers are integers, rounded the way doubles are where
    [base_decode] computes beyond 2^53. *)

From Stdlib Require Import Ascii.

Module Records.

Local Open Scope Z_scope.

(** The outcome of a handler: it returns without writing, it writes, or it
    throws. *)
Inductive Step (A : Type) : Type :=
| Skip
| Write (a : A)
| Fail.

Arguments Skip {A}.
Arguments Write {A} a.
Arguments Fail {A}.

Definition charset : string :=
  "0123456789ABCDEFGHIJKLMNOPQRSTUVWXYZabcdefghijklmnopqrstuvwxyz".

(** [s.indexOf(c)] for a character [c]: -1 when [s] does not have it. *)
Fixpoint indexOf (c : ascii) (s : string) : Z :=
  match s with
  | EmptyString => -1
  | String d s' =>
      if Ascii.eqb d c then 0
      else let i := indexOf c s' in
           if i <? 0 then -1 else i + 1
  end.

(** JavaScript numbers are doubles. The integers below 2^53 in absolute
    value are doubles; from there on a double has 53 significant bits, and
    the result of an operation is the double nearest to the exact result,
    the one with the even significand when two are equally near. *)
Definition nearest_double (x : Z) : Z :=
  let a := Z.abs x in
  if a <? 2 ^ 53 then x else
  let ulp := 2 ^ (Z.log2 a - 52) in
  let q := a / ulp in
  let r := a mod ulp in
  let q' := if 2 * r <? ulp then q
            else if ulp <? 2 * r then q + 1
            else if Z.even q then q else q + 1 in
  Z.sgn x * (q' * ulp).

(** [62 ** i]: the power where it is a double (up to [62 ** 10]). Beyond
    that the host approximates the power, to an accuracy the language
    leaves open; the result is not followed there ([None]). *)
Definition pow62 (i : Z) : option Z :=
  if bool_decide (nearest_double (62 ^ i) = 62 ^ i) then Some (62 ^ i) else None.

(** [l.reduce((prev, curr, i) => prev + (charset.indexOf(curr) * (62 ** i)),
    prev)], the index starting at [i]; the product and the sum are each
    rounded to a double. The numbers followed stay far below the largest
    double. *)
Fixpoint reduce (l : list ascii) (i : Z) (prev : option Z) : option Z :=
  match l with
  | [] => prev
  | curr :: l' =>
      reduce l' (i + 1)
        (match prev, pow62 i with
         | Some prev, Some power =>
             Some (nearest_double
                     (prev + nearest_double (indexOf curr charset * power)))
         | _, _ => None
         end)
  end.

(** [chars.split('').reverse().reduce(..., 0)]. *)
Definition base_decode (chars : string) : option Z :=
  reduce (rev (list_ascii_of_string chars)) 0 (Some 0).

(** The number a string denotes in base 62, the first character being the
    most significant digit. *)
Fixpoint base62 (s : string) : Z :=
  match s with
  | EmptyString => 0
  | String c s' => indexOf c charset * 62 ^ Z.of_nat (String.length s') + base62 s'
  end.

(** The characters of [s] are digits of the charset. *)
Definition digits (s : string) : Prop :=
  Forall (fun c => 0 <= indexOf c charset) (list_ascii_of_string s).

(** [s.split(sep)] for a separator of one character. *)
Fixpoint split (sep : ascii) (s : string) : list string :=
  match s with
  | EmptyString => [EmptyString]
  | String c s' =>
      if Ascii.eqb c sep then EmptyString :: split sep s'
      else match split sep s' with
           | part :: parts => String c part :: parts
           | [] => [String c EmptyString]
           end
  end.

(** [parts.join(sep)]. *)
Fixpoint join (sep : ascii) (parts : list string) : string :=
  match parts with
  | [] => EmptyString
  | part :: parts' =>
      match parts' with
      | [] => part
      | _ => (part ++ String sep (join sep parts'))%string
      end
  end.

(** What [normalizeTypedString] returns: a string, a number ([None] is
    NaN), a boolean, or a parsed JSON value. *)
Inductive Value : Type :=
| VString (s : string)
| VNumber (n : option Z)
| VBoolean (b : bool)
| VParsed (j : json).

(** [output.table.access_group]: "private" or the result of [parseInt]
    ([None] is NaN). *)
Inductive AccessGroup : Type :=
| Private
| Group (n : option Z).

(** [output.table]; a name that is [None] is [undefined], a subscription
    is the user id and the group. *)
Record Table : Type := mkTable {
  name : option string;
  access_group : AccessGroup;
  subscription : option (string * option Z)
}.

Section Host.

(** Three host functions: [Number(s)] and [parseInt(s)], [None] for NaN,
    and [JSON.parse(s)], [None] when it throws. *)
Variable Number : string -> option Z.
Variable parseInt : option string -> option Z.
Variable JSON_parse : string -> option json.

(** [None] when the function throws the parse error. *)
Definition normalizeTypedString (v : string) : option Value :=
  let value := String.substring 3 (String.length v - 3) v in
  let type := String.substring 0 3 v in
  if bool_decide (type = "!S%") then Some (VString value)
  else if bool_decide (type = "!N%")
  then Some (VNumber (option_map (fun n => n - 4503599627370496) (Number value)))
  else if bool_decide (type = "!B%") then Some (VBoolean (bool_decide (value = "1")))
  else if bool_decide (type = "!L%") || bool_decide (type = "!D%")
  then option_map VParsed (JSON_parse value)
  else Some (VString v).

(** The handler of the key [rec]: the record id and the upload time read
    from it ([None] where [base_decode] is not followed). *)
Definition keys_rec (r : string) : Step (string * option Z) :=
  if bool_decide (r = EmptyString) then Skip else
  let base62timestamp := String.substring 0 (String.length r - 9) r in
  Write (r, base_decode base62timestamp).

(** The handler of the key [tbl], on the table of the output so far. The
    value reads [table/service/group/subscription/group/tag]. *)
Definition keys_tbl (r : string) (table : Table) : Table :=
  if bool_decide (r = EmptyString) then table else
  let rSplit := split "/" r in
  mkTable
    (rSplit !! 0%nat)
    (if bool_decide (rSplit !! 2%nat = Some "**") then Private
     else Group (parseInt (rSplit !! 2%nat)))
    (match rSplit !! 3%nat with
     | Some user =>
         if bool_decide (user = EmptyString) then subscription table
         else Some (user, parseInt (rSplit !! 4%nat))
     | None => subscription table
     end).

(** The handler of the key [usr_tbl], which reads
    [user/table/service/group/subscription/group/tag]: the user id and
    the table. *)
Definition keys_usr_tbl (r : string) (table : Table) : option string * Table :=
  let rSplit := split "/" r in
  (rSplit !! 0%nat,
   mkTable
     (rSplit !! 1%nat)
     (if bool_decide (rSplit !! 3%nat = Some "**") then Private
      else Group (parseInt (rSplit !! 3%nat)))
     (match rSplit !! 4%nat with
      | Some user =>
          if bool_decide (user = EmptyString) then subscription table
          else Some (user, parseInt (rSplit !! 5%nat))
      | None => subscription table
      end)).

(** The handler of the key [idx]: the name of the index and its value. *)
Definition keys_idx (r : string) : Step (option string * Value) :=
  if bool_decide (r = EmptyString) then Skip else
  let rSplit := split "!" r in
  let name := rSplit !! 0%nat in
  match normalizeTypedString (String "!" (join "!" (tail rSplit))) with
  | Some value => Write (name, value)
  | None => Fail
  end.

End Host.

End Records.

(** ** Reading the effect log *)

(** The events the realtime callback was called with. *)
Definition callbacks (log : list Effect) : list RealtimeEvent :=
  omap (fun e => match e with Cb ev => Some ev | _ => None end) log.

(** The delays of the timers that were started. *)
Definition timeouts (log : list Effect) : list Z :=
  omap (fun e => match e with SetTimeout d => Some d | _ => None end) log.

(** The labels of the data channels created on a peer's connection. *)
Definition created_channels (peer : string) (log : list Effect) : list string :=
  omap (fun e => match e with
                 | CreateDataChannel p l =>
                     if bool_decide (p = peer) then Some l else None
                 | _ => None
                 end) log.

(** A remote signal given to a peer connection. *)
Inductive Signal : Type :=
| RemoteDescription (sdp : json)
| IceCandidate (candidate : json).

(** The remote signals applied to a peer's connection, in order. *)
Definition applied (peer : string) (log : list Effect) : list Signal :=
  omap (fun e => match e with
                 | SetRemoteDescription p sdp =>
                     if bool_decide (p = peer) then Some (RemoteDescription sdp) else None
                 | AddIceCandidate p c =>
                     if bool_decide (p = peer) then Some (IceCandidate c) else None
                 | _ => None
                 end) log.

(** Whether the log holds an operation that sets up a peer connection or a
    data channel. *)
Definition sets_up_call (log : list Effect) : bool :=
  existsb (fun e => match e with
                    | NewRTCPeerConnection _ _ | CreateDataChannel _ _ => true
                    | _ => false
                    end) log.

(** The room the session counts as joined: [__socket_room] when it is
    truthy. *)
Definition joined_room (s : State) : option string :=
  if falsy_str (__socket_room s) then None else __socket_room s.

(** [k] unexpected closes in a row, no connection opening in between. *)
Fixpoint unexpected_closes (k : nat) : M unit :=
  match k with
  | O => ret tt
  | S k' => onclose false ;;; unexpected_closes k'
  end.

(** Frames arriving one after the other; a handler that throws does not
    keep the next frame from being handled. *)
Definition deliver (decode : string -> option json) (frames : list string) : M unit :=
  for_each frames (fun raw => detached (onmessage decode raw)).

(** What one run of [sdpanswer] for the peer [k] does. *)
Definition answer_log (k : string) (from : option string) (o : json) : list Effect :=
  [SetRemoteDescription k o; CreateAnswer k; SetLocalDescription k;
   Send (mkFrame rtc (Uid from) (CSdpAnswer k o))].

(** The pickup/reject functions that came with the frames given to the
    callback, frame by frame. *)
Definition handles (log : list Effect) : list (option RTCreceiver) :=
  omap (fun ev => match ev with
                  | EvMsg m => Some (receiveRTC_handle m)
                  | _ => None
                  end) (callbacks log).

(** The localhost-or-https check lets the call through. *)
Definition media_allowed (s : State) (m : MediaParam) : bool :=
  match m with
  | MediaConstraints video audio => negb ((video || audio) && negb (secure_context s))
  | _ => true
  end.

(** The labels of the channels that are not closed yet. *)
Definition open_labels (channels : list (string * ChanState)) : list string :=
  map fst (List.filter (fun ch => negb (is_closed (snd ch))) channels).

(** ** Data channels as a call asks for them *)



(** ** Room membership as the specification describes it *)

(** A membership notice, reduced to what the tracker uses of it. *)
Inductive Notice : Type :=
| Joined (user : string) (c : cid)
| Left (user : string) (c : cid).

(** The connection ids tracked for a user of a group; none when the group
    or the user has no entry. *)
Definition connections (m : gmap string (gmap string (list cid)))
    (group user : string) : list cid :=
  match m !! group with
  | Some users => default [] (users !! user)
  | None => []
  end.

(** Record the connection ids of a user; a user left without any has no
    entry. *)
Definition set_connections (m : gmap string (gmap string (list cid)))
    (group user : string) (l : list cid)
  : gmap string (gmap string (list cid)) :=
  let users := default ∅ (m !! group) in
  <[group := match l with
             | [] => delete user users
             | _ => <[user := l]> users
             end]> m.

(** Replaying one notice, in the specification's words: a join appends the
    connection id to the sender's set only if absent; a leave or disconnect
    removes it and deletes the user entry once its set is empty; a join for
    a tracked connection id and a leave for an untracked one change
    nothing. *)
Definition spec_replay (group : string)
    (m : gmap string (gmap string (list cid))) (n : Notice)
  : gmap string (gmap string (list cid)) :=
  match n with
  | Joined user c =>
      if bool_decide (c ∈ connections m group user) then m
      else set_connections m group user (connections m group user ++ [c])
  | Left user c =>
      if bool_decide (c ∈ connections m group user)
      then set_connections m group user
             (filter (fun v => v ≠ c) (connections m group user))
      else m
  end.

(** Whether a notice is kept from the callback: a join of a user who
    has a tracked connection id already, or a leave or disconnect after
    which the user still has one. *)
Definition kept_quiet (group : string)
    (m : gmap string (gmap string (list cid))) (n : Notice) : bool :=
  match n with
  | Joined user _ => bool_decide (connections m group user <> [])
  | Left user _ => bool_decide (connections (spec_replay group m n) group user <> [])
  end.

(** ** Notices as the handler reads them *)

(** What the handler does to the map for a notice. *)
Definition code_update (group : string)
    (m : gmap string (gmap string (list cid))) (n : Notice)
  : gmap string (gmap string (list cid)) :=
  match n with
  | Joined user c => join_update group user c m
  | Left user c => leave_update group user c m
  end.

(** The membership notice a decoded frame stands for, if any: a frame
    classified as a notice whose text has the leave, the disconnect or the
    join phrase, read the way the handler reads it. *)
Definition notice_of (data : json) : option Notice :=
  let msg := make_msg data in
  match type msg, message msg with
  | Tnotice, JStr text =>
      if str_includes text "has left the message group."
         || str_includes text "has been disconnected."
      then Some (Left (key (sender msg)) (sender_cid msg))
      else if str_includes text "has joined the message group."
      then Some (Joined (key (sender msg)) (sender_cid msg))
      else None
  | _, _ => None
  end.

(** Whether the handler returns inside the membership branch of a notice,
    before the callback: for a join, the user had an entry; for a leave or
    disconnect, the user still has one after the update. *)
Definition returns_early (group : string)
    (m : gmap string (gmap string (list cid))) (n : Notice) : bool :=
  match n with
  | Joined user c => tracked_user group user m
  | Left user c => tracked_user group user (leave_update group user c m)
  end.

(** No user is tracked with an empty list of connection ids. *)
Definition no_empty_entry (m : gmap string (gmap string (list cid))) : Prop :=
  forall group users user l,
    m !! group = Some users -> users !! user = Some l -> l <> [].

(** The notice a message stands for in the leave/disconnect branch
    ([leave]) or in the join branch of the handler. *)
Definition notice_as (leave : bool) (msg : Msg) : Notice :=
  if leave then Left (key (sender msg)) (sender_cid msg)
  else Joined (key (sender msg)) (sender_cid msg).

(** Frames that are membership notices, one by one. *)
Definition are_notices (decode : string -> option json)
    (raws : list string) (notices : list Notice) : Prop :=
  Forall2 (fun raw n => exists data, decode raw = Some data /\ notice_of data = Some n)
          raws notices.

(** The entries of a query response as the joins they are merged as. *)
Definition joins_of (entries : list (string * string)) : list Notice :=
  map (fun e => Joined (fst e) (Some (snd e))) entries.

(** The frames handed to [socket.send]. *)
Definition sent (log : list Effect) : list Frame :=
  omap (fun e => match e with Send f => Some f | _ => None end) log.

(** The events the callback of a peer was called with. *)
Definition peer_events (peer : string) (log : list Effect) : list RTCEvent :=
  omap (fun e => match e with
                 | PeerCb p ev => if bool_decide (p = peer) then Some ev else None
                 | _ => None
                 end) log.

(** The peer connections that were created. *)
Definition created_connections (log : list Effect) : list string :=
  omap (fun e => match e with NewRTCPeerConnection p _ => Some p | _ => None end) log.

(** A decoded frame is a signaling frame from the user [from] whose payload
    has the single field [field], with a truthy value. *)
Definition signal_from (data : json) (from field : string) (value : json) : Prop :=
  type (make_msg data) = Trtc /\
  sender (make_msg data) = Some from /\
  message (make_msg data) = JObj [(field, value)] /\
  truthy value = true.

(** Every tracked user has at least one connection id, and none twice. *)
Definition well_formed (m : gmap string (gmap string (list cid))) : Prop :=
  no_empty_entry m /\ forall group user, NoDup (connections m group user).

(** A computation keeps a property of the state, however it ends. *)
Definition preserves {A : Type} (P : State -> Prop) (m : M A) : Prop :=
  forall s, P s -> P (r_st (m s)).

(** The bookkeeping of the membership queries is consistent: the promises
    in flight were all handed out, and the pending entry of a group names
    an unfiltered query for that group that is in flight. *)
Definition queries_consistent (s : State) : Prop :=
  (forall p q, inflight s !! p = Some q -> (p < next_promise s)%nat) /\
  (forall group p, __roomPending s !! group = Some p ->
     exists user, inflight s !! p = Some (group, user) /\ falsy_str user = true).

(** A raw frame is an offer or a candidate of the user [from]. *)
Definition is_signal (decode : string -> option json) (from : string)
    (raw : string) (sig : Signal) : Prop :=
  exists data,
    decode raw = Some data /\
    match sig with
    | RemoteDescription o => signal_from data from "sdpoffer" o
    | IceCandidate c => signal_from data from "candidate" c
    end.

(** The offers among a run of signals, and the candidates among them, each
    in the order of the run. *)
Definition offers_of (sigs : list Signal) : list json :=
  omap (fun sig => match sig with RemoteDescription o => Some o | _ => None end) sigs.

Definition candidates_of (sigs : list Signal) : list json :=
  omap (fun sig => match sig with IceCandidate c => Some c | _ => None end) sigs.

(** ** A sample session

    Concrete values for the three imported functions and a handful of
    frames, used to run the definitions on. *)

(** A stand-in for [validator.UserId]: ids of the sample users start with
    "u-". *)
Definition sample_UserId (s : string) : bool := String.prefix "u-" s.

Definition sample_extract (m : json) : json := m.

Definition rtc_frame (from field : string) (value : json) : json :=
  JObj [("#rtc", JObj [(field, value)]); ("#user_id", JStr from)].

Definition notice_frame (from scid text : string) : json :=
  JObj [("#notice", JStr text); ("#user_id", JStr from); ("#scid", JStr scid)].

Definition offer1 : json := JObj [("type", JStr "offer"); ("sdp", JStr "v=0 first")].
Definition offer2 : json := JObj [("type", JStr "offer"); ("sdp", JStr "v=0 second")].
Definition candidate1 : json := JObj [("candidate", JStr "candidate:1"); ("sdpMid", JStr "0")].
Definition candidate2 : json := JObj [("candidate", JStr "candidate:2"); ("sdpMid", JStr "0")].

(** The sample wire: each frame is named by its payload text; anything else
    (such as a malformed escape sequence) fails to decode. *)
Definition sample_decode (raw : string) : option json :=
  if bool_decide (raw = "offer-1") then Some (rtc_frame "u-2" "sdpoffer" offer1)
  else if bool_decide (raw = "offer-2") then Some (rtc_frame "u-2" "sdpoffer" offer2)
  else if bool_decide (raw = "candidate-1") then Some (rtc_frame "u-2" "candidate" candidate1)
  else if bool_decide (raw = "candidate-2") then Some (rtc_frame "u-2" "candidate" candidate2)
  else if bool_decide (raw = "reject") then Some (rtc_frame "u-2" "reject" (JBool true))
  else if bool_decide (raw = "joined-c1")
       then Some (notice_frame "u-2" "c1" "u-2 has joined the message group.")
  else if bool_decide (raw = "joined-c2")
       then Some (notice_frame "u-2" "c2" "u-2 has joined the message group.")
  else if bool_decide (raw = "left-c1")
       then Some (notice_frame "u-2" "c1" "u-2 has left the message group.")
  else if bool_decide (raw = "left-c2")
       then Some (notice_frame "u-2" "c2" "u-2 has been disconnected.")
  else if bool_decide (raw = "banned")
       then Some (notice_frame "u-2" "c1" "u-2 has been banned.")
  else if bool_decide (raw = "hello")
       then Some (JObj [("#message", JStr "hello"); ("#user_id", JStr "u-2")])
  else None.

(** User "u-1" on an https page, connected, no room joined. *)
Definition connected : State :=
  set_socket (Resolved OPEN) (initial "u-1" true).

(** The same session after joining the room "lobby". *)
Definition in_lobby : State :=
  set_socket_room (Some "lobby") connected.

(** The sample session after "u-1" has started a call to "u-2": a peer
    connection and a registered callback, no answer yet. *)
Definition calling : State :=
  set_caller_ringing {["u-2"]}
    (set_peerCallbacks {["u-2"]}
       (set_peerConnection {["u-2" := mkPeer conn_new]} connected)).

(** The function that came with the first offer of "u-2". *)
Definition first_offer_handle : RTCreceiver :=
  mkReceiver (Some "u-2") (JObj [("sdpoffer", offer1)]).

Definition reject_params : ReceiveParams := mkReceiveParams None true NoMedia.
Definition accept_params : ReceiveParams := mkReceiveParams None false NoMedia.

(** A call to "u-2" asking for two data channels. *)
Definition call_params : ConnectParams :=
  mkConnectParams "u-2" None NoMedia
    (Some [mkOption (Some "chat"); mkOption (Some "file")]).

(** The membership map with one connection of "u-2" tracked in "lobby",
    and the session in that room with this map. *)
Definition lobby_tracked : gmap string (gmap string (list cid)) :=
  {[ "lobby" := {[ "u-2" := [Some "scid:c1"] ]} ]}.

Definition in_lobby_with_u2 : State := set_roomList lobby_tracked in_lobby.

(** Two more frames of "u-2" on the sample wire: the pickup of a call and
    the answer to an offer. *)
Definition answer1 : json := JObj [("type", JStr "answer"); ("sdp", JStr "v=0 answer")].

Definition sample_wire (raw : string) : option json :=
  if bool_decide (raw = "pickup") then Some (rtc_frame "u-2" "pickup" (JBool true))
  else if bool_decide (raw = "answer-1") then Some (rtc_frame "u-2" "sdpanswer" answer1)
  else sample_decode raw.

(** * Properties *)

Arguments reconnect_delay : simpl never.
Arguments maxAttempts : simpl never.
Arguments Nat.ltb : simpl never.

(** ** The monad *)

Lemma after_nil {A : Type} (r : Res A) : after [] r = r.
Proof. by destruct r. Qed.

Lemma after_after {A : Type} (l1 l2 : list Effect) (r : Res A) :
  after l1 (after l2 r) = after (l1 ++ l2) r.
Proof. destruct r; simpl. by rewrite app_assoc. Qed.


Lemma r_st_after {A : Type} (l : list Effect) (r : Res A) :
  r_st (after l r) = r_st r.
Proof. by destruct r. Qed.

Lemma r_out_after {A : Type} (l : list Effect) (r : Res A) :
  r_out (after l r) = r_out r.
Proof. by destruct r. Qed.

Section MonadLaws.
Context {A B C : Type}.

Lemma bind_ret (a : A) (f : A -> M B) s : (x <- ret a ;; f x) s = f a s.
Proof. unfold bind, ret. apply after_nil. Qed.

Lemma bind_read (g : State -> A) (f : A -> M B) s :
  (x <- read g ;; f x) s = f (g s) s.
Proof. unfold bind, read. apply after_nil. Qed.

Lemma bind_modify (g : State -> State) (k : unit -> M B) s :
  bind (modify g) k s = k tt (g s).
Proof. unfold bind, modify. apply after_nil. Qed.

Lemma bind_emit (e : Effect) (k : unit -> M B) s :
  bind (emit e) k s = after [e] (k tt s).
Proof. reflexivity. Qed.

Lemma bind_throw (e : Error) (f : A -> M B) s :
  (x <- throw e ;; f x) s = mkRes s [] (Throw e).
Proof. reflexivity. Qed.

Lemma bind_ok (m : M A) (f : A -> M B) s s1 l1 a :
  m s = mkRes s1 l1 (Ok a) -> bind m f s = after l1 (f a s1).
Proof. unfold bind. by intros ->. Qed.

Lemma bind_fail (m : M A) (f : A -> M B) s s1 l1 e :
  m s = mkRes s1 l1 (Throw e) -> bind m f s = mkRes s1 l1 (Throw e).
Proof. unfold bind. by intros ->. Qed.

Lemma bind_assoc (m : M A) (f : A -> M B) (g : B -> M C) s :
  (y <- (x <- m ;; f x) ;; g y) s = (x <- m ;; y <- f x ;; g y) s.
Proof.
  unfold bind. destruct (m s) as [s1 l1 [a|e|]]; try reflexivity.
  destruct (f a s1) as [s2 l2 [b|e|]]; simpl; try reflexivity.
  destruct (g b s2) as [s3 l3 o]; simpl. by rewrite app_assoc.
Qed.

End MonadLaws.

(** One step of the program at the head of the goal. *)
Ltac mstep :=
  first [ rewrite bind_assoc | rewrite bind_ret | rewrite bind_read
        | rewrite bind_modify | rewrite bind_emit | rewrite bind_throw ];
  cbv beta.

(** Unfold the primitives of the monad and compute. *)
Ltac mrun :=
  unfold when; unfold bind, read, modify, emit, ret, throw, blocked; simpl.

Lemma callbacks_app (l1 l2 : list Effect) :
  callbacks (l1 ++ l2) = callbacks l1 ++ callbacks l2.
Proof. apply omap_app. Qed.

Lemma timeouts_app (l1 l2 : list Effect) :
  timeouts (l1 ++ l2) = timeouts l1 ++ timeouts l2.
Proof. apply omap_app. Qed.

(** ** Reconnection with backoff *)

(** One unexpected close: the counter goes up by one, and the handler
    either announces and schedules one reconnect or reports the terminal
    error. *)
Lemma onclose_unexpected (st : State) :
  let n := S (reconnectAttempts st) in
  exists s' l,
    onclose false st = mkRes s' l (Ok tt) /\
    reconnectAttempts s' = n /\
    callbacks l =
      (if (n <? maxAttempts)%nat
       then [EvReconnect (reconnect_delay n)] else [EvErrorMaxAttempts]) /\
    timeouts l =
      (if (n <? maxAttempts)%nat then [reconnect_delay n] else []).
Proof.
  intros n; subst n. unfold onclose, closeRealtime_rest, connectRealtime.
  unfold when; unfold bind, read, modify, emit, ret.
  destruct (__socket st) eqn:Hs; destruct (__keepAliveInterval st) eqn:Hk;
    simpl; rewrite ?Hs, ?Hk; simpl;
    destruct (S (reconnectAttempts st) <? maxAttempts)%nat eqn:Hlt; simpl;
    repeat (progress (rewrite ?Hk; simpl));
    eexists _, _; (split; [reflexivity|]); simpl; done.
Qed.

(** What [k] unexpected closes in a row announce and schedule. *)
Lemma unexpected_closes_log (k : nat) (st : State) :
  exists s' l,
    unexpected_closes k st = mkRes s' l (Ok tt) /\
    reconnectAttempts s' = (k + reconnectAttempts st)%nat /\
    callbacks l =
      flat_map (fun n => if (n <? maxAttempts)%nat
                         then [EvReconnect (reconnect_delay n)]
                         else [EvErrorMaxAttempts])
               (seq (S (reconnectAttempts st)) k) /\
    timeouts l =
      flat_map (fun n => if (n <? maxAttempts)%nat then [reconnect_delay n] else [])
               (seq (S (reconnectAttempts st)) k).
Proof.
  revert st. induction k as [|k IH]; intros st.
  - exists st, []. by repeat split.
  - destruct (onclose_unexpected st) as (s1 & l1 & Hrun & Hn & Hcb & Hto).
    destruct (IH s1) as (s2 & l2 & Hrun2 & Hn2 & Hcb2 & Hto2).
    exists s2, (l1 ++ l2). simpl unexpected_closes.
    rewrite (bind_ok _ _ _ _ _ _ Hrun), Hrun2. simpl.
    rewrite callbacks_app, timeouts_app, Hcb, Hto, Hcb2, Hto2, Hn2, Hn.
    repeat split; try reflexivity. lia.
Qed.

(** C2. An unexpected close that brings the attempt counter to [n]
    schedules, while [n] is below the maximum of 10, exactly one reconnect
    after [min (1000 * 2^n) 30000] ms and announces it; that delay grows
    strictly with [n] as long as it is below the cap; when the counter
    reaches the maximum the handler calls the callback with the one terminal
    error and starts no timer. Counted from a connection that had opened,
    ten unexpected closes in a row thus give nine reconnects followed by a
    single terminal error. *)
Theorem reconnect_backoff (st : State) (n : nat) :
  n = S (reconnectAttempts st) ->
  let delay (i : nat) : Z := Z.min (1000 * 2 ^ Z.of_nat i) 30000 in
  exists s' l,
    onclose false st = mkRes s' l (Ok tt) /\
    reconnectAttempts s' = n /\
    ((n < maxAttempts)%nat ->
       callbacks l = [EvReconnect (delay n)] /\ timeouts l = [delay n]) /\
    ((delay n < 30000)%Z -> (delay n < delay (S n))%Z) /\
    (n = maxAttempts ->
       callbacks l = [EvErrorMaxAttempts] /\ timeouts l = []) /\
    (n = 1%nat ->
       let run := unexpected_closes maxAttempts st in
       callbacks (r_log run) =
         map (fun i => EvReconnect (delay i)) (seq 1 9) ++ [EvErrorMaxAttempts] /\
       timeouts (r_log run) = map delay (seq 1 9)).
Proof.
  intros Hn delay.
  destruct (onclose_unexpected st) as (s' & l & Hrun & Hatt & Hcb & Hto).
  exists s', l. rewrite <- Hn in *.
  split; [done|]. split; [done|]. split; [|split; [|split]].
  - intros Hlt. apply Nat.ltb_lt in Hlt. rewrite Hlt in Hcb, Hto. done.
  - subst delay. cbv beta. intros Hcap.
    assert (H1 : (1000 * 2 ^ Z.of_nat n < 30000)%Z) by lia.
    rewrite (Z.min_l _ _ (Z.lt_le_incl _ _ H1)).
    assert (H2 : (2 ^ Z.of_nat (S n) = 2 * 2 ^ Z.of_nat n)%Z).
    { rewrite Nat2Z.inj_succ. apply Z.pow_succ_r. lia. }
    assert (H3 : (0 < 2 ^ Z.of_nat n)%Z) by (apply Z.pow_pos_nonneg; lia).
    rewrite H2. lia.
  - intros ->. unfold maxAttempts in Hcb, Hto. done.
  - intros ->. injection Hn as Hn.
    destruct (unexpected_closes_log maxAttempts st) as (s2 & l2 & Hrun2 & _ & Hcb2 & Hto2).
    rewrite Hrun2. simpl r_log. rewrite Hcb2, Hto2, <- Hn. done.
Qed.

(** C2 on the sample session: the first unexpected close of an open
    connection. *)
Lemma reconnect_backoff_witness :
  exists s' l,
    onclose false connected = mkRes s' l (Ok tt) /\
    reconnectAttempts s' = 1%nat /\
    ((1 < maxAttempts)%nat ->
       callbacks l = [EvReconnect 2000] /\ timeouts l = [2000%Z]) /\
    ((2000 < 30000)%Z -> (2000 < 4000)%Z) /\
    (1%nat = maxAttempts ->
       callbacks l = [EvErrorMaxAttempts] /\ timeouts l = []) /\
    (1%nat = 1%nat ->
       let run := unexpected_closes maxAttempts connected in
       callbacks (r_log run) =
         map (fun i => EvReconnect (Z.min (1000 * 2 ^ Z.of_nat i) 30000)) (seq 1 9)
           ++ [EvErrorMaxAttempts] /\
       timeouts (r_log run) =
         map (fun i => Z.min (1000 * 2 ^ Z.of_nat i) 30000) (seq 1 9)).
Proof.
  apply (reconnect_backoff connected 1). reflexivity.
Defined.

Section Properties.

Variable UserId : string -> bool.
Variable decode : string -> option json.
Variable extractFormData : json -> json.

(** ** Malformed frames *)

(** C8. A frame whose payload does not decode is dropped: the handler
    returns normally, the callback is not called (the log is empty) and the
    state is the one it started with. *)
Theorem onmessage_undecodable_dropped (raw : string) (st : State) :
  decode raw = None ->
  onmessage decode raw st = mkRes st [] (Ok tt).
Proof.
  intros Hraw. unfold onmessage. by rewrite Hraw.
Qed.

(** ** Addressing of postRealtime *)

Lemma joined_room_Some (st : State) (r : string) :
  joined_room st = Some r <-> __socket_room st = Some r /\ r <> EmptyString.
Proof.
  unfold joined_room, falsy_str.
  destruct (__socket_room st) as [room|]; [|split; [done|by intros [? ?]]].
  case_bool_decide as Hroom.
  - subst room. split; [done|]. intros [Heq Hne]. by injection Heq as <-.
  - split.
    + intros Heq. injection Heq as <-. done.
    + by intros [? ?].
Qed.

(** C4. On an open connection [postRealtime] never changes the state and
    sends at most one frame: [sendMessage] with the recipient in [uid] when
    the recipient is a valid user id; [broadcast] with the recipient in
    [rid] and the same content when it is not a valid user id but is the
    joined room; and when it is neither, the call throws and no frame is
    sent. The validator is taken to reject the empty string. *)
Theorem postRealtime_addressing (st : State) (message : json) (recipient : string) :
  __socket st = Resolved OPEN ->
  UserId EmptyString = false ->
  let r := postRealtime UserId extractFormData message recipient st in
  let content := CMessage (extractFormData message) in
  r_st r = st /\
  (UserId recipient = true ->
     r_log r = [Send (mkFrame sendMessage (Uid (Some recipient)) content)] /\
     r_out r = Ok tt) /\
  (UserId recipient = false -> joined_room st = Some recipient ->
     r_log r = [Send (mkFrame broadcast (Rid (Some recipient)) content)] /\
     r_out r = Ok tt) /\
  (UserId recipient = false -> joined_room st <> Some recipient ->
     r_log r = [] /\ exists e, r_out r = Throw e).
Proof.
  intros Hsock Hempty r content. subst r content.
  unfold postRealtime, await_socket, try_catch. mrun. rewrite Hsock. simpl.
  case_bool_decide as Hrec.
  - subst recipient. simpl. rewrite Hempty.
    split; [done|]. split; [done|]. split.
    + intros _ Hroom. apply joined_room_Some in Hroom. by destruct Hroom as [_ ?].
    + eauto.
  - simpl. destruct (UserId recipient) eqn:Hid; simpl.
    + repeat split; done.
    + case_bool_decide as Hroom; simpl.
      * split; [done|]. split; [done|]. split; [done|].
        intros _ Hne. exfalso. apply Hne. by apply joined_room_Some.
      * split; [done|]. split; [done|]. split.
        -- intros _ Hj. apply joined_room_Some in Hj. by destruct Hj as [? _].
        -- eauto.
Qed.

End Properties.

(** C8 on the sample wire: a malformed escape sequence. *)
Lemma onmessage_undecodable_dropped_witness :
  onmessage sample_decode "%E0%A4%A" in_lobby = mkRes in_lobby [] (Ok tt).
Proof.
  apply (onmessage_undecodable_dropped sample_decode "%E0%A4%A" in_lobby).
  reflexivity.
Defined.

(** C4 on the sample session: a message to the joined room "lobby". *)
Lemma postRealtime_addressing_witness :
  let r := postRealtime sample_UserId sample_extract (JStr "hi") "lobby" in_lobby in
  let content := CMessage (sample_extract (JStr "hi")) in
  r_st r = in_lobby /\
  (sample_UserId "lobby" = true ->
     r_log r = [Send (mkFrame sendMessage (Uid (Some "lobby")) content)] /\
     r_out r = Ok tt) /\
  (sample_UserId "lobby" = false -> joined_room in_lobby = Some "lobby" ->
     r_log r = [Send (mkFrame broadcast (Rid (Some "lobby")) content)] /\
     r_out r = Ok tt) /\
  (sample_UserId "lobby" = false -> joined_room in_lobby <> Some "lobby" ->
     r_log r = [] /\ exists e, r_out r = Throw e).
Proof.
  apply (postRealtime_addressing sample_UserId sample_extract in_lobby (JStr "hi") "lobby").
  - reflexivity.
  - reflexivity.
Defined.

(** ** Call signaling *)

Lemma for_each_emit {A : Type} (f : A -> Effect) (l : list A) (s : State) :
  for_each l (fun x => emit (f x)) s = mkRes s (map f l) (Ok tt).
Proof.
  induction l as [|x l IH]; [reflexivity|].
  simpl. rewrite bind_emit, IH. reflexivity.
Qed.

Lemma media_guard_allowed (m : MediaParam) (s : State) :
  media_allowed s m = true -> media_guard m s = mkRes s [] (Ok tt).
Proof.
  destruct m as [|tracks|video audio]; try reflexivity.
  unfold media_allowed, media_guard. mrun.
  by destruct ((video || audio) && negb (secure_context s)).
Qed.

Lemma media_guard_pure (m : MediaParam) (s : State) :
  exists out, media_guard m s = mkRes s [] out.
Proof.
  destruct m as [|tracks|video audio]; try (by eexists).
  unfold media_guard. mrun.
  destruct ((video || audio) && negb (secure_context s)); by eexists.
Qed.

(** ** Data channels of an outbound call *)

Lemma created_channels_app (peer : string) (l1 l2 : list Effect) :
  created_channels peer (l1 ++ l2) =
  created_channels peer l1 ++ created_channels peer l2.
Proof. apply omap_app. Qed.

Lemma created_channels_create (peer : string) (labels : list string) :
  created_channels peer (map (CreateDataChannel peer) labels) = labels.
Proof.
  induction labels as [|x labels IH]; [reflexivity|].
  simpl. unfold created_channels in *. simpl.
  rewrite bool_decide_eq_true_2 by reflexivity. simpl. by rewrite IH.
Qed.

Lemma created_channels_tracks (peer p : string) (tracks : list string) :
  created_channels peer (map (AddTrack p) tracks) = [].
Proof. by induction tracks. Qed.

Lemma has_label_spec (label : string) (channels : list (string * ChanState)) :
  existsb (fun ch => bool_decide (fst ch = label)) channels = true <->
  label ∈ map fst channels.
Proof.
  induction channels as [|[x c] channels IH]; simpl.
  - split; [done|]. intros H. by apply elem_of_nil in H.
  - rewrite orb_true_iff, IH, elem_of_cons, bool_decide_eq_true.
    split; (intros [H | H]; [by left|by right]).
Qed.



Section DataChannels.

Variable UserId : string -> bool.



(** The loop over [dataChannelOptions]: with labels that are pairwise
    distinct and new to the peer it creates one channel per label, in
    order; otherwise it throws at the first label that is taken. *)
Lemma create_channels_run (recipient : string) (opts : list DataChannelOption) :
  forall (s : State) (channels : list (string * ChanState)),
    __dataChannel s !! recipient = Some channels ->
    let labels := map protocol_of opts in
    exists s' l out,
      for_each opts (create_channel recipient) s = mkRes s' l out /\
      (NoDup labels -> (forall x, x ∈ labels -> x ∉ map fst channels) ->
         out = Ok tt /\ l = map (CreateDataChannel recipient) labels /\
         __dataChannel s' !! recipient =
           Some (channels ++ map (fun x => (x, chan_connecting)) labels)) /\
      (~ NoDup labels \/ (exists x, x ∈ labels /\ x ∈ map fst channels) ->
         exists x, x ∈ labels /\ out = Throw (DuplicateDataChannel x)).
Proof.
  induction opts as [|o opts IH]; intros s channels Hch labels; subst labels.
  - exists s, [], (Ok tt). split; [reflexivity|]. split.
    + intros _ _. simpl. by rewrite app_nil_r.
    + intros [Hdup | (x & Hx & _)].
      * exfalso. apply Hdup. constructor.
      * by apply elem_of_nil in Hx.
  - simpl for_each. simpl map. unfold create_channel at 1.
    rewrite bind_assoc, bind_read. rewrite Hch. simpl default.
    destruct (existsb (fun ch => bool_decide (fst ch = protocol_of o)) channels) eqn:Hhas.
    + apply has_label_spec in Hhas.
      rewrite bind_throw. eexists _, _, _. split; [reflexivity|]. split.
      * intros _ Hfresh. exfalso. apply (Hfresh (protocol_of o)); [left|done].
      * intros _. exists (protocol_of o). split; [left|reflexivity].
    + assert (Hnew : protocol_of o ∉ map fst channels).
      { intros Hin. apply has_label_spec in Hin. congruence. }
      rewrite !bind_assoc, bind_emit, bind_modify.
      set (s1 := set_dataChannel _ s).
      assert (Hch1 : __dataChannel s1 !! recipient
                     = Some (channels ++ [(protocol_of o, chan_connecting)])).
      { subst s1. simpl. apply lookup_insert_eq. }
      destruct (IH s1 _ Hch1) as (s' & l & out & Hrun & Hgood & Hbad).
      rewrite Hrun. simpl after. eexists _, _, _. split; [reflexivity|]. split.
      * intros Hnd Hfresh. apply NoDup_cons in Hnd as [Hhead Hnd].
        destruct Hgood as (-> & -> & Hfinal); [done| |].
        { intros x Hx. rewrite map_app, elem_of_app. simpl.
          intros [Hin | Hin].
          - apply (Hfresh x); [by right|done].
          - apply list_elem_of_singleton in Hin. by subst x. }
        split; [reflexivity|]. split; [reflexivity|].
        rewrite Hfinal. by rewrite <- app_assoc.
      * intros Hcase.
        assert (Hrest : ~ NoDup (map protocol_of opts) \/
                        (exists x, x ∈ map protocol_of opts /\
                           x ∈ map fst (channels ++ [(protocol_of o, chan_connecting)]))).
        { destruct (decide (protocol_of o ∈ map protocol_of opts)) as [Hin | Hnin].
          - right. exists (protocol_of o). split; [done|].
            rewrite map_app, elem_of_app. right. simpl. left.
          - destruct Hcase as [Hdup | (x & Hx & Hxin)].
            + left. intros Hnd. apply Hdup. by apply NoDup_cons.
            + right. exists x. apply elem_of_cons in Hx as [-> | Hx]; [done|].
              split; [done|]. rewrite map_app, elem_of_app. by left. }
        destruct (Hbad Hrest) as (x & Hx & ->).
        exists x. split; [by right|reflexivity].
Qed.





End DataChannels.


(** ** Teardown *)

Lemma close_channels_run (k : string) (channels : list (string * ChanState)) (s : State) :
  for_each channels
    (fun ch => when (negb (is_closed (snd ch))) (emit (ChannelClose k (fst ch)))) s
  = mkRes s (map (ChannelClose k) (open_labels channels)) (Ok tt).
Proof.
  induction channels as [|[label c] channels IH]; [reflexivity|].
  simpl for_each. unfold open_labels in *. simpl.
  destruct (is_closed c); simpl.
  - by rewrite bind_ret, IH.
  - by rewrite bind_emit, IH.
Qed.

(** [closeRTC] for a peer that has a connection and a registered
    callback. *)
Lemma closeRTC_run (st : State) (peer : string) (pc : PeerConnection) :
  peer <> EmptyString ->
  __peerConnection st !! peer = Some pc ->
  peer ∈ peerCallbacks st ->
  closeRTC (Some peer) st =
  mkRes
    (set_peerConnection (delete peer (__peerConnection st))
       (set_dataChannel (delete peer (__dataChannel st))
          (set_rtcCandidates (delete peer (__rtcCandidates st))
             (set_rtcSdpOffer (delete peer (__rtcSdpOffer st)) st))))
    (map (ChannelClose peer) (open_labels (default [] (__dataChannel st !! peer)))
       ++ (if conn_is_closed (connectionState pc) then [] else [PeerClose peer])
       ++ [PeerCb peer (RtcConnectionStateChange conn_closed)])
    (Ok tt).
Proof.
  intros Hne Hpc Hcb. unfold closeRTC. cbv zeta. simpl key.
  repeat mstep. unfold falsy_str.
  rewrite bool_decide_eq_false_2 by done.
  mstep. simpl __dataChannel.
  rewrite (bind_ok _ _ _ _ _ _ (close_channels_run _ _ _)).
  repeat mstep. simpl __peerConnection. rewrite Hpc.
  unfold when. destruct (conn_is_closed (connectionState pc)); simpl negb; cbv iota;
    repeat mstep; simpl peerCallbacks;
    rewrite bool_decide_eq_true_2 by done;
    repeat mstep; unfold modify; simpl; reflexivity.
Qed.


Section Teardown.

Variable decode : string -> option json.


End Teardown.



(** ** Rejecting a call *)

Lemma get_string_nonempty (j : json) (k s : string) :
  get_string j k = Some s -> s <> EmptyString.
Proof.
  unfold get_string, get_truthy. destruct (get j k) as [v|]; [|done].
  destruct (truthy v) eqn:Ht; [|done]. destruct v; try done.
  intros [= ->]. simpl in Ht. by case_bool_decide.
Qed.

Lemma callbacks_teardown (peer : string) (labels : list string) (closed : bool) :
  callbacks (map (ChannelClose peer) labels
               ++ (if closed then [] else [PeerClose peer])
               ++ [PeerCb peer (RtcConnectionStateChange conn_closed)]) = [].
Proof.
  rewrite !callbacks_app.
  assert (Hch : callbacks (map (ChannelClose peer) labels) = []) by (by induction labels).
  rewrite Hch. by destruct closed.
Qed.

Section Signaling.

Variable UserId : string -> bool.
Variable decode : string -> option json.

(** The function an inbound offer carries, called with [reject: true]. *)
Lemma receiveRTC_reject (receiver : State) (h : RTCreceiver) (params : ReceiveParams) :
  rp_reject params = true ->
  receiveRTC h params receiver =
  if media_allowed receiver (rp_mediaStream params)
  then match __socket receiver with
       | NoSocket => mkRes receiver [] (Throw NoRealtimeConnection)
       | Connecting => mkRes receiver [] Blocked
       | Resolved _ =>
           mkRes receiver [Send (mkFrame rtc (Uid (h_sender h)) CReject)] (Ok tt)
       end
  else mkRes receiver [] (Throw MediaNotSecure).
Proof.
  intros Hrej. unfold receiveRTC, await_socket.
  destruct (media_allowed receiver (rp_mediaStream params)) eqn:Hmedia.
  - rewrite (bind_ok _ _ _ _ _ _ (media_guard_allowed _ _ Hmedia)).
    mrun. rewrite Hrej. by destruct (__socket receiver).
  - destruct (rp_mediaStream params) as [|tracks|video audio]; try discriminate.
    unfold media_allowed in Hmedia. apply negb_false_iff in Hmedia.
    unfold media_guard. mrun. by rewrite Hmedia.
Qed.

(** A reject frame of another user who has a peer connection is handled by
    [closeRTC] for that user and nothing else. *)
Lemma onmessage_reject (caller : State) (raw : string) (data : json) (from : string) :
  decode raw = Some data ->
  type (make_msg data) = Trtc ->
  sender (make_msg data) = Some from ->
  has_truthy (message (make_msg data)) "reject" = true ->
  from <> user_id caller ->
  is_Some (__peerConnection caller !! from) ->
  onmessage decode raw caller = closeRTC (Some from) caller.
Proof.
  intros Hraw Htype Hfrom Hreject Hme [pc Hpc].
  unfold onmessage. rewrite Hraw. cbv zeta. rewrite Htype.
  rewrite bind_ret. unfold rtc_signal.
  rewrite bind_assoc, bind_read, Hfrom.
  rewrite bool_decide_eq_false_2 by congruence.
  unfold has_truthy in Hreject.
  destruct (get_truthy (message (make_msg data)) "reject") as [v|]; [|done].
  rewrite !bind_assoc, bind_read. simpl key. rewrite Hpc.
  rewrite bind_assoc.
  unfold bind. destruct (closeRTC (Some from) caller) as [s1 l1 [[]|e|]]; simpl;
    by rewrite ?app_nil_r.
Qed.

(** C6, amended. Called with [reject: true], the function an inbound
    offer carries leaves the module state as it is and sets up neither a
    peer connection nor a data channel. With a connection at hand and the
    page check passed it sends the one reject frame to the sender and
    returns; without a connection, or when it is given media constraints on
    a page that does not pass the check, it throws and sends nothing; while
    the connection is still being set up it waits. On the caller's side a
    reject frame of another user, arriving while that user has a peer
    connection and a registered callback, is handled by the teardown that
    hangup runs and by nothing else: every data channel of the user that is
    not closed is closed, then the peer connection, the callback of the
    user gets the final connection state once, the buffered offers and
    candidates, the data-channel map and the peer-connection entry of the
    user are gone, and the realtime callback is not called. *)
Theorem rejected_call (receiver caller : State) (h : RTCreceiver)
    (params : ReceiveParams) (raw : string) (data : json) (from : string)
    (pc : PeerConnection) :
  rp_reject params = true ->
  decode raw = Some data ->
  type (make_msg data) = Trtc ->
  sender (make_msg data) = Some from ->
  has_truthy (message (make_msg data)) "reject" = true ->
  from <> user_id caller ->
  __peerConnection caller !! from = Some pc ->
  from ∈ peerCallbacks caller ->
  let r := receiveRTC h params receiver in
  let torn := onmessage decode raw caller in
  r_st r = receiver /\
  sets_up_call (r_log r) = false /\
  (media_allowed receiver (rp_mediaStream params) = true ->
   forall rs, __socket receiver = Resolved rs ->
   r_log r = [Send (mkFrame rtc (Uid (h_sender h)) CReject)] /\ r_out r = Ok tt) /\
  (media_allowed receiver (rp_mediaStream params) = true ->
   __socket receiver = NoSocket ->
   r_log r = [] /\ r_out r = Throw NoRealtimeConnection) /\
  (media_allowed receiver (rp_mediaStream params) = true ->
   __socket receiver = Connecting ->
   r_log r = [] /\ r_out r = Blocked) /\
  (media_allowed receiver (rp_mediaStream params) = false ->
   r_log r = [] /\ r_out r = Throw MediaNotSecure) /\
  torn = closeRTC (Some from) caller /\
  r_out torn = Ok tt /\
  r_log torn =
    map (ChannelClose from) (open_labels (default [] (__dataChannel caller !! from)))
      ++ (if conn_is_closed (connectionState pc) then [] else [PeerClose from])
      ++ [PeerCb from (RtcConnectionStateChange conn_closed)] /\
  callbacks (r_log torn) = [] /\
  __rtcSdpOffer (r_st torn) !! from = None /\
  __rtcCandidates (r_st torn) !! from = None /\
  __dataChannel (r_st torn) !! from = None /\
  __peerConnection (r_st torn) !! from = None.
Proof.
  intros Hrej Hraw Htype Hfrom Hreject Hme Hpc Hcb r torn. subst r torn.
  assert (Hne : from <> EmptyString) by (by apply (get_string_nonempty data "#user_id")).
  rewrite (receiveRTC_reject receiver h params Hrej).
  rewrite (onmessage_reject caller raw data from Hraw Htype Hfrom Hreject Hme)
    by (by eexists).
  rewrite (closeRTC_run caller from pc Hne Hpc Hcb).
  split; [|split; [|split; [|split; [|split; [|split]]]]].
  - by destruct (media_allowed _ _), (__socket receiver).
  - by destruct (media_allowed _ _), (__socket receiver).
  - intros -> rs ->. done.
  - intros -> ->. done.
  - intros -> ->. done.
  - intros ->. done.
  - cbn [r_out r_log r_st].
    split; [reflexivity|]. split; [reflexivity|]. split; [reflexivity|].
    split; [apply callbacks_teardown|].
    split; [apply lookup_delete_eq|]. split; [apply lookup_delete_eq|].
    split; [apply lookup_delete_eq|]. apply lookup_delete_eq.
Qed.

End Signaling.

(** C6 on the sample session: "u-1" rejects the call of "u-2"; and
    "u-1", having called "u-2" with two data channels, receives the reject
    of "u-2". *)
Lemma rejected_call_witness :
  let caller := r_st (connectRTC sample_UserId call_params connected) in
  let r := receiveRTC first_offer_handle reject_params connected in
  let torn := onmessage sample_decode "reject" caller in
  r_st r = connected /\
  sets_up_call (r_log r) = false /\
  (media_allowed connected (rp_mediaStream reject_params) = true ->
   forall rs, __socket connected = Resolved rs ->
   r_log r = [Send (mkFrame rtc (Uid (h_sender first_offer_handle)) CReject)] /\
   r_out r = Ok tt) /\
  (media_allowed connected (rp_mediaStream reject_params) = true ->
   __socket connected = NoSocket ->
   r_log r = [] /\ r_out r = Throw NoRealtimeConnection) /\
  (media_allowed connected (rp_mediaStream reject_params) = true ->
   __socket connected = Connecting ->
   r_log r = [] /\ r_out r = Blocked) /\
  (media_allowed connected (rp_mediaStream reject_params) = false ->
   r_log r = [] /\ r_out r = Throw MediaNotSecure) /\
  torn = closeRTC (Some "u-2") caller /\
  r_out torn = Ok tt /\
  r_log torn =
    map (ChannelClose "u-2") (open_labels (default [] (__dataChannel caller !! "u-2")))
      ++ (if conn_is_closed (connectionState (mkPeer conn_new)) then []
          else [PeerClose "u-2"])
      ++ [PeerCb "u-2" (RtcConnectionStateChange conn_closed)] /\
  callbacks (r_log torn) = [] /\
  __rtcSdpOffer (r_st torn) !! "u-2" = None /\
  __rtcCandidates (r_st torn) !! "u-2" = None /\
  __dataChannel (r_st torn) !! "u-2" = None /\
  __peerConnection (r_st torn) !! "u-2" = None.
Proof.
  apply (rejected_call sample_decode connected
           (r_st (connectRTC sample_UserId call_params connected))
           first_offer_handle reject_params "reject"
           (rtc_frame "u-2" "reject" (JBool true)) "u-2" (mkPeer conn_new)).
  - reflexivity.
  - reflexivity.
  - reflexivity.
  - reflexivity.
  - reflexivity.
  - discriminate.
  - vm_compute. reflexivity.
  - apply (bool_decide_unpack _). vm_compute. exact I.
Defined.

(** C6 as stated fails on the sample session. The function that came
    with the offer of "u-2" is called with [reject: true] after "u-1" has
    closed the realtime connection: it throws and no reject frame is sent.
    The same happens on a page that is not secure when the call passes
    media constraints along with [reject: true]. On the caller's side,
    "u-1" is still marked as ringing "u-2" after the reject of "u-2" has
    been handled. *)
Lemma reject_without_connection_sends_nothing :
  let ringing := onmessage sample_decode "offer-1" connected in
  let closed := r_st (closeRealtime (r_st ringing)) in
  let r1 := receiveRTC first_offer_handle reject_params closed in
  let r2 := receiveRTC first_offer_handle
              (mkReceiveParams None true (MediaConstraints true false))
              (set_socket (Resolved OPEN) (initial "u-1" false)) in
  let caller := r_st (connectRTC sample_UserId call_params connected) in
  handles (r_log ringing) = [Some first_offer_handle] /\
  r_out r1 = Throw NoRealtimeConnection /\ sent (r_log r1) = [] /\
  r_out r2 = Throw MediaNotSecure /\ sent (r_log r2) = [] /\
  "u-2" ∈ __caller_ringing (r_st (onmessage sample_decode "reject" caller)).
Proof.
  cbv zeta. split; [|split; [|split; [|split; [|split]]]].
  - vm_compute. reflexivity.
  - vm_compute. reflexivity.
  - vm_compute. reflexivity.
  - vm_compute. reflexivity.
  - vm_compute. reflexivity.
  - apply (bool_decide_unpack _). vm_compute. exact I.
Qed.

(** ** The presence tracker *)

Lemma filter_all_ne (c : cid) (l : list cid) :
  c ∉ l -> filter (fun v => v ≠ c) l = l.
Proof.
  induction l as [|x l IH]; [done|].
  intros Hnin. apply not_elem_of_cons in Hnin as [Hne Hnin].
  rewrite filter_cons_True by done. by rewrite IH.
Qed.

(** On a map without empty entries the handler's update of the map is the
    replay step of the specification. *)
Lemma code_update_spec (group : string)
    (m : gmap string (gmap string (list cid))) (n : Notice) :
  no_empty_entry m -> code_update group m n = spec_replay group m n.
Proof.
  intros Hwf. destruct n as [user c | user c]; simpl.
  - unfold join_update, connections, set_connections.
    destruct (m !! group) as [users|] eqn:Hg; simpl.
    + rewrite Hg. simpl. destruct (users !! user) as [cids|] eqn:Hu; simpl.
      * case_bool_decide; [done|]. by destruct cids.
      * done.
    + rewrite lookup_insert_eq. simpl. rewrite lookup_empty.
      rewrite ?bool_decide_eq_false_2 by (apply not_elem_of_nil).
      simpl. by rewrite insert_insert_eq.
  - unfold leave_update, connections, set_connections.
    destruct (m !! group) as [users|] eqn:Hg; simpl.
    + destruct (users !! user) as [cids|] eqn:Hu; simpl.
      * rewrite lookup_insert_eq, lookup_insert_eq.
        case_bool_decide as Hin.
        -- destruct (filter (fun v => v ≠ c) cids) eqn:Hf.
           ++ by rewrite insert_insert_eq, delete_insert_eq.
           ++ done.
        -- rewrite (filter_all_ne _ _ Hin).
           assert (Hne : cids <> []) by (eapply Hwf; eauto).
           destruct cids as [|x cids]; [done|].
           by rewrite (insert_id users), (insert_id m).
      * rewrite ?Hg, ?Hu.
        by rewrite ?bool_decide_eq_false_2 by (apply not_elem_of_nil).
    + rewrite ?Hg. by rewrite ?bool_decide_eq_false_2 by (apply not_elem_of_nil).
Qed.

Lemma set_connections_no_empty (m : gmap string (gmap string (list cid)))
    (group user : string) (l : list cid) :
  no_empty_entry m -> no_empty_entry (set_connections m group user l).
Proof.
  intros Hwf g users u l' Hg Hu. unfold set_connections in Hg.
  destruct (decide (group = g)) as [<- | Hne].
  - rewrite lookup_insert_eq in Hg. injection Hg as <-.
    destruct l as [|x l].
    + destruct (decide (user = u)) as [<- | Hneu].
      * by rewrite lookup_delete_eq in Hu.
      * rewrite lookup_delete_ne in Hu by done.
        destruct (m !! group) as [users0|] eqn:Hg0; simpl in Hu.
        -- eapply Hwf; eauto.
        -- by rewrite lookup_empty in Hu.
    + destruct (decide (user = u)) as [<- | Hneu].
      * rewrite lookup_insert_eq in Hu. by injection Hu as <-.
      * rewrite lookup_insert_ne in Hu by done.
        destruct (m !! group) as [users0|] eqn:Hg0; simpl in Hu.
        -- eapply Hwf; eauto.
        -- by rewrite lookup_empty in Hu.
  - rewrite lookup_insert_ne in Hg by done. eapply Hwf; eauto.
Qed.

Lemma spec_replay_no_empty (group : string)
    (m : gmap string (gmap string (list cid))) (n : Notice) :
  no_empty_entry m -> no_empty_entry (spec_replay group m n).
Proof.
  intros Hwf. destruct n as [user c | user c]; simpl;
    case_bool_decide; auto using set_connections_no_empty.
Qed.

Lemma no_empty_entry_empty : no_empty_entry ∅.
Proof. intros g users u l Hg. by rewrite lookup_empty in Hg. Qed.

Lemma fold_code_update_spec (group : string) (notices : list Notice) :
  forall m, no_empty_entry m ->
    fold_left (code_update group) notices m = fold_left (spec_replay group) notices m /\
    no_empty_entry (fold_left (spec_replay group) notices m).
Proof.
  induction notices as [|n notices IH]; intros m Hwf; [done|].
  simpl. rewrite (code_update_spec _ _ _ Hwf).
  apply IH. by apply spec_replay_no_empty.
Qed.

(** The handler keeps the map free of empty entries, and so does the merge
    of a query response. *)
Lemma code_update_no_empty (group : string)
    (m : gmap string (gmap string (list cid))) (n : Notice) :
  no_empty_entry m -> no_empty_entry (code_update group m n).
Proof.
  intros Hwf. rewrite (code_update_spec _ _ _ Hwf).
  by apply spec_replay_no_empty.
Qed.

Lemma merge_entry_no_empty (group : string)
    (m : gmap string (gmap string (list cid))) (entry : string * string) :
  no_empty_entry m -> no_empty_entry (merge_entry group m entry).
Proof.
  apply (code_update_no_empty group m (Joined (fst entry) (Some (snd entry)))).
Qed.

Lemma notice_of_inv (data : json) (n : Notice) :
  notice_of data = Some n ->
  exists text leave,
    type (make_msg data) = Tnotice /\
    message (make_msg data) = JStr text /\
    n = notice_as leave (make_msg data) /\
    (str_includes text "has left the message group."
       || str_includes text "has been disconnected.") = leave /\
    (leave = false -> str_includes text "has joined the message group." = true).
Proof.
  unfold notice_of. cbv zeta.
  destruct (type (make_msg data)); try done.
  destruct (message (make_msg data)) as [| | |text| |]; try done.
  destruct (str_includes text "has left the message group."
            || str_includes text "has been disconnected.") eqn:Hleave.
  - intros [= <-]. exists text, true. by repeat split.
  - destruct (str_includes text "has joined the message group.") eqn:Hjoin; [|done].
    intros [= <-]. exists text, false. by repeat split.
Qed.

(** The membership branch of the handler from after its [await]. *)
Lemma notice_body_run (leave : bool) (msg : Msg) (group : string) (s : State) :
  __socket_room s = Some group ->
  (if leave then notice_leave msg else notice_join msg) s =
  mkRes (set_roomList (code_update group (__roomList s) (notice_as leave msg)) s) []
        (Ok (negb (returns_early group (__roomList s) (notice_as leave msg)))).
Proof.
  intros Hroom. destruct leave; simpl.
  - unfold notice_leave. repeat mstep. rewrite Hroom. reflexivity.
  - unfold notice_join. repeat mstep. rewrite Hroom. reflexivity.
Qed.

Lemma notice_branch_text (room : option string) (group text : string) :
  room = Some group -> group <> EmptyString ->
  notice_branch room (JStr text) =
  ret (if str_includes text "has left the message group."
          || str_includes text "has been disconnected."
       then Some true
       else if str_includes text "has joined the message group."
       then Some false else None).
Proof.
  intros -> Hne. unfold notice_branch, falsy_str.
  by rewrite bool_decide_eq_false_2 by done.
Qed.

Section Presence.

Variable decode : string -> option json.

(** A membership notice for the joined room, no query pending: the map is
    updated, and the frame reaches the callback unless the handler returns
    early. *)
Lemma onmessage_notice (raw : string) (data : json) (n : Notice)
    (group : string) (s : State) :
  joined_room s = Some group ->
  __roomPending s !! group = None ->
  decode raw = Some data ->
  notice_of data = Some n ->
  onmessage decode raw s =
  mkRes (set_roomList (code_update group (__roomList s) n) s)
        (if returns_early group (__roomList s) n then []
         else [Cb (EvMsg (make_msg data))])
        (Ok tt).
Proof.
  intros Hroom Hpending Hraw Hn.
  apply joined_room_Some in Hroom as [Hroom Hne].
  destruct (notice_of_inv _ _ Hn) as (text & leave & Htype & Hmsg & -> & Hleave & Hjoin).
  unfold onmessage. rewrite Hraw. cbv zeta. rewrite Htype.
  unfold notice. repeat mstep. rewrite Hmsg.
  rewrite (notice_branch_text _ group text Hroom Hne), Hleave.
  repeat mstep. rewrite Hroom.
  destruct leave.
  - simpl key. repeat mstep. rewrite Hpending.
    rewrite (bind_ok _ _ _ _ _ _ (notice_body_run true _ _ _ Hroom)).
    destruct (returns_early group (__roomList s) (notice_as true (make_msg data)));
      reflexivity.
  - rewrite (Hjoin eq_refl). simpl key. repeat mstep. rewrite Hpending.
    rewrite (bind_ok _ _ _ _ _ _ (notice_body_run false _ _ _ Hroom)).
    destruct (returns_early group (__roomList s) (notice_as false (make_msg data)));
      reflexivity.
Qed.

(** The same notice while a query for the room is pending: the handler
    stops at its [await]; nothing is updated and nothing is delivered
    yet. *)
Lemma onmessage_notice_deferred (raw : string) (data : json) (n : Notice)
    (group : string) (p : nat) (s : State) :
  joined_room s = Some group ->
  __roomPending s !! group = Some p ->
  decode raw = Some data ->
  notice_of data = Some n ->
  exists leave,
    n = notice_as leave (make_msg data) /\
    onmessage decode raw s =
    mkRes (set_waiting (waiting s ++ [mkWaiter p leave (make_msg data)]) s) [] (Ok tt).
Proof.
  intros Hroom Hpending Hraw Hn.
  apply joined_room_Some in Hroom as [Hroom Hne].
  destruct (notice_of_inv _ _ Hn) as (text & leave & Htype & Hmsg & -> & Hleave & Hjoin).
  exists leave. split; [reflexivity|].
  unfold onmessage. rewrite Hraw. cbv zeta. rewrite Htype.
  unfold notice. repeat mstep. rewrite Hmsg.
  rewrite (notice_branch_text _ group text Hroom Hne), Hleave.
  repeat mstep. rewrite Hroom.
  destruct leave.
  - simpl key. repeat mstep. rewrite Hpending. repeat mstep. reflexivity.
  - rewrite (Hjoin eq_refl). simpl key. repeat mstep. rewrite Hpending.
    repeat mstep. reflexivity.
Qed.

Lemma deliver_immediate (group : string) (raws : list string) (notices : list Notice) :
  are_notices decode raws notices ->
  forall s,
    joined_room s = Some group ->
    __roomPending s !! group = None ->
    exists s' l,
      deliver decode raws s = mkRes s' l (Ok tt) /\
      __roomList s' = fold_left (code_update group) notices (__roomList s).
Proof.
  induction 1 as [|raw n raws notices (data & Hraw & Hn) _ IH]; intros s Hroom Hpending.
  - by exists s, [].
  - pose proof (onmessage_notice raw data n group s Hroom Hpending Hraw Hn) as Hrun.
    destruct (IH (set_roomList (code_update group (__roomList s) n) s) Hroom Hpending)
      as (s' & l & Hrest & Hlist).
    unfold deliver in *. simpl for_each.
    unfold bind at 1. unfold detached at 1. rewrite Hrun, Hrest. simpl.
    eexists _, _. split; [reflexivity|]. exact Hlist.
Qed.

Lemma set_waiting_id (s : State) : set_waiting (waiting s) s = s.
Proof. by destruct s. Qed.

Lemma deliver_deferred (group : string) (p : nat)
    (raws : list string) (notices : list Notice) :
  are_notices decode raws notices ->
  forall s,
    joined_room s = Some group ->
    __roomPending s !! group = Some p ->
    exists ws,
      deliver decode raws s = mkRes (set_waiting (waiting s ++ ws) s) [] (Ok tt) /\
      Forall2 (fun w n => w_promise w = p /\ notice_as (w_leave w) (w_msg w) = n)
              ws notices.
Proof.
  induction 1 as [|raw n raws notices (data & Hraw & Hn) _ IH]; intros s Hroom Hpending.
  - exists []. split; [|constructor].
    unfold deliver. simpl. by rewrite app_nil_r, set_waiting_id.
  - destruct (onmessage_notice_deferred raw data n group p s Hroom Hpending Hraw Hn)
      as (leave & -> & Hrun).
    destruct (IH (set_waiting (waiting s ++ [mkWaiter p leave (make_msg data)]) s)
                 Hroom Hpending) as (ws & Hrest & Hws).
    exists (mkWaiter p leave (make_msg data) :: ws). split.
    + unfold deliver in *. simpl for_each.
      unfold bind at 1. unfold detached at 1. rewrite Hrun, Hrest. simpl.
      by rewrite <- app_assoc.
    + constructor; [done|exact Hws].
Qed.

End Presence.

(** A handler that was waiting goes on after its [await]. *)
Lemma resume_run (group : string) (w : Waiter) (s : State) :
  __socket_room s = Some group ->
  let n := notice_as (w_leave w) (w_msg w) in
  resume w s =
  mkRes (set_roomList (code_update group (__roomList s) n) s)
        (if returns_early group (__roomList s) n then []
         else [Cb (EvMsg (w_msg w))])
        (Ok tt).
Proof.
  intros Hroom n. unfold resume.
  rewrite (bind_ok _ _ _ _ _ _ (notice_body_run (w_leave w) (w_msg w) group s Hroom)).
  fold n. rewrite after_nil. unfold when.
  by destruct (returns_early group (__roomList s) n).
Qed.

(** The handlers waiting on a fulfilled query go on in the order they
    arrived. *)
Lemma resume_all (group : string) (ws : list Waiter) (notices : list Notice) (p : nat) :
  Forall2 (fun w n => w_promise w = p /\ notice_as (w_leave w) (w_msg w) = n)
          ws notices ->
  forall s,
    __socket_room s = Some group ->
    exists s' l,
      for_each ws (fun w => detached (resume w)) s = mkRes s' l (Ok tt) /\
      __roomList s' = fold_left (code_update group) notices (__roomList s).
Proof.
  induction 1 as [|w n ws notices [_ Hn] _ IH]; intros s Hroom.
  - by exists s, [].
  - destruct (IH (set_roomList (code_update group (__roomList s) n) s) Hroom)
      as (s' & l & Hrest & Hlist).
    simpl for_each. unfold bind at 1. unfold detached at 1.
    rewrite (resume_run group w s Hroom), Hn. cbv beta iota.
    rewrite Hrest. eexists _, _. split; [reflexivity|exact Hlist].
Qed.

Lemma filter_waiters_all (p : nat) (ws : list Waiter) (notices : list Notice) :
  Forall2 (fun w n => w_promise w = p /\ notice_as (w_leave w) (w_msg w) = n)
          ws notices ->
  filter (fun w => w_promise w = p) ws = ws.
Proof.
  induction 1 as [|w n ws notices [Hp _] _ IH]; [done|].
  rewrite filter_cons_True by done. by rewrite IH.
Qed.

Lemma merge_entries_as_joins (group : string) (entries : list (string * string))
    (m : gmap string (gmap string (list cid))) :
  fold_left (merge_entry group) entries m =
  fold_left (code_update group) (map (fun e => Joined (fst e) (Some (snd e))) entries) m.
Proof.
  revert m. induction entries as [|e entries IH]; intros m; [done|].
  simpl. apply IH.
Qed.

Lemma settle_fulfilled (group : string) (p : nat) (entries : list (string * string))
    (ws : list Waiter) (notices : list Notice) (s : State) :
  inflight s !! p = Some (group, None) ->
  __socket_room s = Some group ->
  waiting s = ws ->
  Forall2 (fun w n => w_promise w = p /\ notice_as (w_leave w) (w_msg w) = n)
          ws notices ->
  exists s' l,
    settle p (Fulfilled entries) s = mkRes s' l (Ok tt) /\
    __roomList s' =
      fold_left (code_update group) notices
        (fold_left (merge_entry group) entries (__roomList s)).
Proof.
  intros Hq Hroom Hws Hall. unfold settle.
  repeat mstep. rewrite Hq. cbv iota beta.
  repeat mstep. simpl falsy_str. unfold when. repeat mstep.
  simpl waiting. rewrite Hws.
  rewrite (filter_waiters_all p ws notices Hall).
  set (s4 := set_waiting _ _).
  destruct (resume_all group ws notices p Hall s4 Hroom) as (s' & l & Hrun & Hlist).
  rewrite Hrun. exists s', l. split; [reflexivity|].
  rewrite Hlist. reflexivity.
Qed.

Lemma tracked_user_spec (group user : string)
    (m : gmap string (gmap string (list cid))) :
  tracked_user group user m = true <->
  exists users, m !! group = Some users /\ is_Some (users !! user).
Proof.
  unfold tracked_user. destruct (m !! group) as [users|].
  - rewrite bool_decide_eq_true. split.
    + intros H. by exists users.
    + by intros (? & [= <-] & H).
  - split; [done|]. by intros (? & ? & _).
Qed.

Lemma tracked_after_leave (group user : string) (c : cid)
    (m : gmap string (gmap string (list cid))) :
  tracked_user group user (leave_update group user c m) = true <->
  connections (leave_update group user c m) group user <> [].
Proof.
  unfold leave_update, tracked_user, connections.
  destruct (m !! group) as [users|] eqn:Hg; simpl.
  - destruct (users !! user) as [cids|] eqn:Hu; simpl.
    + rewrite !lookup_insert_eq.
      destruct (filter (fun v => v ≠ c) cids) as [|x rest] eqn:Hf.
      * rewrite !lookup_insert_eq, lookup_delete_eq. simpl.
        split; [done|]. intros H. by destruct H.
      * rewrite !lookup_insert_eq. simpl. split; [done|].
        intros _. rewrite ?bool_decide_eq_true. done.
    + rewrite ?Hg, ?Hu. simpl. rewrite ?Hg, ?Hu. simpl.
      split; [done|]. intros H. by destruct H.
  - rewrite ?Hg. simpl. split; [done|]. intros H. by destruct H.
Qed.

Lemma roomList_set (v : gmap string (gmap string (list cid))) (s : State) :
  __roomList (set_roomList v s) = v.
Proof. reflexivity. Qed.

Section PresenceClaims.

Variable decode : string -> option json.

(** X30. With a room joined and no user tracked with an empty list, the
    membership map after a run of join/leave/disconnect notices is the
    replay of those notices in the order they arrived. This holds when no
    query for the room is pending, and also when one is: the notices then
    wait, the map stays as it is, and once the query is fulfilled the map is
    the replay of the response followed by the notices. A join for a tracked
    connection id and a leave or disconnect for an untracked one leave the
    map as it is. *)
Theorem presence_replay (st : State) (group : string)
    (raws : list string) (notices : list Notice) :
  joined_room st = Some group ->
  no_empty_entry (__roomList st) ->
  are_notices decode raws notices ->
  let m := __roomList st in
  (__roomPending st !! group = None ->
     __roomList (r_st (deliver decode raws st))
     = fold_left (spec_replay group) notices m) /\
  (forall p entries,
     __roomPending st !! group = Some p ->
     inflight st !! p = Some (group, None) ->
     waiting st = [] ->
     let held := r_st (deliver decode raws st) in
     __roomList held = m /\
     __roomList (r_st (settle p (Fulfilled entries) held))
     = fold_left (spec_replay group) (joins_of entries ++ notices) m) /\
  (__roomPending st !! group = None ->
   forall raw data user c,
     decode raw = Some data ->
     (notice_of data = Some (Joined user c) -> c ∈ connections m group user ->
        __roomList (r_st (onmessage decode raw st)) = m) /\
     (notice_of data = Some (Left user c) -> c ∉ connections m group user ->
        __roomList (r_st (onmessage decode raw st)) = m)).
Proof.
  intros Hroom Hwf Hall m. subst m. split; [|split].
  - intros Hpending.
    destruct (deliver_immediate decode group raws notices Hall st Hroom Hpending)
      as (s' & l & Hrun & Hlist).
    rewrite Hrun. simpl r_st. rewrite Hlist.
    apply (fold_code_update_spec group notices _ Hwf).
  - intros p entries Hpending Hq Hwaiting held. subst held.
    destruct (deliver_deferred decode group p raws notices Hall st Hroom Hpending)
      as (ws & -> & Hws).
    simpl r_st. split; [reflexivity|].
    rewrite Hwaiting in *. simpl app.
    apply joined_room_Some in Hroom as [Hroom _].
    destruct (settle_fulfilled group p entries ws notices (set_waiting ws st))
      as (s' & l & Hrun & Hlist); try done.
    rewrite Hrun. simpl r_st. rewrite Hlist. simpl __roomList.
    rewrite fold_left_app, merge_entries_as_joins. fold (joins_of entries).
    destruct (fold_code_update_spec group (joins_of entries) _ Hwf) as [-> Hwf'].
    apply (fold_code_update_spec group notices _ Hwf').
  - intros Hpending raw data user c Hraw. split.
    + intros Hn Hin.
      rewrite (onmessage_notice decode raw data _ group st Hroom Hpending Hraw Hn).
      unfold r_st. rewrite roomList_set, (code_update_spec _ _ _ Hwf).
      simpl. by rewrite bool_decide_eq_true_2.
    + intros Hn Hnin.
      rewrite (onmessage_notice decode raw data _ group st Hroom Hpending Hraw Hn).
      unfold r_st. rewrite roomList_set, (code_update_spec _ _ _ Hwf).
      simpl. by rewrite bool_decide_eq_false_2.
Qed.

End PresenceClaims.

Lemma lobby_tracked_no_empty : no_empty_entry lobby_tracked.
Proof.
  intros group users user l Hg Hu. unfold lobby_tracked in Hg.
  apply lookup_singleton_Some in Hg as [_ <-].
  apply lookup_singleton_Some in Hu as [_ <-]. done.
Qed.

(** X30 on the sample session: a second connection of "u-2" joins the
    lobby, then both of its connections go. *)
Lemma presence_replay_witness :
  __roomList (r_st (deliver sample_decode ["joined-c2"; "left-c1"; "left-c2"]
                      in_lobby_with_u2))
  = fold_left (spec_replay "lobby")
      [Joined "u-2" (Some "scid:c2"); Left "u-2" (Some "scid:c1");
       Left "u-2" (Some "scid:c2")]
      (__roomList in_lobby_with_u2).
Proof.
  apply (presence_replay sample_decode in_lobby_with_u2 "lobby"
           ["joined-c2"; "left-c1"; "left-c2"]
           [Joined "u-2" (Some "scid:c2"); Left "u-2" (Some "scid:c1");
            Left "u-2" (Some "scid:c2")]).
  - reflexivity.
  - exact lobby_tracked_no_empty.
  - repeat constructor; eexists; (split; [reflexivity|reflexivity]).
  - reflexivity.
Defined.

(** C5 fails on the sample session. "u-1" is in the room "lobby", where
    one connection of "u-2" is tracked, and has asked for the members of the
    room (promise 0). While the request is outstanding a second connection
    of "u-2" joins: the handler waits for the request. The request fails:
    the handler throws at its [await], so the join is neither applied nor
    passed on, and the map is not the replay of the notice that was
    received. *)
Theorem failed_query_drops_waiting_notice :
  let querying := r_st (getRealtimeUsers "lobby" None in_lobby_with_u2) in
  let held := r_st (onmessage sample_decode "joined-c2" querying) in
  let failed := settle 0 Rejected held in
  let replayed := fold_left (spec_replay "lobby") [Joined "u-2" (Some "scid:c2")]
                    lobby_tracked in
  are_notices sample_decode ["joined-c2"] [Joined "u-2" (Some "scid:c2")] /\
  length (waiting held) = 1%nat /\
  waiting (r_st failed) = [] /\
  callbacks (r_log failed) = [] /\
  __roomList (r_st failed) = lobby_tracked /\
  connections replayed "lobby" "u-2" = [Some "scid:c1"; Some "scid:c2"] /\
  __roomList (r_st failed) <> replayed.
Proof.
  cbv zeta. split; [|split; [|split; [|split; [|split; [|split]]]]].
  - repeat constructor. eexists. split; reflexivity.
  - vm_compute. reflexivity.
  - vm_compute. reflexivity.
  - vm_compute. reflexivity.
  - vm_compute. reflexivity.
  - vm_compute. reflexivity.
  - intros Heq.
    apply (f_equal (fun m => connections m "lobby" "u-2")) in Heq.
    vm_compute in Heq. discriminate.
Qed.

(** The order of receipt is lost in a second way, through the pending
    entry that a filtered query removes. A join of "u-2" waits for the
    outstanding request 0; a query filtered by user settles and takes the
    pending entry of the room with it; the leave of the same connection,
    arriving next, is handled at once, before the join it follows; request
    0 is fulfilled and the join is applied last. The connection that has
    left stays tracked. *)
Example leave_overtakes_waiting_join :
  let q0 := r_st (getRealtimeUsers "lobby" None in_lobby) in
  let join_held := r_st (onmessage sample_decode "joined-c2" q0) in
  let q1 := r_st (getRealtimeUsers "lobby" (Some "u-2") join_held) in
  let filtered_done := r_st (settle 1 (Fulfilled [("u-2", "scid:c1")]) q1) in
  let left_now := r_st (onmessage sample_decode "left-c2" filtered_done) in
  let final := r_st (settle 0 (Fulfilled [("u-2", "scid:c1")]) left_now) in
  let replayed := fold_left (spec_replay "lobby")
                    (joins_of [("u-2", "scid:c1")]
                       ++ [Joined "u-2" (Some "scid:c2"); Left "u-2" (Some "scid:c2")])
                    ∅ in
  length (waiting join_held) = 1%nat /\
  __roomPending filtered_done !! "lobby" = None /\
  connections (__roomList final) "lobby" "u-2" = [Some "scid:c1"; Some "scid:c2"] /\
  connections replayed "lobby" "u-2" = [Some "scid:c1"].
Proof.
  cbv zeta. split; [|split; [|split]]; vm_compute; reflexivity.
Qed.

(** C10 fails on the sample session. "u-1" is in the room "lobby", where
    nobody is tracked, and has asked for the members of the room (promise
    0). A join notice of "u-2" arrives: a notice of a user without a tracked
    entry, which goes to the callback after the map update when no request
    is outstanding. Here the handler waits for the request; the request
    fails, the handler throws at its [await], and the callback is never
    called with the notice, nor is the map updated. *)
Theorem failed_query_withholds_notice :
  let querying := r_st (getRealtimeUsers "lobby" None in_lobby) in
  let held := onmessage sample_decode "joined-c1" querying in
  let failed := settle 0 Rejected (r_st held) in
  let at_once := onmessage sample_decode "joined-c1" in_lobby in
  tracked_user "lobby" "u-2" (__roomList querying) = false /\
  callbacks (r_log at_once)
  = [EvMsg (make_msg (notice_frame "u-2" "c1" "u-2 has joined the message group."))] /\
  connections (__roomList (r_st at_once)) "lobby" "u-2" = [Some "scid:c1"] /\
  callbacks (r_log held) = [] /\
  callbacks (r_log failed) = [] /\
  waiting (r_st failed) = [] /\
  connections (__roomList (r_st failed)) "lobby" "u-2" = [].
Proof.
  cbv zeta. split; [|split; [|split; [|split; [|split; [|split]]]]];
    vm_compute; reflexivity.
Qed.

(** ** Membership queries *)

(** An unfiltered query for a group that has a pending entry hands back
    the promise of that entry and sends no request. *)
Lemma getRealtimeUsers_pending (group : string) (user : option string)
    (p : nat) (s : State) :
  group <> EmptyString ->
  falsy_str user = true ->
  __roomPending s !! group = Some p ->
  getRealtimeUsers group user s = mkRes s [] (Ok p).
Proof.
  intros Hgroup Huser Hpending. unfold getRealtimeUsers.
  rewrite bool_decide_eq_false_2 by done.
  rewrite bind_read, Hpending, Huser. reflexivity.
Qed.

Lemma resume_all_pending (ws : list Waiter) (s : State) :
  __roomPending (r_st (for_each ws (fun w => detached (resume w)) s))
  = __roomPending s.
Proof.
  revert s. induction ws as [|w ws IH]; intros s; [reflexivity|].
  simpl for_each. unfold bind at 1. unfold detached at 1.
  assert (Hone : exists s1 l out, resume w s = mkRes s1 l out /\
                                  __roomPending s1 = __roomPending s).
  { unfold resume, notice_leave, notice_join, when.
    destruct (w_leave w); repeat mstep;
      match goal with
      | |- context [if negb ?b then _ else _] => destruct b
      end; simpl; eexists _, _, _; by split. }
  destruct Hone as (s1 & l & out & -> & Hsame). cbv beta iota.
  rewrite r_st_after, IH. exact Hsame.
Qed.

(** The pending entry of the group is gone once a query for the group has
    settled, whether it was fulfilled or failed. *)
Lemma settle_clears_pending (p : nat) (reply : Reply) (group : string)
    (user : option string) (s : State) :
  inflight s !! p = Some (group, user) ->
  __roomPending (r_st (settle p reply s)) !! group = None.
Proof.
  intros Hq. unfold settle. repeat mstep. rewrite Hq. cbv beta iota.
  destruct reply as [entries|]; unfold when.
  - destruct (falsy_str user); repeat mstep;
      rewrite resume_all_pending; apply lookup_delete_eq.
  - repeat mstep. unfold ret. simpl. apply lookup_delete_eq.
Qed.

(** C7 fails on the sample session. An unfiltered query for "lobby" is
    outstanding (promise 0); a query for the same group filtered by user
    (promise 1) is sent and fulfilled; its [finally] callback removes the
    pending entry of the group although promise 0 has not settled; the next
    unfiltered query then is not given promise 0 but sends a second request
    (promise 2). *)
Theorem filtered_query_drops_pending_entry :
  let q1 := getRealtimeUsers "lobby" None connected in
  let q2 := getRealtimeUsers "lobby" (Some "u-2") (r_st q1) in
  let settled := settle 1 (Fulfilled [("u-2", "c1")]) (r_st q2) in
  let q3 := getRealtimeUsers "lobby" None (r_st settled) in
  r_out q1 = Ok 0%nat /\
  __roomPending (r_st q2) !! "lobby" = Some 0%nat /\
  r_out q2 = Ok 1%nat /\
  inflight (r_st settled) !! 0%nat = Some ("lobby", None) /\
  __roomPending (r_st settled) !! "lobby" = None /\
  r_out q3 = Ok 2%nat /\
  r_log q3 = [Request 2 "lobby" None].
Proof.
  cbv zeta. repeat split; vm_compute; reflexivity.
Qed.

(** ** Accepting a call *)

Lemma sdpanswer_run (from : option string) (o : json) (s : State)
    (rs : ReadyState) (pc : PeerConnection) :
  __socket s = Resolved rs ->
  __peerConnection s !! key from = Some pc ->
  sdpanswer from o s = mkRes s (answer_log (key from) from o) (Ok tt).
Proof.
  intros Hsock Hpc. unfold sdpanswer, await_socket.
  repeat mstep. rewrite Hpc, Hsock. repeat mstep. reflexivity.
Qed.

Lemma sdpanswers_run (from : option string) (offers : list json) (s : State)
    (rs : ReadyState) (pc : PeerConnection) :
  __socket s = Resolved rs ->
  __peerConnection s !! key from = Some pc ->
  for_each offers (sdpanswer from) s
  = mkRes s (flat_map (answer_log (key from) from) offers) (Ok tt).
Proof.
  intros Hsock Hpc. induction offers as [|o offers IH]; [reflexivity|].
  simpl for_each.
  rewrite (bind_ok _ _ _ _ _ _ (sdpanswer_run from o s rs pc Hsock Hpc)), IH.
  reflexivity.
Qed.

Lemma candidates_run (from : option string) (candidates : list json) (s : State)
    (pc : PeerConnection) :
  __peerConnection s !! key from = Some pc ->
  for_each candidates (addIceCandidate from) s
  = mkRes s (map (AddIceCandidate (key from)) candidates) (Ok tt).
Proof.
  intros Hpc. induction candidates as [|c candidates IH]; [reflexivity|].
  simpl for_each. unfold addIceCandidate at 1.
  repeat mstep. rewrite Hpc. rewrite bind_emit, IH. reflexivity.
Qed.

Lemma applied_app (peer : string) (l1 l2 : list Effect) :
  applied peer (l1 ++ l2) = applied peer l1 ++ applied peer l2.
Proof. apply omap_app. Qed.

Lemma applied_answers (k : string) (from : option string) (offers : list json) :
  applied k (flat_map (answer_log k from) offers) = map RemoteDescription offers.
Proof.
  induction offers as [|o offers IH]; [reflexivity|].
  change (flat_map (answer_log k from) (o :: offers))
    with (answer_log k from o ++ flat_map (answer_log k from) offers).
  rewrite applied_app, IH. unfold applied, answer_log. simpl.
  by rewrite bool_decide_eq_true_2.
Qed.

Lemma applied_candidates (k : string) (candidates : list json) :
  applied k (map (AddIceCandidate k) candidates) = map IceCandidate candidates.
Proof.
  induction candidates as [|c candidates IH]; [reflexivity|].
  change (map (AddIceCandidate k) (c :: candidates))
    with ([AddIceCandidate k c] ++ map (AddIceCandidate k) candidates).
  rewrite applied_app, IH. unfold applied. simpl.
  by rewrite bool_decide_eq_true_2.
Qed.

Lemma after_mkRes {A : Type} (l l' : list Effect) (s : State) (out : Outcome A) :
  after l (mkRes s l' out) = mkRes s (l ++ l') out.
Proof. reflexivity. Qed.

(** What accepting applies to the new peer connection: the buffered
    offers in order, then the buffered candidates in order, and then, once
    more, the offer the function was created with. *)
Lemma receiveRTC_accept_applied (s : State) (h : RTCreceiver) (params : ReceiveParams)
    (o : json) (os cs : list json) (rs : ReadyState) :
  rp_reject params = false ->
  rp_mediaStream params = NoMedia ->
  __socket s = Resolved rs ->
  __peerConnection s !! key (h_sender h) = None ->
  __rtcSdpOffer s !! key (h_sender h) = Some (o :: os) ->
  default [] (__rtcCandidates s !! key (h_sender h)) = cs ->
  exists s' l,
    receiveRTC h params s = mkRes s' l (Ok tt) /\
    applied (key (h_sender h)) l =
      map RemoteDescription (o :: os) ++ map IceCandidate cs ++
      match get_truthy (h_rtc h) "sdpoffer" with
      | Some again => [RemoteDescription again]
      | None => []
      end.
Proof.
  intros Hrej Hmedia Hsock Hpc Hoffers Hcands.
  unfold receiveRTC, await_socket. cbv zeta.
  set (from := h_sender h) in *. set (k := key from) in *.
  rewrite Hmedia, Hrej. simpl media_guard. simpl attach_media.
  repeat mstep. rewrite Hsock. repeat mstep.
  unfold ensure_peerConnection. repeat mstep. rewrite Hpc.
  repeat mstep. unfold ensure_dataChannel. repeat mstep.
  set (s3 := match __dataChannel _ !! k with Some _ => _ | None => _ end).
  assert (Hsock3 : __socket s3 = Resolved rs).
  { subst s3. simpl. by destruct (__dataChannel s !! k). }
  assert (Hpc3 : __peerConnection s3 !! k = Some (mkPeer conn_new)).
  { subst s3. simpl. destruct (__dataChannel s !! k); simpl; apply lookup_insert_eq. }
  assert (Hoffers3 : __rtcSdpOffer s3 !! k = Some (o :: os)).
  { subst s3. simpl. by destruct (__dataChannel s !! k). }
  assert (Hcands3 : default [] (__rtcCandidates s3 !! k) = cs).
  { subst s3. simpl. by destruct (__dataChannel s !! k). }
  rewrite Hoffers3.
  rewrite !bind_assoc.
  rewrite (bind_ok _ _ _ _ _ _ (sdpanswers_run from (o :: os) s3 rs _ Hsock3 Hpc3)).
  repeat mstep. simpl __rtcCandidates.
  set (s4 := set_rtcSdpOffer _ s3).
  assert (Hsock4 : __socket s4 = Resolved rs) by exact Hsock3.
  assert (Hpc4 : __peerConnection s4 !! k = Some (mkPeer conn_new)) by exact Hpc3.
  assert (Htail : forall s5, __socket s5 = Resolved rs ->
            __peerConnection s5 !! k = Some (mkPeer conn_new) ->
            exists s6 l6,
              (match get_truthy (h_rtc h) "sdpoffer" with
               | Some again => sdpanswer from again
               | None => ret tt
               end;;;
               emit (Send (mkFrame rtc (Uid from) CPickup));;;
               emit (PeerCb k RtcPickup);;;
               modify (fun s => set_receiver_ringing (__receiver_ringing s ∖ {[k]}) s)) s5
              = mkRes s6 l6 (Ok tt) /\
              applied k l6 = match get_truthy (h_rtc h) "sdpoffer" with
                             | Some again => [RemoteDescription again]
                             | None => []
                             end).
  { intros s5 Hs5 Hp5. destruct (get_truthy (h_rtc h) "sdpoffer") as [again|].
    - rewrite (bind_ok _ _ _ _ _ _ (sdpanswer_run from again s5 rs _ Hs5 Hp5)).
      repeat mstep. unfold modify. simpl. eexists _, _. split; [reflexivity|].
      unfold applied. simpl. by rewrite bool_decide_eq_true_2.
    - repeat mstep. unfold modify. simpl. eexists _, _. by split. }
  assert (Hnew : forall ice, applied k [NewRTCPeerConnection k ice] = []) by done.
  clear Hcands.
  destruct (__rtcCandidates s3 !! k) as [[|c cs']|] eqn:Hbuf; simpl in Hcands3; subst cs.
  - repeat mstep. destruct (Htail s4 Hsock4 Hpc4) as (s6 & l6 & -> & Hl6).
    rewrite !after_mkRes. eexists _, _. split; [reflexivity|].
    rewrite !applied_app, Hnew, Hl6, applied_answers. reflexivity.
  - rewrite !bind_assoc.
    rewrite (bind_ok _ _ _ _ _ _ (candidates_run from (c :: cs') s4 _ Hpc4)).
    repeat mstep.
    set (s5 := set_rtcCandidates _ s4).
    destruct (Htail s5 Hsock4 Hpc4) as (s6 & l6 & -> & Hl6).
    rewrite !after_mkRes. eexists _, _. split; [reflexivity|].
    rewrite !applied_app, Hnew, Hl6, applied_answers, applied_candidates.
    reflexivity.
  - repeat mstep. destruct (Htail s4 Hsock4 Hpc4) as (s6 & l6 & -> & Hl6).
    rewrite !after_mkRes. eexists _, _. split; [reflexivity|].
    rewrite !applied_app, Hnew, Hl6, applied_answers. reflexivity.
Qed.

(** C1 fails on the sample session. Two offers and then two candidates of
    "u-2" arrive while "u-1" has no peer connection for "u-2"; they are
    buffered in that order, and the first frame reaches the callback with
    the function that accepts the call. Calling it applies offer 1, offer 2,
    candidate 1, candidate 2 in that order, and then applies offer 1 a
    second time: the offer the function was created with is also the first
    one in the buffer. *)
Theorem accept_applies_first_offer_again :
  let arrived :=
    deliver sample_decode ["offer-1"; "offer-2"; "candidate-1"; "candidate-2"]
      connected in
  let accepted := receiveRTC first_offer_handle accept_params (r_st arrived) in
  handles (r_log arrived) = [Some first_offer_handle; None; None; None] /\
  __peerConnection (r_st arrived) !! "u-2" = None /\
  __rtcSdpOffer (r_st arrived) !! "u-2" = Some [offer1; offer2] /\
  __rtcCandidates (r_st arrived) !! "u-2" = Some [candidate1; candidate2] /\
  r_out accepted = Ok tt /\
  applied "u-2" (r_log accepted) =
    [RemoteDescription offer1; RemoteDescription offer2;
     IceCandidate candidate1; IceCandidate candidate2;
     RemoteDescription offer1].
Proof.
  cbv zeta. repeat split; vm_compute; reflexivity.
Qed.

(** * Further properties of the realtime module *)

(** ** The session *)

Lemma await_socket_bind {A : Type} (k : option ReadyState -> M A) (s : State) :
  (socket <- await_socket ;; k socket) s =
  match __socket s with
  | NoSocket => k None s
  | Connecting => mkRes s [] Blocked
  | Resolved rs => k (Some rs) s
  end.
Proof.
  unfold await_socket. do 2 mstep. destruct (__socket s);
    [by rewrite bind_ret | reflexivity | by rewrite bind_ret].
Qed.

Lemma closeRealtime_rest_closed (s : State) :
  __socket s = NoSocket -> __socket_room s = None -> __keepAliveInterval s = false ->
  closeRealtime_rest None s = mkRes s [] (Ok tt).
Proof.
  intros Hs Hr Hk. unfold closeRealtime_rest. repeat mstep. rewrite Hk.
  unfold when. repeat mstep. unfold ret.
  destruct s; simpl in *; subst; reflexivity.
Qed.

(** X1. [closeRealtime] on a session that is not in the middle of
    connecting returns; it stops the keep-alive timer if there is one,
    closes the socket if there is one, and leaves [__socket] and
    [__socket_room] empty; the failed-attempt counter and the membership
    map are not touched. Calling it again does nothing at all. *)
Theorem closeRealtime_idempotent (st : State) :
  __socket st <> Connecting ->
  let r := closeRealtime st in
  r_out r = Ok tt /\
  r_log r = (if __keepAliveInterval st then [ClearInterval] else [])
              ++ match __socket st with Resolved _ => [SocketClose] | _ => [] end /\
  __socket (r_st r) = NoSocket /\
  __socket_room (r_st r) = None /\
  __keepAliveInterval (r_st r) = false /\
  reconnectAttempts (r_st r) = reconnectAttempts st /\
  __roomList (r_st r) = __roomList st /\
  closeRealtime (r_st r) = mkRes (r_st r) [] (Ok tt).
Proof.
  intros Hslot r.
  assert (Hr : r_out r = Ok tt /\
               r_log r = (if __keepAliveInterval st then [ClearInterval] else [])
                 ++ match __socket st with Resolved _ => [SocketClose] | _ => [] end /\
               __socket (r_st r) = NoSocket /\
               __socket_room (r_st r) = None /\
               __keepAliveInterval (r_st r) = false /\
               reconnectAttempts (r_st r) = reconnectAttempts st /\
               __roomList (r_st r) = __roomList st).
  { subst r. unfold closeRealtime, await_socket, closeRealtime_rest.
    destruct (__socket st) eqn:Hs; [| done |];
      destruct (__keepAliveInterval st) eqn:Hk;
      mrun; rewrite ?Hs, ?Hk; simpl; rewrite ?Hk; simpl; done. }
  destruct Hr as (Hout & Hlog & Hs & Hroom & Hk & Hatt & Hlist).
  repeat split; try assumption.
  unfold closeRealtime. rewrite await_socket_bind, Hs.
  by apply closeRealtime_rest_closed.
Qed.

Lemma closeRealtime_idempotent_witness :
  let r := closeRealtime in_lobby in
  r_out r = Ok tt /\
  r_log r = (if __keepAliveInterval in_lobby then [ClearInterval] else [])
              ++ match __socket in_lobby with Resolved _ => [SocketClose] | _ => [] end /\
  __socket (r_st r) = NoSocket /\
  __socket_room (r_st r) = None /\
  __keepAliveInterval (r_st r) = false /\
  reconnectAttempts (r_st r) = reconnectAttempts in_lobby /\
  __roomList (r_st r) = __roomList in_lobby /\
  closeRealtime (r_st r) = mkRes (r_st r) [] (Ok tt).
Proof.
  apply (closeRealtime_idempotent in_lobby). vm_compute. discriminate.
Defined.

(** X2. [joinRealtime] on a resolved connection: a group name sends one
    joinRoom frame for it and makes it the joined room; leaving ([null] or
    the empty string) sends the frame and clears the room only when a room
    is joined, and does nothing otherwise. Without a connection the call
    throws before anything is sent or changed. *)
Theorem joinRealtime_behaviour (st : State) (group : option string) :
  let r := joinRealtime group st in
  (__socket st = NoSocket ->
     r = mkRes st [] (Throw NoRealtimeConnection)) /\
  (forall rs, __socket st = Resolved rs ->
     r_out r = Ok tt /\
     joined_room (r_st r) = (if falsy_str group then None else group) /\
     sent (r_log r) =
       (if falsy_str group && falsy_str (__socket_room st) then []
        else [mkFrame joinRoom (Rid group) NoContent]) /\
     (falsy_str group = true -> joined_room st = None -> r_st r = st)).
Proof.
  intros r; subst r; unfold joinRealtime. rewrite await_socket_bind. split.
  - intros Hs. by rewrite Hs.
  - intros rs Hs. rewrite Hs. repeat mstep.
    destruct (falsy_str group) eqn:Hg, (falsy_str (__socket_room st)) eqn:Hroom;
      simpl andb; cbv iota; repeat mstep; unfold ret, joined_room; simpl;
      rewrite ?Hg, ?Hroom; repeat split; try done.
    intros _ Hnone. rewrite Hnone in Hroom. discriminate.
Qed.

Section Session.

Variable UserId : string -> bool.
Variable extractFormData : json -> json.

(** X3. A successful automatic reconnection loses the connection. When
    the socket of an open session closes unexpectedly, the handler starts
    the reconnection (one notification, one timer); the part of
    [closeRealtime] that runs after the handler then empties [__socket],
    which by then holds the promise of the new connection, and
    [__socket_room]. When the new socket opens, its [onopen] reports
    success and starts the keep-alive timer, but sends no frame to rejoin
    the room, and [__socket] stays empty: [postRealtime] and
    [joinRealtime] throw as if there were no connection. *)
Theorem reconnect_forgets_connection (st : State) (rs : ReadyState)
    (message : json) (recipient : string) (group : option string) :
  __socket st = Resolved rs ->
  (S (reconnectAttempts st) < maxAttempts)%nat ->
  let closed := onclose false st in
  let opened := onopen (r_st closed) in
  let delay := reconnect_delay (S (reconnectAttempts st)) in
  r_out closed = Ok tt /\
  callbacks (r_log closed) = [EvReconnect delay] /\
  timeouts (r_log closed) = [delay] /\
  r_out opened = Ok tt /\
  r_log opened = [Cb EvSuccess; SetInterval 30000] /\
  __socket (r_st opened) = NoSocket /\
  __socket_room (r_st opened) = None /\
  reconnectAttempts (r_st opened) = 0%nat /\
  postRealtime UserId extractFormData message recipient (r_st opened)
    = mkRes (r_st opened) [] (Throw NoRealtimeConnection) /\
  joinRealtime group (r_st opened)
    = mkRes (r_st opened) [] (Throw NoRealtimeConnection).
Proof.
  intros Hs Hlt closed opened delay.
  assert (Hclosed : exists s1 l1, closed = mkRes s1 l1 (Ok tt) /\
            callbacks l1 = [EvReconnect delay] /\ timeouts l1 = [delay] /\
            __socket s1 = NoSocket /\ __socket_room s1 = None).
  { subst closed delay. apply Nat.ltb_lt in Hlt.
    unfold onclose, closeRealtime_rest, connectRealtime.
    unfold when; unfold bind, read, modify, emit, ret.
    destruct (__keepAliveInterval st) eqn:Hk;
      simpl; rewrite ?Hs, ?Hk; simpl; rewrite Hlt; simpl;
      repeat (progress (rewrite ?Hk; simpl));
      eexists _, _; (split; [reflexivity|]); simpl; done. }
  destruct Hclosed as (s1 & l1 & Hc & Hcb & Hto & Hs1 & Hroom1).
  assert (Hopened : exists s2, opened = mkRes s2 [Cb EvSuccess; SetInterval 30000] (Ok tt) /\
            __socket s2 = NoSocket /\ __socket_room s2 = None /\
            reconnectAttempts s2 = 0%nat).
  { subst opened. rewrite Hc. simpl r_st. unfold onopen.
    mrun. rewrite Hroom1. simpl. rewrite Hs1. eexists; repeat split; simpl; assumption. }
  destruct Hopened as (s2 & Ho & Hs2 & Hroom2 & Hatt2).
  rewrite Hc, Ho. simpl r_out; simpl r_log; simpl r_st.
  repeat split; try assumption.
  - unfold postRealtime. by rewrite await_socket_bind, Hs2.
  - unfold joinRealtime. by rewrite await_socket_bind, Hs2.
Qed.

(** X4. [postRealtime] never changes the state of the module and hands at
    most one frame to the socket; it sends nothing unless the connection is
    resolved and open and the recipient is not empty. *)
Theorem postRealtime_sends_only_when_open (st : State) (message : json)
    (recipient : string) :
  let r := postRealtime UserId extractFormData message recipient st in
  r_st r = st /\
  (length (r_log r) <= 1)%nat /\
  map Send (sent (r_log r)) = r_log r /\
  (r_log r <> [] -> __socket st = Resolved OPEN /\ recipient <> EmptyString) /\
  (__socket st = NoSocket -> r_out r = Throw NoRealtimeConnection) /\
  (__socket st = Connecting -> r_out r = Blocked) /\
  (forall rs, __socket st = Resolved rs -> recipient = EmptyString ->
     r_out r = Throw NoRecipient) /\
  (forall rs, __socket st = Resolved rs -> rs <> OPEN -> recipient <> EmptyString ->
     r_out r = Throw ConnectionNotOpen).
Proof.
  intros r; subst r; unfold postRealtime. rewrite await_socket_bind.
  destruct (__socket st) as [| |rs] eqn:Hs.
  - simpl. repeat split; try done; lia.
  - simpl. repeat split; try done; lia.
  - case_bool_decide as Hrec.
    + simpl. repeat split; try done; lia.
    + destruct rs; try (simpl; repeat split; try done; try lia;
                        intros rs' [= <-]; done).
      unfold try_catch.
      destruct (UserId recipient).
      * mrun. repeat split; try done; try lia. by intros rs' [= <-].
      * mrun. case_bool_decide; simpl; repeat split; try done; try lia;
          by intros rs' [= <-].
Qed.

End Session.

Lemma reconnect_forgets_connection_witness :
  let closed := onclose false in_lobby in
  let opened := onopen (r_st closed) in
  let delay := reconnect_delay (S (reconnectAttempts in_lobby)) in
  r_out closed = Ok tt /\
  callbacks (r_log closed) = [EvReconnect delay] /\
  timeouts (r_log closed) = [delay] /\
  r_out opened = Ok tt /\
  r_log opened = [Cb EvSuccess; SetInterval 30000] /\
  __socket (r_st opened) = NoSocket /\
  __socket_room (r_st opened) = None /\
  reconnectAttempts (r_st opened) = 0%nat /\
  postRealtime sample_UserId sample_extract (JStr "hi") "lobby" (r_st opened)
    = mkRes (r_st opened) [] (Throw NoRealtimeConnection) /\
  joinRealtime (Some "lobby") (r_st opened)
    = mkRes (r_st opened) [] (Throw NoRealtimeConnection).
Proof.
  apply (reconnect_forgets_connection sample_UserId sample_extract in_lobby OPEN
           (JStr "hi") "lobby" (Some "lobby")).
  - reflexivity.
  - vm_compute. lia.
Defined.

(** ** Hanging up *)

Lemma sent_app (l1 l2 : list Effect) : sent (l1 ++ l2) = sent l1 ++ sent l2.
Proof. apply omap_app. Qed.

Lemma peer_events_app (peer : string) (l1 l2 : list Effect) :
  peer_events peer (l1 ++ l2) = peer_events peer l1 ++ peer_events peer l2.
Proof. apply omap_app. Qed.

Lemma created_connections_app (l1 l2 : list Effect) :
  created_connections (l1 ++ l2) = created_connections l1 ++ created_connections l2.
Proof. apply omap_app. Qed.

Lemma closeRTC_no_connection (st : State) (peer : string) :
  peer <> EmptyString ->
  __peerConnection st !! peer = None ->
  closeRTC (Some peer) st =
  mkRes
    (set_peerConnection (delete peer (__peerConnection st))
       (set_dataChannel (delete peer (__dataChannel st))
          (set_rtcCandidates (delete peer (__rtcCandidates st))
             (set_rtcSdpOffer (delete peer (__rtcSdpOffer st)) st))))
    (map (ChannelClose peer) (open_labels (default [] (__dataChannel st !! peer))))
    (Ok tt).
Proof.
  intros Hne Hpc. unfold closeRTC. cbv zeta. simpl key.
  repeat mstep. unfold falsy_str.
  rewrite bool_decide_eq_false_2 by done.
  mstep. simpl __dataChannel.
  rewrite (bind_ok _ _ _ _ _ _ (close_channels_run _ _ _)).
  repeat mstep. simpl __peerConnection. rewrite Hpc.
  repeat mstep. unfold modify; simpl. by rewrite app_nil_r.
Qed.

Lemma closed_again (s : State) (peer : string) :
  __rtcSdpOffer s !! peer = None -> __rtcCandidates s !! peer = None ->
  __dataChannel s !! peer = None -> __peerConnection s !! peer = None ->
  set_peerConnection (delete peer (__peerConnection s))
    (set_dataChannel (delete peer (__dataChannel s))
       (set_rtcCandidates (delete peer (__rtcCandidates s))
          (set_rtcSdpOffer (delete peer (__rtcSdpOffer s)) s))) = s.
Proof.
  intros H1 H2 H3 H4. destruct s; simpl in *.
  by rewrite !delete_id by done.
Qed.

(** X5. Hanging up is idempotent. [closeRTC] for a peer returns whenever
    the peer has a registered callback or no connection; a peer without a
    connection gets no callback event and no [close()] on a connection, and
    a second [closeRTC] for the same peer does nothing at all. *)
Theorem closeRTC_idempotent (st : State) (peer : string) :
  peer <> EmptyString ->
  (is_Some (__peerConnection st !! peer) -> peer ∈ peerCallbacks st) ->
  let r := closeRTC (Some peer) st in
  r_out r = Ok tt /\
  (__peerConnection st !! peer = None ->
     r_log r = map (ChannelClose peer)
                   (open_labels (default [] (__dataChannel st !! peer)))) /\
  closeRTC (Some peer) (r_st r) = mkRes (r_st r) [] (Ok tt).
Proof.
  intros Hne Hcb r.
  assert (Hr : exists l,
    r = mkRes
          (set_peerConnection (delete peer (__peerConnection st))
             (set_dataChannel (delete peer (__dataChannel st))
                (set_rtcCandidates (delete peer (__rtcCandidates st))
                   (set_rtcSdpOffer (delete peer (__rtcSdpOffer st)) st))))
          l (Ok tt) /\
    (__peerConnection st !! peer = None ->
       l = map (ChannelClose peer) (open_labels (default [] (__dataChannel st !! peer))))).
  { subst r. destruct (__peerConnection st !! peer) as [pc|] eqn:Hpc.
    - rewrite (closeRTC_run st peer pc Hne Hpc) by (apply Hcb; by eexists).
      eexists. by split.
    - rewrite (closeRTC_no_connection st peer Hne Hpc). eexists. by split. }
  destruct Hr as (l & Hr & Hl). rewrite Hr. simpl r_out; simpl r_log; simpl r_st.
  split; [reflexivity|]. split; [exact Hl|].
  set (s1 := set_peerConnection _ _).
  rewrite (closeRTC_no_connection s1 peer Hne) by apply lookup_delete_eq.
  assert (Hdc : __dataChannel s1 !! peer = None) by apply lookup_delete_eq.
  rewrite Hdc. simpl. f_equal.
  apply closed_again; apply lookup_delete_eq.
Qed.

Lemma closeRTC_idempotent_witness :
  let r := closeRTC (Some "u-2") calling in
  r_out r = Ok tt /\
  (__peerConnection calling !! "u-2" = None ->
     r_log r = map (ChannelClose "u-2")
                   (open_labels (default [] (__dataChannel calling !! "u-2")))) /\
  closeRTC (Some "u-2") (r_st r) = mkRes (r_st r) [] (Ok tt).
Proof.
  apply (closeRTC_idempotent calling "u-2").
  - discriminate.
  - intros _. vm_compute. reflexivity.
Defined.

(** X6. [closeRTC] touches the entries of one peer only: however it ends,
    the connection, the data channels and the buffered offers and
    candidates of every other peer are as before, and so are the registered
    callbacks, both sets of ringing flags, the stored media stream, the
    session and the membership map. *)
Theorem closeRTC_other_peers (st : State) (recipient : option string) (q : string) :
  q <> key recipient ->
  let s' := r_st (closeRTC recipient st) in
  __peerConnection s' !! q = __peerConnection st !! q /\
  __dataChannel s' !! q = __dataChannel st !! q /\
  __rtcSdpOffer s' !! q = __rtcSdpOffer st !! q /\
  __rtcCandidates s' !! q = __rtcCandidates st !! q /\
  peerCallbacks s' = peerCallbacks st /\
  __caller_ringing s' = __caller_ringing st /\
  __receiver_ringing s' = __receiver_ringing st /\
  __mediaStream s' = __mediaStream st /\
  __socket s' = __socket st /\
  __socket_room s' = __socket_room st /\
  __roomList s' = __roomList st.
Proof.
  intros Hq s'.
  assert (Hrun : exists s1 l out,
            closeRTC recipient st = mkRes s1 l out /\
            (s1 = set_rtcCandidates (delete (key recipient) (__rtcCandidates st))
                    (set_rtcSdpOffer (delete (key recipient) (__rtcSdpOffer st)) st) \/
             s1 = set_dataChannel (delete (key recipient) (__dataChannel st))
                    (set_rtcCandidates (delete (key recipient) (__rtcCandidates st))
                       (set_rtcSdpOffer (delete (key recipient) (__rtcSdpOffer st)) st)) \/
             s1 = set_peerConnection (delete (key recipient) (__peerConnection st))
                    (set_dataChannel (delete (key recipient) (__dataChannel st))
                       (set_rtcCandidates (delete (key recipient) (__rtcCandidates st))
                          (set_rtcSdpOffer (delete (key recipient) (__rtcSdpOffer st)) st))))).
  { unfold closeRTC. cbv zeta. repeat mstep. destruct (falsy_str recipient).
    - eexists _, _, _. split; [reflexivity|]. by left.
    - mstep. simpl __dataChannel.
      rewrite (bind_ok _ _ _ _ _ _ (close_channels_run _ _ _)).
      repeat mstep. simpl __peerConnection.
      destruct (__peerConnection st !! key recipient) as [pc|].
      + unfold when.
        destruct (negb (conn_is_closed (connectionState pc))); repeat mstep;
          simpl peerCallbacks;
          destruct (bool_decide (key recipient ∈ peerCallbacks st));
          repeat mstep; unfold modify; simpl;
          eexists _, _, _; (split; [reflexivity|]); auto.
      + repeat mstep. unfold modify. simpl.
        eexists _, _, _. split; [reflexivity|]. auto. }
  destruct Hrun as (s1 & l & out & Hrun & Hs1). subst s'. rewrite Hrun.
  simpl r_st.
  destruct Hs1 as [-> | [-> | ->]]; simpl; by rewrite ?lookup_delete_ne by done.
Qed.

Lemma closeRTC_other_peers_witness :
  let s' := r_st (closeRTC (Some "u-3") calling) in
  __peerConnection s' !! "u-2" = __peerConnection calling !! "u-2" /\
  __dataChannel s' !! "u-2" = __dataChannel calling !! "u-2" /\
  __rtcSdpOffer s' !! "u-2" = __rtcSdpOffer calling !! "u-2" /\
  __rtcCandidates s' !! "u-2" = __rtcCandidates calling !! "u-2" /\
  peerCallbacks s' = peerCallbacks calling /\
  __caller_ringing s' = __caller_ringing calling /\
  __receiver_ringing s' = __receiver_ringing calling /\
  __mediaStream s' = __mediaStream calling /\
  __socket s' = __socket calling /\
  __socket_room s' = __socket_room calling /\
  __roomList s' = __roomList calling.
Proof.
  apply (closeRTC_other_peers calling (Some "u-3") "u-2"). discriminate.
Defined.

(** ** Connection state changes *)

(** X7. When the connection of a peer reports [disconnected], [failed]
    or [closed], the handler tears the call down: the callback of the peer
    gets the change it was told about and then a second event with the
    state [closed], the connection is closed unless it already is, and the
    entries of the peer are gone. Any other state only reaches the
    callback. *)
Theorem onconnectionstatechange_teardown (st : State) (peer : string)
    (state : ConnState) :
  peer <> EmptyString ->
  __peerConnection st !! peer = Some (mkPeer state) ->
  peer ∈ peerCallbacks st ->
  let r := onconnectionstatechange peer state st in
  r_out r = Ok tt /\
  (is_terminal state = false ->
     r = mkRes st [PeerCb peer (RtcConnectionStateChange state)] (Ok tt)) /\
  (is_terminal state = true ->
     peer_events peer (r_log r) =
       [RtcConnectionStateChange state; RtcConnectionStateChange conn_closed] /\
     (PeerClose peer ∈ r_log r <-> state <> conn_closed) /\
     __peerConnection (r_st r) !! peer = None /\
     __dataChannel (r_st r) !! peer = None /\
     __rtcSdpOffer (r_st r) !! peer = None /\
     __rtcCandidates (r_st r) !! peer = None).
Proof.
  intros Hne Hpc Hcb r. subst r. unfold onconnectionstatechange. mstep.
  destruct (is_terminal state) eqn:Hterm; unfold when.
  - rewrite (closeRTC_run st peer _ Hne Hpc Hcb). simpl.
    split; [reflexivity|]. split; [done|]. intros _.
    rewrite bool_decide_eq_true_2 by done.
    split; [|split; [|by rewrite !lookup_delete_eq]].
    + f_equal. change (peer_events peer ?l) with (peer_events peer l).
      rewrite peer_events_app.
      assert (Hch : forall labels, peer_events peer (map (ChannelClose peer) labels) = []).
      { induction labels as [|x labels IH]; [done|exact IH]. }
      rewrite Hch. simpl.
      destruct (conn_is_closed state); simpl;
        by rewrite bool_decide_eq_true_2 by done.
    + rewrite elem_of_cons, elem_of_app, list_elem_of_fmap.
      destruct state; simpl; split; try done; intros H;
        try (right; right; left; done);
        destruct H as [H | [(x & H & _) | H]]; try done;
        apply list_elem_of_singleton in H; done.
  - simpl. by repeat split.
Qed.

Lemma onconnectionstatechange_teardown_witness :
  let st := set_peerConnection {["u-2" := mkPeer conn_failed]} calling in
  let r := onconnectionstatechange "u-2" conn_failed st in
  r_out r = Ok tt /\
  (is_terminal conn_failed = false ->
     r = mkRes st [PeerCb "u-2" (RtcConnectionStateChange conn_failed)] (Ok tt)) /\
  (is_terminal conn_failed = true ->
     peer_events "u-2" (r_log r) =
       [RtcConnectionStateChange conn_failed; RtcConnectionStateChange conn_closed] /\
     (PeerClose "u-2" ∈ r_log r <-> conn_failed <> conn_closed) /\
     __peerConnection (r_st r) !! "u-2" = None /\
     __dataChannel (r_st r) !! "u-2" = None /\
     __rtcSdpOffer (r_st r) !! "u-2" = None /\
     __rtcCandidates (r_st r) !! "u-2" = None).
Proof.
  apply (onconnectionstatechange_teardown
           (set_peerConnection {["u-2" := mkPeer conn_failed]} calling) "u-2" conn_failed).
  - discriminate.
  - reflexivity.
  - vm_compute. reflexivity.
Defined.

(** ** Starting a call *)

Section Calling.

Variable UserId : string -> bool.

Lemma sendOffer_explicit (st : State) (recipient : string) (rs : ReadyState)
    (pc : PeerConnection) :
  __socket st = Resolved rs ->
  __peerConnection st !! recipient = Some pc ->
  sendOffer UserId recipient st =
  mkRes st
    ([CreateOffer recipient; SetLocalDescription recipient] ++
     (if UserId recipient
      then [Send (mkFrame rtc (Uid (Some recipient)) (CSdpOffer recipient))]
      else if bool_decide (__socket_room st = Some recipient)
      then [Send (mkFrame rtcBroadcast (Rid (Some recipient)) (CSdpOffer recipient))]
      else []))
    (if UserId recipient then Ok tt
     else if bool_decide (__socket_room st = Some recipient) then Ok tt
     else Throw (NotJoined recipient)).
Proof.
  intros Hs Hpc. unfold sendOffer. rewrite await_socket_bind, Hs.
  mstep. rewrite Hpc. repeat mstep. unfold try_catch, socket_send.
  destruct (UserId recipient).
  - reflexivity.
  - mrun. by case_bool_decide.
Qed.

(** X8. Addressing of an offer. With a resolved connection and a peer
    connection for the recipient, [sendOffer] creates the offer and sets it
    as the local description first; it then sends it to the user when the
    recipient is a valid user id, to the room when the recipient is the
    room joined, and otherwise throws the not-joined error with no frame
    sent. The state of the module is not changed. *)
Theorem sendOffer_addressing (st : State) (recipient : string) (rs : ReadyState)
    (pc : PeerConnection) :
  __socket st = Resolved rs ->
  __peerConnection st !! recipient = Some pc ->
  let r := sendOffer UserId recipient st in
  let created := [CreateOffer recipient; SetLocalDescription recipient] in
  r_st r = st /\
  (UserId recipient = true ->
     r_out r = Ok tt /\
     r_log r = created ++
       [Send (mkFrame rtc (Uid (Some recipient)) (CSdpOffer recipient))]) /\
  (UserId recipient = false -> __socket_room st = Some recipient ->
     r_out r = Ok tt /\
     r_log r = created ++
       [Send (mkFrame rtcBroadcast (Rid (Some recipient)) (CSdpOffer recipient))]) /\
  (UserId recipient = false -> __socket_room st <> Some recipient ->
     r_out r = Throw (NotJoined recipient) /\ r_log r = created).
Proof.
  intros Hs Hpc r created. subst r created.
  rewrite (sendOffer_explicit st recipient rs pc Hs Hpc).
  simpl r_st; simpl r_out; simpl r_log. split; [reflexivity|].
  split; [|split].
  - by intros ->.
  - intros -> Hroom. by rewrite bool_decide_eq_true_2.
  - intros -> Hroom. by rewrite bool_decide_eq_false_2.
Qed.

(** What [connectRTC] does before it creates the data channels. *)
Lemma connectRTC_prelude (recipient : string) (ice : option string) (m : MediaParam)
    (s : State) :
  exists s4 l4,
    (ensure_peerConnection recipient ice ;;;
     attach_media recipient m ;;;
     modify (fun s => set_peerCallbacks ({[recipient]} ∪ peerCallbacks s) s) ;;;
     ensure_dataChannel recipient) s = mkRes s4 l4 (Ok tt) /\
    __dataChannel s4 !! recipient = Some (default [] (__dataChannel s !! recipient)) /\
    is_Some (__peerConnection s4 !! recipient) /\
    recipient ∈ peerCallbacks s4 /\
    __socket s4 = __socket s /\
    __socket_room s4 = __socket_room s /\
    secure_context s4 = secure_context s /\
    __caller_ringing s4 = __caller_ringing s /\
    sent l4 = [] /\
    created_channels recipient l4 = [] /\
    created_connections l4 =
      (if bool_decide (is_Some (__peerConnection s !! recipient)) then [] else [recipient]).
Proof.
  assert (H1 : exists s1 l1,
    ensure_peerConnection recipient ice s = mkRes s1 l1 (Ok tt) /\
    __dataChannel s1 = __dataChannel s /\
    is_Some (__peerConnection s1 !! recipient) /\
    peerCallbacks s1 = peerCallbacks s /\
    __socket s1 = __socket s /\ __socket_room s1 = __socket_room s /\
    secure_context s1 = secure_context s /\
    __caller_ringing s1 = __caller_ringing s /\
    sent l1 = [] /\ created_channels recipient l1 = [] /\
    created_connections l1 =
      (if bool_decide (is_Some (__peerConnection s !! recipient)) then [] else [recipient])).
  { unfold ensure_peerConnection. mstep.
    destruct (__peerConnection s !! recipient) as [pc|] eqn:Hpc.
    - exists s, []. rewrite bool_decide_eq_true_2 by by eexists.
      repeat split; try done; try (rewrite Hpc; by eexists).
    - repeat mstep. unfold modify. simpl.
      rewrite ?bool_decide_eq_false_2 by (by intros [? ?]).
      eexists _, _. split; [reflexivity|]. simpl.
      repeat split; try done; try (rewrite lookup_insert_eq; by eexists). }
  assert (H2 : forall s1, exists s2 l2,
    attach_media recipient m s1 = mkRes s2 l2 (Ok tt) /\
    s2 = set_mediaStream (__mediaStream s2) s1 /\
    sent l2 = [] /\ created_channels recipient l2 = [] /\
    created_connections l2 = []).
  { intros s1.
    assert (Htracks : forall tracks,
              sent (map (AddTrack recipient) tracks) = [] /\
              created_connections (map (AddTrack recipient) tracks) = []).
    { induction tracks as [|t tracks IH]; [done|exact IH]. }
    destruct m as [|tracks|video audio]; simpl.
    - exists s1, []. repeat split; try done. by destruct s1.
    - rewrite bind_modify, bind_read. simpl. rewrite for_each_emit.
      eexists _, _. split; [reflexivity|]. simpl.
      split; [reflexivity|]. destruct (Htracks tracks) as [-> ->].
      by rewrite created_channels_tracks.
    - unfold when. destruct (video || audio).
      + rewrite bind_modify, bind_read. simpl. rewrite for_each_emit.
        eexists _, _. split; [reflexivity|]. simpl.
        split; [reflexivity|]. destruct (Htracks (getUserMedia video audio)) as [-> ->].
        by rewrite created_channels_tracks.
      + rewrite bind_ret, bind_read.
        destruct (__mediaStream s1) as [tracks|] eqn:Hm.
        * rewrite for_each_emit. eexists _, _. split; [reflexivity|].
          destruct (Htracks tracks) as [-> ->].
          rewrite created_channels_tracks. repeat split; try done.
          by destruct s1.
        * exists s1, []. repeat split; try done. by destruct s1. }
  destruct H1 as (s1 & l1 & Hrun1 & Hdc1 & Hpc1 & Hcb1 & Hs1 & Hroom1 & Hsec1 & Hring1
                  & Hsent1 & Hch1 & Hnew1).
  destruct (H2 s1) as (s2 & l2 & Hrun2 & Hs2 & Hsent2 & Hch2 & Hnew2).
  rewrite (bind_ok _ _ _ _ _ _ Hrun1), (bind_ok _ _ _ _ _ _ Hrun2).
  rewrite bind_modify. unfold ensure_dataChannel, modify.
  rewrite Hs2. simpl.
  destruct (__dataChannel s1 !! recipient) as [chans|] eqn:Hold; simpl;
    eexists _, _; (split; [reflexivity|]); simpl;
    rewrite ?sent_app, ?created_channels_app, ?created_connections_app,
      ?Hsent1, ?Hsent2, ?Hch1, ?Hch2, ?Hnew1, ?Hnew2, ?app_nil_r;
    rewrite <- ?Hdc1, ?Hold; simpl;
    repeat split; try done;
    try (apply elem_of_union_l; by apply elem_of_singleton_2).
  apply lookup_insert_eq.
Qed.

Lemma bind_ext {A B : Type} (m : M A) (f g : A -> M B) (s : State) :
  (forall a s', f a s' = g a s') -> bind m f s = bind m g s.
Proof.
  intros H. unfold bind. destruct (m s) as [s1 l1 [a|e|]]; [|done|done].
  by rewrite H.
Qed.

Lemma prelude_assoc {A : Type} (e1 e2 e3 e4 : M unit) (rest : M A) (s : State) :
  (e1 ;;; e2 ;;; e3 ;;; e4 ;;; rest) s = ((e1 ;;; e2 ;;; e3 ;;; e4) ;;; rest) s.
Proof.
  symmetry. rewrite bind_assoc. apply bind_ext. intros _ s1.
  rewrite bind_assoc. apply bind_ext. intros _ s2.
  by rewrite bind_assoc.
Qed.

Lemma set_dataChannel_twice (v w : gmap string (list (string * ChanState))) (s : State) :
  set_dataChannel v (set_dataChannel w s) = set_dataChannel v s.
Proof. reflexivity. Qed.

(** The loop over [dataChannelOptions] changes the recorded channels only
    and sends nothing. *)
Lemma create_channels_frame (recipient : string) (opts : list DataChannelOption) :
  forall s, exists s' l out,
    for_each opts (create_channel recipient) s = mkRes s' l out /\
    s' = set_dataChannel (__dataChannel s') s /\
    sent l = [] /\ created_connections l = [].
Proof.
  induction opts as [|o opts IH]; intros s.
  - exists s, [], (Ok tt). repeat split; try done. by destruct s.
  - simpl for_each. unfold create_channel at 1.
    rewrite bind_assoc, bind_read.
    destruct (existsb _ _).
    + rewrite bind_throw. eexists _, _, _. split; [reflexivity|].
      repeat split; try done. by destruct s.
    + rewrite !bind_assoc, bind_emit, bind_modify.
      destruct (IH (set_dataChannel
                      (<[recipient := default [] (__dataChannel s !! recipient)
                                        ++ [(protocol_of o, chan_connecting)]]>
                         (__dataChannel s)) s))
        as (s' & l & out & Hrun & Hs' & Hsent & Hnew).
      rewrite Hrun. simpl after. eexists _, _, _. split; [reflexivity|].
      split; [|by split]. rewrite Hs' at 1. apply set_dataChannel_twice.
Qed.

(** X9. A call to a recipient that is neither a valid user id nor the
    room joined fails only after it has been set up: [connectRTC] creates
    the peer connection and the data channels, registers the callback and
    creates the offer, sends no frame and then throws the not-joined error,
    leaving the connection and the channels recorded while the recipient is
    not marked as ringing. Repeating the call therefore fails with the
    duplicate-channel error. *)
Theorem connectRTC_unreachable_recipient (st : State) (params : ConnectParams) :
  __socket st = Resolved OPEN ->
  media_allowed st (cp_mediaStream params) = true ->
  let recipient := cp_recipient params in
  let labels := map protocol_of (options_of params) in
  UserId recipient = false ->
  __socket_room st <> Some recipient ->
  __peerConnection st !! recipient = None ->
  __dataChannel st !! recipient = None ->
  NoDup labels ->
  labels <> [] ->
  let r := connectRTC UserId params st in
  r_out r = Throw (NotJoined recipient) /\
  sent (r_log r) = [] /\
  created_connections (r_log r) = [recipient] /\
  created_channels recipient (r_log r) = labels /\
  is_Some (__peerConnection (r_st r) !! recipient) /\
  __dataChannel (r_st r) !! recipient
    = Some (map (fun x => (x, chan_connecting)) labels) /\
  recipient ∈ peerCallbacks (r_st r) /\
  __caller_ringing (r_st r) = __caller_ringing st /\
  exists x, x ∈ labels /\
    r_out (connectRTC UserId params (r_st r)) = Throw (DuplicateDataChannel x).
Proof.
  intros Hsock Hmedia recipient labels Huser Hroom Hpc Hdc Hnd Hlabels r.
  assert (Hfirst : exists s5 l,
            r = mkRes s5 l (Throw (NotJoined recipient)) /\
            sent l = [] /\ created_connections l = [recipient] /\
            created_channels recipient l = labels /\
            is_Some (__peerConnection s5 !! recipient) /\
            __dataChannel s5 !! recipient
              = Some (map (fun x => (x, chan_connecting)) labels) /\
            recipient ∈ peerCallbacks s5 /\
            __caller_ringing s5 = __caller_ringing st /\
            __socket s5 = Resolved OPEN /\
            secure_context s5 = secure_context st).
  { subst r. unfold connectRTC. rewrite await_socket_bind, Hsock.
    rewrite (bind_ok _ _ _ _ _ _ (media_guard_allowed _ _ Hmedia)), after_nil.
    fold recipient.
    destruct (connectRTC_prelude recipient (cp_ice params) (cp_mediaStream params) st)
      as (s4 & l4 & Hrun4 & Hdc4 & Hpc4 & Hcb4 & Hs4 & Hroom4 & Hsec4 & Hring4
          & Hsent4 & Hch4 & Hnew4).
    rewrite Hdc in Hdc4. simpl in Hdc4.
    rewrite Hpc, bool_decide_eq_false_2 in Hnew4 by (by intros [? ?]).
    rewrite prelude_assoc, (bind_ok _ _ _ _ _ _ Hrun4).
    destruct (create_channels_run recipient (options_of params) s4 [] Hdc4)
      as (s5 & l5 & out5 & Hrun5 & Hgood & _).
    fold labels in Hgood.
    destruct Hgood as (-> & -> & Hdc5); [done| |].
    { intros x _ Hx. by apply elem_of_nil in Hx. }
    destruct (create_channels_frame recipient (options_of params) s4)
      as (s5' & l5' & out5' & Hrun5' & Hs5 & Hsent5 & Hnew5).
    rewrite Hrun5 in Hrun5'. injection Hrun5' as <- <- <-.
    rewrite (bind_ok _ _ _ _ _ _ Hrun5).
    assert (Hpc5 : is_Some (__peerConnection s5 !! recipient)) by (by rewrite Hs5).
    destruct Hpc5 as [pc Hpc5].
    assert (Hsock5 : __socket s5 = Resolved OPEN) by (rewrite Hs5; simpl; congruence).
    assert (Hoffer : sendOffer UserId recipient s5 =
                     mkRes s5 [CreateOffer recipient; SetLocalDescription recipient]
                           (Throw (NotJoined recipient))).
    { rewrite (sendOffer_explicit s5 recipient OPEN pc Hsock5 Hpc5).
      rewrite Huser, bool_decide_eq_false_2; [reflexivity|].
      rewrite Hs5. simpl. congruence. }
    rewrite (bind_fail _ _ _ _ _ _ Hoffer).
    simpl after. eexists _, _. split; [reflexivity|].
    rewrite !sent_app, !created_connections_app, !created_channels_app.
    rewrite Hsent4, Hsent5, Hnew4, Hnew5, Hch4, created_channels_create.
    simpl. rewrite app_nil_r.
    assert (Hcb5 : peerCallbacks s5 = peerCallbacks s4) by (by rewrite Hs5).
    assert (Hring5 : __caller_ringing s5 = __caller_ringing s4) by (by rewrite Hs5).
    assert (Hsec5 : secure_context s5 = secure_context s4) by (by rewrite Hs5).
    rewrite Hcb5, Hring5, Hsec5.
    repeat split; try done. }
  destruct Hfirst as (s5 & l & Hr & Hsent & Hnew & Hch & Hpc5 & Hdc5 & Hcb5 & Hring5
                      & Hsock5 & Hsec5).
  rewrite Hr. simpl r_out; simpl r_log; simpl r_st.
  repeat (split; [assumption || reflexivity|]).
  unfold connectRTC. rewrite await_socket_bind, Hsock5.
  assert (Hmedia5 : media_allowed s5 (cp_mediaStream params) = true).
  { revert Hmedia. unfold media_allowed. by rewrite Hsec5. }
  rewrite (bind_ok _ _ _ _ _ _ (media_guard_allowed _ _ Hmedia5)), after_nil.
  fold recipient.
  destruct (connectRTC_prelude recipient (cp_ice params) (cp_mediaStream params) s5)
    as (s4 & l4 & Hrun4 & Hdc4 & _).
  rewrite Hdc5 in Hdc4. simpl in Hdc4.
  rewrite prelude_assoc, (bind_ok _ _ _ _ _ _ Hrun4).
  destruct (create_channels_run recipient (options_of params) s4 _ Hdc4)
    as (s6 & l6 & out6 & Hrun6 & _ & Hbad).
  fold labels in Hbad.
  destruct Hbad as (x & Hx & ->).
  { right. destruct labels as [|x labels'] eqn:Hl; [done|].
    exists x. split; [left|]. rewrite map_map. simpl. left. }
  exists x. split; [done|].
  rewrite (bind_fail _ _ _ _ _ _ Hrun6). by rewrite r_out_after.
Qed.

(** X10. A call that can be addressed rings the recipient. On an open
    connection, with the page check passed and channel labels that are
    pairwise distinct and new, [connectRTC] to a valid user id or to the
    room joined returns after sending exactly one frame, the offer, to the
    user or to the room; the recipient then has a peer connection (a new
    one only if it had none), a registered callback, and is marked as
    ringing. *)
Theorem connectRTC_rings_recipient (st : State) (params : ConnectParams) :
  __socket st = Resolved OPEN ->
  media_allowed st (cp_mediaStream params) = true ->
  let recipient := cp_recipient params in
  let labels := map protocol_of (options_of params) in
  NoDup labels ->
  (forall x, x ∈ labels -> x ∉ map fst (default [] (__dataChannel st !! recipient))) ->
  UserId recipient = true \/ __socket_room st = Some recipient ->
  let r := connectRTC UserId params st in
  r_out r = Ok tt /\
  sent (r_log r) =
    [if UserId recipient
     then mkFrame rtc (Uid (Some recipient)) (CSdpOffer recipient)
     else mkFrame rtcBroadcast (Rid (Some recipient)) (CSdpOffer recipient)] /\
  created_connections (r_log r) =
    (if bool_decide (is_Some (__peerConnection st !! recipient)) then [] else [recipient]) /\
  is_Some (__peerConnection (r_st r) !! recipient) /\
  recipient ∈ peerCallbacks (r_st r) /\
  recipient ∈ __caller_ringing (r_st r).
Proof.
  intros Hsock Hmedia recipient labels Hnd Hfresh Haddr r.
  subst r. unfold connectRTC. rewrite await_socket_bind, Hsock.
  rewrite (bind_ok _ _ _ _ _ _ (media_guard_allowed _ _ Hmedia)), after_nil.
  fold recipient.
  destruct (connectRTC_prelude recipient (cp_ice params) (cp_mediaStream params) st)
    as (s4 & l4 & Hrun4 & Hdc4 & Hpc4 & Hcb4 & Hs4 & Hroom4 & Hsec4 & Hring4
        & Hsent4 & Hch4 & Hnew4).
  rewrite prelude_assoc, (bind_ok _ _ _ _ _ _ Hrun4).
  destruct (create_channels_run recipient (options_of params) s4 _ Hdc4)
    as (s5 & l5 & out5 & Hrun5 & Hgood & _).
  fold labels in Hgood.
  destruct (Hgood Hnd Hfresh) as (-> & -> & Hdc5).
  destruct (create_channels_frame recipient (options_of params) s4)
    as (s5' & l5' & out5' & Hrun5' & Hs5 & Hsent5 & Hnew5).
  rewrite Hrun5 in Hrun5'. injection Hrun5' as <- <-.
  rewrite (bind_ok _ _ _ _ _ _ Hrun5).
  assert (Hpc5 : is_Some (__peerConnection s5 !! recipient)) by (by rewrite Hs5).
  destruct Hpc5 as [pc Hpc5].
  assert (Hsock5 : __socket s5 = Resolved OPEN) by (rewrite Hs5; simpl; congruence).
  assert (Hroom5 : __socket_room s5 = __socket_room st) by (rewrite Hs5; simpl; congruence).
  assert (Hcb5 : peerCallbacks s5 = peerCallbacks s4) by (by rewrite Hs5).
  assert (Hoffer : sendOffer UserId recipient s5 =
                   mkRes s5
                     [CreateOffer recipient; SetLocalDescription recipient;
                      Send (if UserId recipient
                            then mkFrame rtc (Uid (Some recipient)) (CSdpOffer recipient)
                            else mkFrame rtcBroadcast (Rid (Some recipient))
                                   (CSdpOffer recipient))]
                     (Ok tt)).
  { rewrite (sendOffer_explicit s5 recipient OPEN pc Hsock5 Hpc5).
    destruct (UserId recipient); [reflexivity|].
    destruct Haddr as [? | Haddr]; [done|].
    by rewrite bool_decide_eq_true_2 by congruence. }
  rewrite (bind_ok _ _ _ _ _ _ Hoffer). unfold modify. simpl.
  rewrite !sent_app, !created_connections_app.
  rewrite Hsent4, Hsent5, Hnew4, Hnew5, Hcb5. simpl. rewrite app_nil_r.
  split; [reflexivity|]. split; [reflexivity|]. split; [reflexivity|].
  split; [by eexists|]. split; [exact Hcb4|].
  apply elem_of_union_l. by apply elem_of_singleton_2.
Qed.

(** X11. [connectRTC] acts on an open socket only. Without a connection
    it throws; on a socket that is closing or closed it returns without
    having created, sent or changed anything (the page check for media
    constraints apart, which throws before that). *)
Theorem connectRTC_needs_open_socket (st : State) (params : ConnectParams) :
  let r := connectRTC UserId params st in
  (__socket st = NoSocket -> r = mkRes st [] (Throw NoRealtimeConnection)) /\
  (forall rs, __socket st = Resolved rs -> rs <> OPEN ->
     r = mkRes st []
           (if media_allowed st (cp_mediaStream params) then Ok tt
            else Throw MediaNotSecure)).
Proof.
  intros r; subst r; unfold connectRTC. rewrite await_socket_bind. split.
  - by intros ->.
  - intros rs -> Hne.
    destruct (media_allowed st (cp_mediaStream params)) eqn:Hmedia.
    + rewrite (bind_ok _ _ _ _ _ _ (media_guard_allowed _ _ Hmedia)), after_nil.
      by destruct rs.
    + unfold media_allowed in Hmedia. unfold media_guard.
      destruct (cp_mediaStream params) as [| |video audio]; try discriminate.
      apply negb_false_iff in Hmedia. repeat mstep. by rewrite Hmedia, bind_throw.
Qed.

(** X12. The page check comes first. On a page that is neither localhost
    nor https, a call that asks for camera or microphone by constraints
    fails before anything is created, sent or changed: [receiveRTC] throws
    whatever the connection is, even when the call is being rejected, and
    [connectRTC] throws on any resolved connection. A [MediaStream] object
    and constraints that ask for nothing pass the check. *)
Theorem media_constraints_need_secure_page (st : State) (video audio : bool) :
  secure_context st = false ->
  video || audio = true ->
  (forall h ice reject,
     receiveRTC h (mkReceiveParams ice reject (MediaConstraints video audio)) st
     = mkRes st [] (Throw MediaNotSecure)) /\
  (forall recipient ice options rs,
     __socket st = Resolved rs ->
     connectRTC UserId
       (mkConnectParams recipient ice (MediaConstraints video audio) options) st
     = mkRes st [] (Throw MediaNotSecure)) /\
  (forall tracks, media_guard (MediaStreamObject tracks) st = mkRes st [] (Ok tt)) /\
  media_guard (MediaConstraints false false) st = mkRes st [] (Ok tt).
Proof.
  intros Hsec Hmedia.
  assert (Hguard : media_guard (MediaConstraints video audio) st
                   = mkRes st [] (Throw MediaNotSecure)).
  { unfold media_guard. mstep. by rewrite Hsec, Hmedia. }
  split; [|split; [|split]].
  - intros h ice reject. unfold receiveRTC. cbv zeta. simpl rp_mediaStream.
    by rewrite (bind_fail _ _ _ _ _ _ Hguard).
  - intros recipient ice options rs Hs. unfold connectRTC.
    rewrite await_socket_bind, Hs. simpl cp_mediaStream.
    by rewrite (bind_fail _ _ _ _ _ _ Hguard).
  - reflexivity.
  - unfold media_guard. by mstep.
Qed.

End Calling.

Lemma connectRTC_unreachable_recipient_witness :
  let params := mkConnectParams "room-9" None NoMedia None in
  let recipient := cp_recipient params in
  let labels := map protocol_of (options_of params) in
  let r := connectRTC sample_UserId params connected in
  r_out r = Throw (NotJoined recipient) /\
  sent (r_log r) = [] /\
  created_connections (r_log r) = [recipient] /\
  created_channels recipient (r_log r) = labels /\
  is_Some (__peerConnection (r_st r) !! recipient) /\
  __dataChannel (r_st r) !! recipient
    = Some (map (fun x => (x, chan_connecting)) labels) /\
  recipient ∈ peerCallbacks (r_st r) /\
  __caller_ringing (r_st r) = __caller_ringing connected /\
  exists x, x ∈ labels /\
    r_out (connectRTC sample_UserId params (r_st r)) = Throw (DuplicateDataChannel x).
Proof.
  apply (connectRTC_unreachable_recipient sample_UserId connected
           (mkConnectParams "room-9" None NoMedia None)).
  - reflexivity.
  - reflexivity.
  - reflexivity.
  - discriminate.
  - reflexivity.
  - reflexivity.
  - apply (bool_decide_unpack _). vm_compute. reflexivity.
  - discriminate.
Defined.

Lemma connectRTC_rings_recipient_witness :
  let recipient := cp_recipient call_params in
  let r := connectRTC sample_UserId call_params connected in
  r_out r = Ok tt /\
  sent (r_log r) =
    [if sample_UserId recipient
     then mkFrame rtc (Uid (Some recipient)) (CSdpOffer recipient)
     else mkFrame rtcBroadcast (Rid (Some recipient)) (CSdpOffer recipient)] /\
  created_connections (r_log r) =
    (if bool_decide (is_Some (__peerConnection connected !! recipient)) then []
     else [recipient]) /\
  is_Some (__peerConnection (r_st r) !! recipient) /\
  recipient ∈ peerCallbacks (r_st r) /\
  recipient ∈ __caller_ringing (r_st r).
Proof.
  apply (connectRTC_rings_recipient sample_UserId connected call_params).
  - reflexivity.
  - reflexivity.
  - apply (bool_decide_unpack _). vm_compute. exact I.
  - intros x _ Hx. by apply elem_of_nil in Hx.
  - left. reflexivity.
Defined.

Lemma sendOffer_addressing_witness :
  let r := sendOffer sample_UserId "u-2" calling in
  let created := [CreateOffer "u-2"; SetLocalDescription "u-2"] in
  r_st r = calling /\
  (sample_UserId "u-2" = true ->
     r_out r = Ok tt /\
     r_log r = created ++
       [Send (mkFrame rtc (Uid (Some "u-2")) (CSdpOffer "u-2"))]) /\
  (sample_UserId "u-2" = false -> __socket_room calling = Some "u-2" ->
     r_out r = Ok tt /\
     r_log r = created ++
       [Send (mkFrame rtcBroadcast (Rid (Some "u-2")) (CSdpOffer "u-2"))]) /\
  (sample_UserId "u-2" = false -> __socket_room calling <> Some "u-2" ->
     r_out r = Throw (NotJoined "u-2") /\ r_log r = created).
Proof.
  apply (sendOffer_addressing sample_UserId calling "u-2" OPEN (mkPeer conn_new));
    reflexivity.
Defined.

Lemma media_constraints_need_secure_page_witness :
  (forall h ice reject,
     receiveRTC h (mkReceiveParams ice reject (MediaConstraints true false))
       (initial "u-1" false)
     = mkRes (initial "u-1" false) [] (Throw MediaNotSecure)) /\
  (forall recipient ice options rs,
     __socket (initial "u-1" false) = Resolved rs ->
     connectRTC sample_UserId
       (mkConnectParams recipient ice (MediaConstraints true false) options)
       (initial "u-1" false)
     = mkRes (initial "u-1" false) [] (Throw MediaNotSecure)) /\
  (forall tracks,
     media_guard (MediaStreamObject tracks) (initial "u-1" false)
     = mkRes (initial "u-1" false) [] (Ok tt)) /\
  media_guard (MediaConstraints false false) (initial "u-1" false)
  = mkRes (initial "u-1" false) [] (Ok tt).
Proof.
  apply (media_constraints_need_secure_page sample_UserId (initial "u-1" false) true false);
    reflexivity.
Defined.

(** ** Inbound signaling *)

Lemma single_field (field g : string) (value : json) :
  truthy value = true ->
  get_truthy (JObj [(field, value)]) g =
  if bool_decide (field = g) then Some value else None.
Proof.
  intros Ht. unfold get_truthy, get. simpl.
  case_bool_decide; [by rewrite Ht|done].
Qed.

Section Inbound.

Variable decode : string -> option json.

(** A signaling frame from another user goes through the signaling block
    and then to the callback. *)
Lemma onmessage_signal (raw : string) (data : json) (from field : string)
    (value : json) (st : State) :
  decode raw = Some data ->
  signal_from data from field value ->
  from <> user_id st ->
  onmessage decode raw st =
  (out <- rtc_signal (make_msg data) ;;
   match out with
   | Some msg' => emit (Cb (EvMsg msg'))
   | None => ret tt
   end) st.
Proof.
  intros Hraw (Htype & _) _. unfold onmessage. rewrite Hraw. cbv zeta.
  rewrite Htype. by rewrite bind_ret.
Qed.

Lemma rtc_signal_offer (msg : Msg) (from : string) (o : json) (st : State) :
  sender msg = Some from -> message msg = JObj [("sdpoffer", o)] ->
  truthy o = true -> from <> user_id st ->
  rtc_signal msg st =
  match __peerConnection st !! from with
  | Some _ =>
      after (r_log (sdpanswer (Some from) o st)) (mkRes st [] (Ok (Some msg)))
  | None =>
      mkRes (set_rtcSdpOffer
               (<[from := default [] (__rtcSdpOffer st !! from) ++ [o]]> (__rtcSdpOffer st))
               (set_receiver_ringing ({[from]} ∪ __receiver_ringing st) st))
            []
            (Ok (Some (if bool_decide (from ∈ __receiver_ringing st) then msg
                       else mkMsg (type msg) (message msg) (sender msg)
                              (sender_cid msg) (sender_rid msg)
                              (Some (mkReceiver (Some from) (message msg))))))
  end.
Proof.
  intros Hfrom Hmsg Ht Hme. unfold rtc_signal.
  rewrite bind_read, Hfrom.
  rewrite bool_decide_eq_false_2 by congruence.
  rewrite Hmsg, !(single_field _ _ _ Ht). simpl key.
  rewrite !bool_decide_eq_false_2 by done.
  rewrite bool_decide_eq_true_2 by done.
  repeat mstep. unfold key.
  destruct (__peerConnection st !! from) as [pc|] eqn:Hpc.
  - repeat mstep. unfold detached at 1. unfold bind at 1.
    assert (Hsame : r_st (sdpanswer (Some from) o st) = st).
    { unfold sdpanswer. rewrite bind_read. rewrite await_socket_bind.
      unfold key. rewrite Hpc. destruct (__socket st); reflexivity. }
    destruct (sdpanswer (Some from) o st) as [s1 l1 out1]. simpl in Hsame. subst s1.
    simpl. repeat mstep. by rewrite app_nil_r.
  - repeat mstep.
    unfold has_truthy. rewrite (single_field _ _ _ Ht).
    rewrite (bool_decide_eq_false_2 ("sdpoffer" = "dataChannels")) by done.
    destruct (__rtcSdpOffer st !! from) as [offers|] eqn:Hoff.
    + repeat mstep. simpl. rewrite Hoff. reflexivity.
    + repeat mstep. simpl. rewrite lookup_insert_eq. simpl.
      rewrite insert_insert_eq. reflexivity.
Qed.


Lemma rtc_signal_candidate (msg : Msg) (from : string) (c : json) (st : State) :
  sender msg = Some from -> message msg = JObj [("candidate", c)] ->
  truthy c = true -> from <> user_id st ->
  rtc_signal msg st =
  match __peerConnection st !! from with
  | Some _ => mkRes st [AddIceCandidate from c] (Ok (Some msg))
  | None =>
      mkRes (set_rtcCandidates
               (<[from := default [] (__rtcCandidates st !! from) ++ [c]]>
                  (__rtcCandidates st)) st)
            [] (Ok (Some msg))
  end.
Proof.
  intros Hfrom Hmsg Ht Hme. unfold rtc_signal.
  rewrite bind_read, Hfrom.
  rewrite bool_decide_eq_false_2 by congruence.
  rewrite Hmsg, !(single_field _ _ _ Ht). simpl key.
  rewrite !bool_decide_eq_false_2 by done.
  rewrite bool_decide_eq_true_2 by done.
  repeat mstep. unfold key.
  destruct (__peerConnection st !! from) as [pc|] eqn:Hpc.
  - unfold detached, addIceCandidate. simpl key. unfold bind at 1.
    rewrite bind_read, Hpc. simpl. by repeat mstep.
  - by repeat mstep.
Qed.

Lemma rtc_signal_pickup (msg : Msg) (from : string) (v : json) (st : State) :
  sender msg = Some from -> message msg = JObj [("pickup", v)] ->
  truthy v = true -> from <> user_id st ->
  rtc_signal msg st =
  if bool_decide (from ∈ __caller_ringing st)
  then match __peerConnection st !! from with
       | Some _ =>
           mkRes (set_caller_ringing (__caller_ringing st ∖ {[from]}) st)
                 [PeerCb from RtcPickup] (Ok (Some msg))
       | None => mkRes st [] (Throw TypeError)
       end
  else mkRes st [] (Ok (Some msg)).
Proof.
  intros Hfrom Hmsg Ht Hme. unfold rtc_signal.
  rewrite bind_read, Hfrom.
  rewrite bool_decide_eq_false_2 by congruence.
  rewrite Hmsg, !(single_field _ _ _ Ht). simpl key.
  rewrite !bool_decide_eq_false_2 by done.
  rewrite bool_decide_eq_true_2 by done.
  repeat mstep. unfold key, when, caller_pickup.
  destruct (bool_decide (from ∈ __caller_ringing st)).
  - repeat mstep.
    destruct (__peerConnection st !! from) as [pc|]; by repeat mstep.
  - by repeat mstep.
Qed.

Lemma rtc_signal_answer (msg : Msg) (from : string) (a : json) (st : State) :
  sender msg = Some from -> message msg = JObj [("sdpanswer", a)] ->
  truthy a = true -> from <> user_id st ->
  rtc_signal msg st =
  match __peerConnection st !! from with
  | Some _ => mkRes st [SetRemoteDescription from a] (Ok (Some msg))
  | None => mkRes st [] (Throw TypeError)
  end.
Proof.
  intros Hfrom Hmsg Ht Hme. unfold rtc_signal.
  rewrite bind_read, Hfrom.
  rewrite bool_decide_eq_false_2 by congruence.
  rewrite Hmsg, !(single_field _ _ _ Ht). simpl key.
  rewrite !bool_decide_eq_false_2 by done.
  rewrite bool_decide_eq_true_2 by done.
  repeat mstep. unfold key.
  destruct (__peerConnection st !! from) as [pc|]; by repeat mstep.
Qed.

(** X13. A rejected call stays marked as ringing. The first offer of a
    caller reaches the callback together with the function to pick up or
    reject; rejecting sends the reject frame and changes nothing, so the
    caller is still marked as ringing and its offer is still buffered: the
    next offer of the same caller reaches the callback without such a
    function and is buffered behind the first. *)
Theorem rejected_caller_rings_without_handle (st : State) (rs : ReadyState)
    (raw1 raw2 : string) (data1 data2 : json) (from : string) (o1 o2 : json)
    (params : ReceiveParams) :
  decode raw1 = Some data1 -> signal_from data1 from "sdpoffer" o1 ->
  decode raw2 = Some data2 -> signal_from data2 from "sdpoffer" o2 ->
  from <> user_id st ->
  __peerConnection st !! from = None ->
  from ∉ __receiver_ringing st ->
  __socket st = Resolved rs ->
  rp_reject params = true ->
  media_allowed st (rp_mediaStream params) = true ->
  let first := onmessage decode raw1 st in
  let h := mkReceiver (Some from) (message (make_msg data1)) in
  let rejected := receiveRTC h params (r_st first) in
  let second := onmessage decode raw2 (r_st rejected) in
  handles (r_log first) = [Some h] /\
  r_log rejected = [Send (mkFrame rtc (Uid (Some from)) CReject)] /\
  r_st rejected = r_st first /\
  handles (r_log second) = [None] /\
  __rtcSdpOffer (r_st second) !! from
    = Some (default [] (__rtcSdpOffer st !! from) ++ [o1; o2]).
Proof.
  intros Hraw1 Hsig1 Hraw2 Hsig2 Hme Hpc Hring Hsock Hrej Hmedia first h rejected second.
  assert (Hfirst : exists s1,
            first = mkRes s1 [Cb (EvMsg (mkMsg (type (make_msg data1))
                                           (message (make_msg data1))
                                           (sender (make_msg data1))
                                           (sender_cid (make_msg data1))
                                           (sender_rid (make_msg data1))
                                           (Some h)))] (Ok tt) /\
            __peerConnection s1 !! from = None /\
            from ∈ __receiver_ringing s1 /\
            __socket s1 = Resolved rs /\
            secure_context s1 = secure_context st /\
            user_id s1 = user_id st /\
            __rtcSdpOffer s1 !! from = Some (default [] (__rtcSdpOffer st !! from) ++ [o1])).
  { subst first. rewrite (onmessage_signal raw1 data1 from _ _ st Hraw1 Hsig1 Hme).
    destruct Hsig1 as (_ & Hfrom & Hmsg & Ht).
    pose proof (rtc_signal_offer _ from o1 st Hfrom Hmsg Ht Hme) as Hrun.
    rewrite Hpc, bool_decide_eq_false_2 in Hrun by done.
    rewrite (bind_ok _ _ _ _ _ _ Hrun).
    eexists. split; [reflexivity|]. simpl.
    repeat split; try done.
    - apply elem_of_union_l. by apply elem_of_singleton_2.
    - apply lookup_insert_eq. }
  destruct Hfirst as (s1 & Hf & Hpc1 & Hring1 & Hsock1 & Hsec1 & Hme1 & Hoff1).
  assert (Hrejected : rejected = mkRes s1 [Send (mkFrame rtc (Uid (Some from)) CReject)] (Ok tt)).
  { subst rejected. rewrite Hf. simpl r_st. unfold receiveRTC. cbv zeta.
    assert (Hmedia1 : media_allowed s1 (rp_mediaStream params) = true).
    { revert Hmedia. unfold media_allowed. by rewrite Hsec1. }
    rewrite (bind_ok _ _ _ _ _ _ (media_guard_allowed _ _ Hmedia1)), after_nil.
    rewrite await_socket_bind, Hsock1, Hrej. reflexivity. }
  subst second. rewrite Hrejected, Hf. simpl r_st; simpl r_log.
  split; [reflexivity|]. split; [reflexivity|]. split; [reflexivity|].
  assert (Hme1' : from <> user_id s1) by congruence.
  rewrite (onmessage_signal raw2 data2 from _ _ s1 Hraw2 Hsig2 Hme1').
  destruct Hsig2 as (_ & Hfrom & Hmsg & Ht).
  pose proof (rtc_signal_offer _ from o2 s1 Hfrom Hmsg Ht Hme1') as Hrun.
  rewrite Hpc1, bool_decide_eq_true_2 in Hrun by done.
  rewrite (bind_ok _ _ _ _ _ _ Hrun).
  simpl. split; [reflexivity|].
  rewrite lookup_insert_eq, Hoff1. simpl. by rewrite <- app_assoc.
Qed.

(** X14. Signaling for a call that has a peer connection is applied at
    once: an offer is set as the remote description and answered with one
    answer frame to its sender, a candidate is added to the connection, an
    answer is set as the remote description; nothing is buffered, the state
    of the module is unchanged and the frame reaches the callback, without
    a function to pick up. *)
Theorem signaling_on_live_connection (st : State) (rs : ReadyState)
    (pc : PeerConnection) (raw : string) (data : json) (from field : string)
    (value : json) :
  decode raw = Some data ->
  signal_from data from field value ->
  field ∈ ["sdpoffer"; "candidate"; "sdpanswer"] ->
  from <> user_id st ->
  __peerConnection st !! from = Some pc ->
  __socket st = Resolved rs ->
  let r := onmessage decode raw st in
  r_out r = Ok tt /\
  r_st r = st /\
  callbacks (r_log r) = [EvMsg (make_msg data)] /\
  applied from (r_log r) =
    (if bool_decide (field = "candidate") then [IceCandidate value]
     else [RemoteDescription value]) /\
  sent (r_log r) =
    (if bool_decide (field = "sdpoffer")
     then [mkFrame rtc (Uid (Some from)) (CSdpAnswer from value)]
     else []).
Proof.
  intros Hraw Hsig Hfield Hme Hpc Hsock r. subst r.
  rewrite (onmessage_signal raw data from _ _ st Hraw Hsig Hme).
  destruct Hsig as (_ & Hfrom & Hmsg & Ht).
  apply elem_of_cons in Hfield as [-> | Hfield];
    [|apply elem_of_cons in Hfield as [-> | Hfield];
      [|apply list_elem_of_singleton in Hfield as ->]].
  - pose proof (rtc_signal_offer _ from value st Hfrom Hmsg Ht Hme) as Hrun.
    rewrite Hpc, (sdpanswer_run (Some from) value st rs pc Hsock Hpc) in Hrun.
    rewrite (bind_ok _ _ _ _ _ _ Hrun). simpl.
    rewrite !bool_decide_eq_true_2 by done. done.
  - pose proof (rtc_signal_candidate _ from value st Hfrom Hmsg Ht Hme) as Hrun.
    rewrite Hpc in Hrun. rewrite (bind_ok _ _ _ _ _ _ Hrun). simpl.
    rewrite !bool_decide_eq_true_2 by done. done.
  - pose proof (rtc_signal_answer _ from value st Hfrom Hmsg Ht Hme) as Hrun.
    rewrite Hpc in Hrun. rewrite (bind_ok _ _ _ _ _ _ Hrun). simpl.
    rewrite !bool_decide_eq_true_2 by done. done.
Qed.

(** X15. The answer to a call is reported once. A pickup frame from a
    peer that is marked as ringing and has a peer connection calls the
    callback of the peer with the pickup event, clears the mark and reaches
    the realtime callback; the same frame arriving again only reaches the
    realtime callback. *)
Theorem caller_pickup_once (st : State) (pc : PeerConnection)
    (raw : string) (data : json) (from : string) (value : json) :
  decode raw = Some data ->
  signal_from data from "pickup" value ->
  from <> user_id st ->
  from ∈ __caller_ringing st ->
  __peerConnection st !! from = Some pc ->
  let r := onmessage decode raw st in
  r = mkRes (set_caller_ringing (__caller_ringing st ∖ {[from]}) st)
            [PeerCb from RtcPickup; Cb (EvMsg (make_msg data))] (Ok tt) /\
  onmessage decode raw (r_st r) = mkRes (r_st r) [Cb (EvMsg (make_msg data))] (Ok tt).
Proof.
  intros Hraw Hsig Hme Hring Hpc r.
  assert (Hr : r = mkRes (set_caller_ringing (__caller_ringing st ∖ {[from]}) st)
                     [PeerCb from RtcPickup; Cb (EvMsg (make_msg data))] (Ok tt)).
  { subst r. rewrite (onmessage_signal raw data from _ _ st Hraw Hsig Hme).
    destruct Hsig as (_ & Hfrom & Hmsg & Ht).
    pose proof (rtc_signal_pickup _ from value st Hfrom Hmsg Ht Hme) as Hrun.
    rewrite bool_decide_eq_true_2, Hpc in Hrun by done.
    by rewrite (bind_ok _ _ _ _ _ _ Hrun). }
  split; [exact Hr|]. rewrite Hr. simpl r_st.
  set (s1 := set_caller_ringing _ st).
  assert (Hme1 : from <> user_id s1) by done.
  rewrite (onmessage_signal raw data from _ _ s1 Hraw Hsig Hme1).
  destruct Hsig as (_ & Hfrom & Hmsg & Ht).
  pose proof (rtc_signal_pickup _ from value s1 Hfrom Hmsg Ht Hme1) as Hrun.
  rewrite bool_decide_eq_false_2 in Hrun.
  - by rewrite (bind_ok _ _ _ _ _ _ Hrun).
  - subst s1. simpl. rewrite elem_of_difference, elem_of_singleton. tauto.
Qed.

(** X16. Signaling that arrives after the caller has hung up is lost
    with an exception. [closeRTC] removes the peer connection but leaves
    the peer marked as ringing; a pickup frame from that peer, and likewise
    an answer frame, then makes the message handler throw before it reaches
    the realtime callback, with nothing changed. *)
Theorem late_signal_after_hangup (st : State) (pc : PeerConnection) (peer : string)
    (raw_pickup raw_answer : string) (data_pickup data_answer : json)
    (value answer : json) :
  peer <> EmptyString ->
  __peerConnection st !! peer = Some pc ->
  peer ∈ peerCallbacks st ->
  peer ∈ __caller_ringing st ->
  peer <> user_id st ->
  decode raw_pickup = Some data_pickup ->
  signal_from data_pickup peer "pickup" value ->
  decode raw_answer = Some data_answer ->
  signal_from data_answer peer "sdpanswer" answer ->
  let hung_up := r_st (closeRTC (Some peer) st) in
  onmessage decode raw_pickup hung_up = mkRes hung_up [] (Throw TypeError) /\
  onmessage decode raw_answer hung_up = mkRes hung_up [] (Throw TypeError).
Proof.
  intros Hne Hpc Hcb Hring Hme Hraw1 Hsig1 Hraw2 Hsig2 hung_up. subst hung_up.
  rewrite (closeRTC_run st peer pc Hne Hpc Hcb). simpl r_st.
  set (s1 := set_peerConnection _ _).
  assert (Hpc1 : __peerConnection s1 !! peer = None) by apply lookup_delete_eq.
  assert (Hme1 : peer <> user_id s1) by done.
  assert (Hring1 : peer ∈ __caller_ringing s1) by done.
  split.
  - rewrite (onmessage_signal raw_pickup data_pickup peer _ _ s1 Hraw1 Hsig1 Hme1).
    destruct Hsig1 as (_ & Hfrom & Hmsg & Ht).
    apply bind_fail.
    rewrite (rtc_signal_pickup _ peer value s1 Hfrom Hmsg Ht Hme1).
    rewrite bool_decide_eq_true_2 by done. by rewrite Hpc1.
  - rewrite (onmessage_signal raw_answer data_answer peer _ _ s1 Hraw2 Hsig2 Hme1).
    destruct Hsig2 as (_ & Hfrom & Hmsg & Ht).
    apply bind_fail.
    rewrite (rtc_signal_answer _ peer answer s1 Hfrom Hmsg Ht Hme1).
    by rewrite Hpc1.
Qed.

(** X17. Frames that are not membership or signaling business go to the
    callback as they are, and the state of the module does not change: a
    message or private frame, a signaling frame the user sent itself, and
    any notice while no room is joined. *)
Theorem onmessage_passthrough (st : State) (raw : string) (data : json) :
  decode raw = Some data ->
  let msg := make_msg data in
  type msg = Tmessage \/ type msg = Tprivate \/
  (type msg = Trtc /\ sender msg = Some (user_id st)) \/
  (type msg = Tnotice /\ joined_room st = None) ->
  onmessage decode raw st = mkRes st [Cb (EvMsg msg)] (Ok tt).
Proof.
  intros Hraw msg Hcase. unfold onmessage. rewrite Hraw. cbv zeta. fold msg.
  destruct Hcase as [Ht | [Ht | [[Ht Hself] | [Ht Hroom]]]]; rewrite Ht.
  - by repeat mstep.
  - by repeat mstep.
  - repeat mstep. unfold rtc_signal. rewrite bind_assoc, bind_read.
    rewrite bool_decide_eq_true_2 by done. by repeat mstep.
  - unfold notice, notice_branch. repeat mstep.
    unfold joined_room in Hroom.
    destruct (falsy_str (__socket_room st)) eqn:Hf.
    + by repeat mstep.
    + destruct (__socket_room st); [discriminate|]. done.
Qed.

End Inbound.

Lemma rejected_caller_rings_without_handle_witness :
  let first := onmessage sample_decode "offer-1" connected in
  let h := mkReceiver (Some "u-2")
             (message (make_msg (rtc_frame "u-2" "sdpoffer" offer1))) in
  let rejected := receiveRTC h reject_params (r_st first) in
  let second := onmessage sample_decode "offer-2" (r_st rejected) in
  handles (r_log first) = [Some h] /\
  r_log rejected = [Send (mkFrame rtc (Uid (Some "u-2")) CReject)] /\
  r_st rejected = r_st first /\
  handles (r_log second) = [None] /\
  __rtcSdpOffer (r_st second) !! "u-2"
    = Some (default [] (__rtcSdpOffer connected !! "u-2") ++ [offer1; offer2]).
Proof.
  apply (rejected_caller_rings_without_handle sample_decode connected OPEN
           "offer-1" "offer-2"
           (rtc_frame "u-2" "sdpoffer" offer1) (rtc_frame "u-2" "sdpoffer" offer2)
           "u-2" offer1 offer2 reject_params).
  - reflexivity.
  - repeat split.
  - reflexivity.
  - repeat split.
  - discriminate.
  - reflexivity.
  - apply (bool_decide_unpack _). vm_compute. exact I.
  - reflexivity.
  - reflexivity.
  - reflexivity.
Defined.

Lemma signaling_on_live_connection_witness :
  let r := onmessage sample_decode "offer-1" calling in
  r_out r = Ok tt /\
  r_st r = calling /\
  callbacks (r_log r) = [EvMsg (make_msg (rtc_frame "u-2" "sdpoffer" offer1))] /\
  applied "u-2" (r_log r) =
    (if bool_decide ("sdpoffer" = "candidate") then [IceCandidate offer1]
     else [RemoteDescription offer1]) /\
  sent (r_log r) =
    (if bool_decide ("sdpoffer" = "sdpoffer")
     then [mkFrame rtc (Uid (Some "u-2")) (CSdpAnswer "u-2" offer1)]
     else []).
Proof.
  apply (signaling_on_live_connection sample_decode calling OPEN (mkPeer conn_new)
           "offer-1" (rtc_frame "u-2" "sdpoffer" offer1) "u-2" "sdpoffer" offer1).
  - reflexivity.
  - repeat split.
  - apply (bool_decide_unpack _). vm_compute. exact I.
  - discriminate.
  - reflexivity.
  - reflexivity.
Defined.

Lemma caller_pickup_once_witness :
  let r := onmessage sample_wire "pickup" calling in
  r = mkRes (set_caller_ringing (__caller_ringing calling ∖ {["u-2"]}) calling)
            [PeerCb "u-2" RtcPickup;
             Cb (EvMsg (make_msg (rtc_frame "u-2" "pickup" (JBool true))))] (Ok tt) /\
  onmessage sample_wire "pickup" (r_st r)
  = mkRes (r_st r) [Cb (EvMsg (make_msg (rtc_frame "u-2" "pickup" (JBool true))))] (Ok tt).
Proof.
  apply (caller_pickup_once sample_wire calling (mkPeer conn_new)
           "pickup" (rtc_frame "u-2" "pickup" (JBool true)) "u-2" (JBool true)).
  - reflexivity.
  - repeat split.
  - discriminate.
  - apply (bool_decide_unpack _). vm_compute. exact I.
  - reflexivity.
Defined.

Lemma late_signal_after_hangup_witness :
  let hung_up := r_st (closeRTC (Some "u-2") calling) in
  onmessage sample_wire "pickup" hung_up = mkRes hung_up [] (Throw TypeError) /\
  onmessage sample_wire "answer-1" hung_up = mkRes hung_up [] (Throw TypeError).
Proof.
  apply (late_signal_after_hangup sample_wire calling (mkPeer conn_new) "u-2"
           "pickup" "answer-1"
           (rtc_frame "u-2" "pickup" (JBool true)) (rtc_frame "u-2" "sdpanswer" answer1)
           (JBool true) answer1).
  - discriminate.
  - reflexivity.
  - apply (bool_decide_unpack _). vm_compute. exact I.
  - apply (bool_decide_unpack _). vm_compute. exact I.
  - discriminate.
  - reflexivity.
  - repeat split.
  - reflexivity.
  - repeat split.
Defined.

Lemma onmessage_passthrough_witness :
  onmessage sample_decode "hello" in_lobby
  = mkRes in_lobby
      [Cb (EvMsg (make_msg (JObj [("#message", JStr "hello"); ("#user_id", JStr "u-2")])))]
      (Ok tt).
Proof.
  apply (onmessage_passthrough sample_decode in_lobby "hello"
           (JObj [("#message", JStr "hello"); ("#user_id", JStr "u-2")])).
  - reflexivity.
  - left. reflexivity.
Defined.

(** ** Signals that arrive before the call is accepted *)

Section Buffering.

Variable decode : string -> option json.

(** Offers and candidates of a user without a peer connection are put into
    the two buffers, each kind in the order of arrival; nothing is applied. *)
Lemma deliver_signals (from : string) (raws : list string) (sigs : list Signal) :
  Forall2 (is_signal decode from) raws sigs ->
  forall s,
    from <> user_id s ->
    __peerConnection s !! from = None ->
    exists s' l,
      deliver decode raws s = mkRes s' l (Ok tt) /\
      applied from l = [] /\
      default [] (__rtcSdpOffer s' !! from)
        = default [] (__rtcSdpOffer s !! from) ++ offers_of sigs /\
      default [] (__rtcCandidates s' !! from)
        = default [] (__rtcCandidates s !! from) ++ candidates_of sigs /\
      __peerConnection s' = __peerConnection s /\
      __socket s' = __socket s.
Proof.
  induction 1 as [|raw sig raws sigs (data & Hraw & Hsig) _ IH]; intros s Hme Hpc.
  - exists s, []. by rewrite !app_nil_r.
  - unfold deliver. simpl for_each. fold (deliver decode raws).
    assert (Hone : exists s1 l1 out1,
              onmessage decode raw s = mkRes s1 l1 out1 /\
              applied from l1 = [] /\
              default [] (__rtcSdpOffer s1 !! from)
                = default [] (__rtcSdpOffer s !! from) ++ offers_of [sig] /\
              default [] (__rtcCandidates s1 !! from)
                = default [] (__rtcCandidates s !! from) ++ candidates_of [sig] /\
              __peerConnection s1 = __peerConnection s /\
              __socket s1 = __socket s /\
              user_id s1 = user_id s).
    { destruct sig as [o | c].
      - rewrite (onmessage_signal decode raw data from _ _ s Hraw Hsig Hme).
        destruct Hsig as (_ & Hfrom & Hmsg & Ht).
        pose proof (rtc_signal_offer _ from o s Hfrom Hmsg Ht Hme) as Hrun.
        rewrite Hpc in Hrun. rewrite (bind_ok _ _ _ _ _ _ Hrun).
        simpl. eexists _, _, _. split; [reflexivity|]. simpl.
        rewrite lookup_insert_eq, app_nil_r. by repeat split.
      - rewrite (onmessage_signal decode raw data from _ _ s Hraw Hsig Hme).
        destruct Hsig as (_ & Hfrom & Hmsg & Ht).
        pose proof (rtc_signal_candidate _ from c s Hfrom Hmsg Ht Hme) as Hrun.
        rewrite Hpc in Hrun. rewrite (bind_ok _ _ _ _ _ _ Hrun).
        simpl. eexists _, _, _. split; [reflexivity|]. simpl.
        rewrite lookup_insert_eq, app_nil_r. by repeat split. }
    destruct Hone as (s1 & l1 & out1 & Hrun1 & Hl1 & Ho1 & Hc1 & Hpc1 & Hs1 & Hu1).
    destruct (IH s1) as (s' & l & Hrun & Hl & Ho & Hc & Hpc' & Hs');
      [congruence|congruence|].
    unfold bind, detached. rewrite Hrun1. cbv beta iota. rewrite Hrun.
    simpl after. eexists _, _. split; [reflexivity|].
    rewrite applied_app, Hl1, Hl, Ho, Ho1, Hc, Hc1, Hpc', Hpc1, Hs', Hs1.
    rewrite <- !app_assoc.
    assert (Hos : offers_of (sig :: sigs) = offers_of [sig] ++ offers_of sigs)
      by (by destruct sig).
    assert (Hcs : candidates_of (sig :: sigs) = candidates_of [sig] ++ candidates_of sigs)
      by (by destruct sig).
    rewrite Hos, Hcs. by repeat split.
Qed.

(** X18. Buffered signals are applied offers first. While a user has no
    peer connection, its offers and candidates are buffered in whatever
    order they arrive and nothing is applied. Accepting the call then
    applies all the offers in their order of arrival, after them all the
    candidates in theirs, and finally, once more, the offer that came with
    the function used to accept. *)
Theorem buffered_signals_applied_offers_first (st : State) (rs : ReadyState)
    (from : string) (raws : list string) (sigs : list Signal)
    (h : RTCreceiver) (params : ReceiveParams) (o again : json) (os : list json) :
  Forall2 (is_signal decode from) raws sigs ->
  from <> user_id st ->
  __socket st = Resolved rs ->
  __peerConnection st !! from = None ->
  __rtcSdpOffer st !! from = None ->
  __rtcCandidates st !! from = None ->
  offers_of sigs = o :: os ->
  h_sender h = Some from ->
  get_truthy (h_rtc h) "sdpoffer" = Some again ->
  rp_reject params = false ->
  rp_mediaStream params = NoMedia ->
  let arrived := deliver decode raws st in
  let accepted := receiveRTC h params (r_st arrived) in
  r_out arrived = Ok tt /\
  applied from (r_log arrived) = [] /\
  __rtcSdpOffer (r_st arrived) !! from = Some (offers_of sigs) /\
  default [] (__rtcCandidates (r_st arrived) !! from) = candidates_of sigs /\
  r_out accepted = Ok tt /\
  applied from (r_log accepted) =
    map RemoteDescription (offers_of sigs) ++ map IceCandidate (candidates_of sigs)
      ++ [RemoteDescription again].
Proof.
  intros Hall Hme Hsock Hpc Hoffers Hcands Hsome Hfrom Hagain Hrej Hmedia arrived accepted.
  destruct (deliver_signals from raws sigs Hall st Hme Hpc)
    as (s' & l & Hrun & Hl & Ho & Hc & Hpc' & Hs').
  subst accepted arrived. rewrite Hrun. simpl r_out; simpl r_log; simpl r_st.
  rewrite Hoffers in Ho. rewrite Hcands in Hc. simpl in Ho, Hc.
  assert (Ho' : __rtcSdpOffer s' !! from = Some (o :: os)).
  { rewrite Hsome in Ho. by destruct (__rtcSdpOffer s' !! from); simpl in Ho; subst. }
  destruct (receiveRTC_accept_applied s' h params o os (candidates_of sigs) rs)
    as (s'' & l'' & Haccept & Happlied); rewrite ?Hfrom; simpl key;
    try done; try congruence.
  rewrite Haccept. simpl r_out; simpl r_log.
  rewrite Hfrom in Happlied. simpl key in Happlied.
  rewrite Happlied, Hagain, Hsome, Ho'.
  by repeat split.
Qed.

End Buffering.

Lemma buffered_signals_applied_offers_first_witness :
  let sigs := [IceCandidate candidate1; RemoteDescription offer1;
               IceCandidate candidate2; RemoteDescription offer2] in
  let arrived :=
    deliver sample_decode ["candidate-1"; "offer-1"; "candidate-2"; "offer-2"] connected in
  let accepted := receiveRTC first_offer_handle accept_params (r_st arrived) in
  r_out arrived = Ok tt /\
  applied "u-2" (r_log arrived) = [] /\
  __rtcSdpOffer (r_st arrived) !! "u-2" = Some (offers_of sigs) /\
  default [] (__rtcCandidates (r_st arrived) !! "u-2") = candidates_of sigs /\
  r_out accepted = Ok tt /\
  applied "u-2" (r_log accepted) =
    map RemoteDescription (offers_of sigs) ++ map IceCandidate (candidates_of sigs)
      ++ [RemoteDescription offer1].
Proof.
  apply (buffered_signals_applied_offers_first sample_decode connected OPEN "u-2"
           ["candidate-1"; "offer-1"; "candidate-2"; "offer-2"]
           [IceCandidate candidate1; RemoteDescription offer1;
            IceCandidate candidate2; RemoteDescription offer2]
           first_offer_handle accept_params offer1 offer1 [offer2]).
  - repeat constructor; eexists; (split; [reflexivity|repeat split]).
  - discriminate.
  - reflexivity.
  - reflexivity.
  - reflexivity.
  - reflexivity.
  - reflexivity.
  - reflexivity.
  - reflexivity.
  - reflexivity.
  - reflexivity.
Defined.

Lemma sent_answers (k : string) (from : option string) (offers : list json) :
  sent (flat_map (answer_log k from) offers)
  = map (fun o => mkFrame rtc (Uid from) (CSdpAnswer k o)) offers.
Proof.
  induction offers as [|o offers IH]; [reflexivity|].
  change (flat_map (answer_log k from) (o :: offers))
    with (answer_log k from o ++ flat_map (answer_log k from) offers).
  rewrite sent_app, IH. reflexivity.
Qed.

Lemma peer_events_answers (k : string) (from : option string) (offers : list json) :
  peer_events k (flat_map (answer_log k from) offers) = [].
Proof.
  induction offers as [|o offers IH]; [reflexivity|].
  change (flat_map (answer_log k from) (o :: offers))
    with (answer_log k from o ++ flat_map (answer_log k from) offers).
  by rewrite peer_events_app, IH.
Qed.

Lemma sent_candidates (k : string) (candidates : list json) :
  sent (map (AddIceCandidate k) candidates) = [] /\
  peer_events k (map (AddIceCandidate k) candidates) = [].
Proof. induction candidates as [|c candidates IH]; [done|exact IH]. Qed.

(** X19. Accepting a call uses up what was buffered for it. With offers
    of the caller buffered and no peer connection yet, accepting returns
    after it has sent one answer for every buffered offer, one more for the
    offer that came with the function, and then the pickup frame, and has
    told the callback of the caller about the pickup once. Afterwards the
    caller has a peer connection and a registered callback, nothing of it
    is left in the two buffers, and it is no longer marked as ringing. *)
Theorem accept_uses_up_buffers (s : State) (h : RTCreceiver) (params : ReceiveParams)
    (o : json) (os : list json) (rs : ReadyState) :
  rp_reject params = false ->
  rp_mediaStream params = NoMedia ->
  __socket s = Resolved rs ->
  __peerConnection s !! key (h_sender h) = None ->
  __rtcSdpOffer s !! key (h_sender h) = Some (o :: os) ->
  let k := key (h_sender h) in
  let again := match get_truthy (h_rtc h) "sdpoffer" with
               | Some a => [a]
               | None => []
               end in
  let r := receiveRTC h params s in
  r_out r = Ok tt /\
  sent (r_log r) =
    map (fun x => mkFrame rtc (Uid (h_sender h)) (CSdpAnswer k x)) ((o :: os) ++ again)
      ++ [mkFrame rtc (Uid (h_sender h)) CPickup] /\
  peer_events k (r_log r) = [RtcPickup] /\
  is_Some (__peerConnection (r_st r) !! k) /\
  k ∈ peerCallbacks (r_st r) /\
  __rtcSdpOffer (r_st r) !! k = None /\
  default [] (__rtcCandidates (r_st r) !! k) = [] /\
  k ∉ __receiver_ringing (r_st r).
Proof.
  intros Hrej Hmedia Hsock Hpc Hoffers k again r.
  assert (Hrun : exists s' l,
            receiveRTC h params s = mkRes s' l (Ok tt) /\
            sent l =
              map (fun x => mkFrame rtc (Uid (h_sender h)) (CSdpAnswer k x))
                  ((o :: os) ++ again)
                ++ [mkFrame rtc (Uid (h_sender h)) CPickup] /\
            peer_events k l = [RtcPickup] /\
            is_Some (__peerConnection s' !! k) /\
            k ∈ peerCallbacks s' /\
            __rtcSdpOffer s' !! k = None /\
            default [] (__rtcCandidates s' !! k) = [] /\
            k ∉ __receiver_ringing s').
  { clear r. unfold receiveRTC, await_socket. cbv zeta.
    set (from := h_sender h) in *. fold k.
    rewrite Hmedia, Hrej. simpl media_guard. simpl attach_media.
    repeat mstep. rewrite Hsock. repeat mstep.
    unfold ensure_peerConnection. repeat mstep. fold k in Hpc. rewrite Hpc.
    repeat mstep. unfold ensure_dataChannel. repeat mstep.
    set (s3 := match __dataChannel _ !! k with Some _ => _ | None => _ end).
    assert (Hsock3 : __socket s3 = Resolved rs).
    { subst s3. simpl. by destruct (__dataChannel s !! k). }
    assert (Hpc3 : __peerConnection s3 !! k = Some (mkPeer conn_new)).
    { subst s3. simpl. destruct (__dataChannel s !! k); simpl; apply lookup_insert_eq. }
    assert (Hoffers3 : __rtcSdpOffer s3 !! k = Some (o :: os)).
    { subst s3. simpl. by destruct (__dataChannel s !! k). }
    assert (Hcb3 : k ∈ peerCallbacks s3).
    { subst s3. simpl. destruct (__dataChannel s !! k); simpl;
        apply elem_of_union_l; by apply elem_of_singleton_2. }
    clearbody s3.
    rewrite Hoffers3. rewrite !bind_assoc.
    rewrite (bind_ok _ _ _ _ _ _ (sdpanswers_run from (o :: os) s3 rs _ Hsock3 Hpc3)).
    repeat mstep. simpl __rtcCandidates.
    set (s4 := set_rtcSdpOffer _ s3).
    assert (Htail : forall s5,
              __socket s5 = Resolved rs ->
              __peerConnection s5 !! k = Some (mkPeer conn_new) ->
              exists l6,
                (match get_truthy (h_rtc h) "sdpoffer" with
                 | Some a => sdpanswer from a
                 | None => ret tt
                 end;;;
                 emit (Send (mkFrame rtc (Uid from) CPickup));;;
                 emit (PeerCb k RtcPickup);;;
                 modify (fun s => set_receiver_ringing (__receiver_ringing s ∖ {[k]}) s)) s5
                = mkRes (set_receiver_ringing (__receiver_ringing s5 ∖ {[k]}) s5) l6 (Ok tt) /\
                sent l6 = map (fun x => mkFrame rtc (Uid from) (CSdpAnswer k x)) again
                            ++ [mkFrame rtc (Uid from) CPickup] /\
                peer_events k l6 = [RtcPickup]).
    { intros s5 Hs5 Hp5. subst again.
      destruct (get_truthy (h_rtc h) "sdpoffer") as [a|].
      - rewrite (bind_ok _ _ _ _ _ _ (sdpanswer_run from a s5 rs _ Hs5 Hp5)).
        repeat mstep. unfold modify. simpl. eexists. split; [reflexivity|].
        unfold peer_events. simpl. by rewrite bool_decide_eq_true_2.
      - repeat mstep. unfold modify. simpl. eexists. split; [reflexivity|].
        unfold peer_events. simpl. by rewrite bool_decide_eq_true_2. }
    assert (Hend : forall s5,
              __peerConnection s5 !! k = Some (mkPeer conn_new) ->
              k ∈ peerCallbacks s5 ->
              __rtcSdpOffer s5 !! k = None ->
              default [] (__rtcCandidates s5 !! k) = [] ->
              let s6 := set_receiver_ringing (__receiver_ringing s5 ∖ {[k]}) s5 in
              is_Some (__peerConnection s6 !! k) /\
              k ∈ peerCallbacks s6 /\
              __rtcSdpOffer s6 !! k = None /\
              default [] (__rtcCandidates s6 !! k) = [] /\
              k ∉ __receiver_ringing s6).
    { intros s5 Hp5 Hc5 Ho5 Hcand5 s6. subst s6. simpl.
      split; [by eexists|]. split; [done|]. split; [done|]. split; [done|].
      rewrite elem_of_difference, elem_of_singleton. tauto. }
    destruct (__rtcCandidates s3 !! k) as [[|c cs']|] eqn:Hbuf.
    - repeat mstep. destruct (Htail s4 Hsock3 Hpc3) as (l6 & -> & Hsent6 & Hev6).
      rewrite !after_mkRes. eexists _, _. split; [reflexivity|].
      rewrite !sent_app, !peer_events_app, sent_answers, peer_events_answers, Hsent6, Hev6.
      rewrite map_app, <- app_assoc.
      split; [reflexivity|]. split; [reflexivity|].
      apply Hend; try done.
      + apply lookup_delete_eq.
      + simpl. by rewrite Hbuf.
    - rewrite !bind_assoc.
      rewrite (bind_ok _ _ _ _ _ _ (candidates_run from (c :: cs') s4 _ Hpc3)).
      repeat mstep. change (key from) with k.
      set (s5 := set_rtcCandidates _ s4).
      destruct (Htail s5 Hsock3 Hpc3) as (l6 & -> & Hsent6 & Hev6).
      rewrite !after_mkRes. eexists _, _. split; [reflexivity|].
      destruct (sent_candidates k (c :: cs')) as [Hsc Hec].
      rewrite !sent_app, !peer_events_app, sent_answers, peer_events_answers,
        Hsc, Hec, Hsent6, Hev6.
      rewrite map_app, <- app_assoc.
      split; [reflexivity|]. split; [reflexivity|].
      apply Hend; try done.
      + apply lookup_delete_eq.
      + subst s5. simpl. by rewrite lookup_delete_eq.
    - repeat mstep. destruct (Htail s4 Hsock3 Hpc3) as (l6 & -> & Hsent6 & Hev6).
      rewrite !after_mkRes. eexists _, _. split; [reflexivity|].
      rewrite !sent_app, !peer_events_app, sent_answers, peer_events_answers, Hsent6, Hev6.
      rewrite map_app, <- app_assoc.
      split; [reflexivity|]. split; [reflexivity|].
      apply Hend; try done.
      + apply lookup_delete_eq.
      + simpl. by rewrite Hbuf. }
  destruct Hrun as (s' & l & Hrun & Hfacts). subst r. rewrite Hrun.
  split; [reflexivity|exact Hfacts].
Qed.

Lemma accept_uses_up_buffers_witness :
  let s := r_st (deliver sample_decode ["offer-1"; "candidate-1"; "offer-2"] connected) in
  let k := key (h_sender first_offer_handle) in
  let again := match get_truthy (h_rtc first_offer_handle) "sdpoffer" with
               | Some a => [a]
               | None => []
               end in
  let r := receiveRTC first_offer_handle accept_params s in
  r_out r = Ok tt /\
  sent (r_log r) =
    map (fun x => mkFrame rtc (Uid (h_sender first_offer_handle)) (CSdpAnswer k x))
        ((offer1 :: [offer2]) ++ again)
      ++ [mkFrame rtc (Uid (h_sender first_offer_handle)) CPickup] /\
  peer_events k (r_log r) = [RtcPickup] /\
  is_Some (__peerConnection (r_st r) !! k) /\
  k ∈ peerCallbacks (r_st r) /\
  __rtcSdpOffer (r_st r) !! k = None /\
  default [] (__rtcCandidates (r_st r) !! k) = [] /\
  k ∉ __receiver_ringing (r_st r).
Proof.
  apply (accept_uses_up_buffers
           (r_st (deliver sample_decode ["offer-1"; "candidate-1"; "offer-2"] connected))
           first_offer_handle accept_params offer1 [offer2] OPEN);
    reflexivity.
Defined.

(** ** The membership map *)

Section Preserves.

Context {A B : Type} (P : State -> Prop).

Lemma preserves_ret (a : A) : preserves P (ret a).
Proof. by intros s. Qed.

Lemma preserves_throw (e : Error) : preserves P (throw (A := A) e).
Proof. by intros s. Qed.

Lemma preserves_blocked : preserves P (blocked (A := A)).
Proof. by intros s. Qed.

Lemma preserves_read (f : State -> A) : preserves P (read f).
Proof. by intros s. Qed.

Lemma preserves_emit (e : Effect) : preserves P (emit e).
Proof. by intros s. Qed.

Lemma preserves_modify (f : State -> State) :
  (forall s, P s -> P (f s)) -> preserves P (modify f).
Proof. intros H s Hs. by apply H. Qed.

Lemma preserves_bind (m : M A) (f : A -> M B) :
  preserves P m -> (forall a, preserves P (f a)) -> preserves P (bind m f).
Proof.
  intros Hm Hf s Hs. specialize (Hm s Hs). unfold bind.
  destruct (m s) as [s1 l1 [a|e|]]; simpl in *; try done.
  rewrite r_st_after. by apply Hf.
Qed.

Lemma preserves_detached (m : M A) : preserves P m -> preserves P (detached m).
Proof.
  intros Hm s Hs. specialize (Hm s Hs). unfold detached.
  by destruct (m s) as [s1 l1 out].
Qed.

Lemma preserves_try_catch (body handler : M A) :
  preserves P body -> preserves P handler -> preserves P (try_catch body handler).
Proof.
  intros Hb Hh s Hs. specialize (Hb s Hs). unfold try_catch.
  destruct (body s) as [s1 l1 [a|e|]]; simpl in *; try done.
  rewrite r_st_after. by apply Hh.
Qed.

Lemma preserves_for_each (l : list A) (body : A -> M unit) :
  (forall x, preserves P (body x)) -> preserves P (for_each l body).
Proof.
  intros Hbody. induction l as [|x l IH]; [by intros s|].
  simpl. intros s Hs. specialize (Hbody x s Hs). unfold bind.
  destruct (body x s) as [s1 l1 [[]|e|]]; simpl in *; try done.
  rewrite r_st_after. by apply IH.
Qed.

End Preserves.

Lemma preserves_when (P : State -> Prop) (b : bool) (m : M unit) :
  preserves P m -> preserves P (when b m).
Proof. intros Hm. destruct b; [done|by intros s]. Qed.

(** Break a computation down to the places where it writes the state. *)
Ltac pres :=
  repeat first
    [ apply preserves_ret | apply preserves_throw | apply preserves_blocked
    | apply preserves_read | apply preserves_emit
    | apply preserves_detached | apply preserves_when
    | apply preserves_try_catch
    | apply preserves_for_each; intros ?
    | apply preserves_bind; [|intros ?]
    | progress cbv zeta
    | match goal with
      | |- preserves _ (match ?x with _ => _ end) => destruct x
      end ].

Lemma connections_set_connections (m : gmap string (gmap string (list cid)))
    (group user : string) (l : list cid) (g u : string) :
  connections (set_connections m group user l) g u =
  if bool_decide (g = group /\ u = user) then l else connections m g u.
Proof.
  unfold connections, set_connections.
  destruct (decide (g = group)) as [-> | Hg].
  - rewrite lookup_insert_eq.
    destruct (decide (u = user)) as [-> | Hu].
    + rewrite bool_decide_eq_true_2 by done.
      destruct l; [by rewrite lookup_delete_eq|by rewrite lookup_insert_eq].
    + rewrite bool_decide_eq_false_2 by (by intros [_ ?]).
      destruct l; rewrite ?lookup_delete_ne, ?lookup_insert_ne by done;
        destruct (m !! group); simpl; by rewrite ?lookup_empty.
  - rewrite lookup_insert_ne by done.
    by rewrite bool_decide_eq_false_2 by (by intros [? _]).
Qed.

(** The connection ids of every user after one notice, read off the map the
    handler leaves. *)
Lemma connections_code_update (group : string)
    (m : gmap string (gmap string (list cid))) (n : Notice) (g u : string) :
  no_empty_entry m ->
  connections (code_update group m n) g u =
  match n with
  | Joined user c =>
      if bool_decide (g = group /\ u = user)
      then (if bool_decide (c ∈ connections m group user)
            then connections m group user
            else connections m group user ++ [c])
      else connections m g u
  | Left user c =>
      if bool_decide (g = group /\ u = user)
      then filter (fun v => v ≠ c) (connections m group user)
      else connections m g u
  end.
Proof.
  intros Hwf. rewrite (code_update_spec group m n Hwf).
  destruct n as [user c | user c]; simpl.
  - case_bool_decide as Hin.
    + case_bool_decide as Hat; [by destruct Hat as [-> ->]|done].
    + apply connections_set_connections.
  - case_bool_decide as Hin.
    + apply connections_set_connections.
    + case_bool_decide as Hat; [|done]. destruct Hat as [-> ->].
      by rewrite filter_all_ne.
Qed.

Lemma code_update_well_formed (group : string)
    (m : gmap string (gmap string (list cid))) (n : Notice) :
  well_formed m -> well_formed (code_update group m n).
Proof.
  intros [Hne Hnd]. split; [by apply code_update_no_empty|].
  intros g u. rewrite (connections_code_update group m n g u Hne).
  destruct n as [user c | user c]; case_bool_decide; try apply Hnd.
  - case_bool_decide as Hin; [apply Hnd|].
    apply NoDup_app. split; [apply Hnd|]. split.
    + intros x Hx Hc. apply list_elem_of_singleton in Hc. by subst x.
    + apply NoDup_singleton.
  - apply NoDup_filter, Hnd.
Qed.

Lemma merge_well_formed (group : string) (entries : list (string * string)) :
  forall m, well_formed m -> well_formed (fold_left (merge_entry group) entries m).
Proof.
  induction entries as [|e entries IH]; intros m Hwf; [done|].
  simpl. apply IH.
  apply (code_update_well_formed group m (Joined (fst e) (Some (snd e))) Hwf).
Qed.

Lemma well_formed_empty : well_formed ∅.
Proof.
  split; [apply no_empty_entry_empty|]. intros g u. unfold connections.
  rewrite lookup_empty. constructor.
Qed.

Section Tracker.

Variable decode : string -> option json.

(** X20. The membership map stays well formed. If no user is tracked
    with an empty list of connection ids or with the same connection id
    twice, this is still so after the handler has run for any frame at
    all, and after any membership query has settled, whatever it settles
    with. *)
Theorem tracker_keeps_map_well_formed (st : State) :
  well_formed (__roomList st) ->
  (forall raw, well_formed (__roomList (r_st (onmessage decode raw st)))) /\
  (forall req reply, well_formed (__roomList (r_st (settle req reply st)))).
Proof.
  intros Hwf. split.
  - intros raw. revert st Hwf.
    change (preserves (fun s => well_formed (__roomList s)) (onmessage decode raw)).
    unfold onmessage.
    pres; try (unfold notice_branch; pres);
      apply preserves_modify; intros sx Hsx; simpl;
      first [ done
            | by destruct (__rtcSdpOffer sx !! _)
            | apply (code_update_well_formed _ _ (Left _ _) Hsx)
            | apply (code_update_well_formed _ _ (Joined _ _) Hsx) ].
  - intros req reply. revert st Hwf.
    change (preserves (fun s => well_formed (__roomList s)) (settle req reply)).
    unfold settle.
    pres; apply preserves_modify; intros sx Hsx; simpl;
      first [ done
            | by apply merge_well_formed
            | apply (code_update_well_formed _ _ (Left _ _) Hsx)
            | apply (code_update_well_formed _ _ (Joined _ _) Hsx) ].
Qed.

End Tracker.

Lemma well_formed_lobby_tracked : well_formed lobby_tracked.
Proof.
  split; [apply lobby_tracked_no_empty|]. intros g u. unfold connections, lobby_tracked.
  destruct (decide (g = "lobby")) as [-> | Hg].
  - rewrite lookup_singleton_eq. simpl.
    destruct (decide (u = "u-2")) as [-> | Hu].
    + rewrite lookup_singleton_eq. simpl. apply NoDup_singleton.
    + rewrite lookup_singleton_ne by done. constructor.
  - rewrite lookup_singleton_ne by done. constructor.
Qed.

Lemma tracker_keeps_map_well_formed_witness :
  (forall raw,
     well_formed (__roomList (r_st (onmessage sample_decode raw in_lobby_with_u2)))) /\
  (forall req reply,
     well_formed (__roomList (r_st (settle req reply in_lobby_with_u2)))).
Proof.
  apply (tracker_keeps_map_well_formed sample_decode in_lobby_with_u2).
  exact well_formed_lobby_tracked.
Defined.

Lemma tracked_iff_connections (group user : string)
    (m : gmap string (gmap string (list cid))) :
  no_empty_entry m ->
  tracked_user group user m = true <-> connections m group user <> [].
Proof.
  intros Hne. rewrite tracked_user_spec. unfold connections. split.
  - intros (users & Hg & [l Hl]). rewrite Hg, Hl. simpl. by eapply Hne.
  - destruct (m !! group) as [users|] eqn:Hg; [|done].
    destruct (users !! user) as [l|] eqn:Hu; [|done].
    intros _. exists users. split; [done|]. by rewrite Hu.
Qed.

Lemma tracked_user_connections (group user : string)
    (m : gmap string (gmap string (list cid))) :
  no_empty_entry m ->
  tracked_user group user m = bool_decide (connections m group user <> []).
Proof.
  intros Hne. pose proof (tracked_iff_connections group user m Hne) as Hiff.
  destruct (tracked_user group user m); symmetry.
  - apply bool_decide_eq_true_2. by apply Hiff.
  - apply bool_decide_eq_false_2. intros H. apply Hiff in H. discriminate.
Qed.

Lemma returns_early_kept_quiet (group : string)
    (m : gmap string (gmap string (list cid))) (n : Notice) :
  no_empty_entry m -> returns_early group m n = kept_quiet group m n.
Proof.
  intros Hne. destruct n as [user c | user c]; unfold returns_early, kept_quiet.
  - by apply tracked_user_connections.
  - change (leave_update group user c m) with (code_update group m (Left user c)).
    rewrite (code_update_spec group m _ Hne).
    apply tracked_user_connections. by apply spec_replay_no_empty.
Qed.

Section NoticeDelivery.

Variable decode : string -> option json.

(** X31. Which membership notices reach the callback. With a room
    joined, no query for it pending and no user tracked with an empty list,
    the handler of a join, leave or disconnect notice replays the notice on
    the membership map and returns. It calls the callback with the frame
    after the update, except for a join of a user who has a tracked
    connection id already and for a leave or disconnect after which the
    user still has one: for those the callback is not called. A handler
    that waited for a query and goes on after it does the same. *)
Theorem notice_delivery (st : State) (raw : string) (data : json)
    (group : string) (n : Notice) :
  decode raw = Some data ->
  notice_of data = Some n ->
  joined_room st = Some group ->
  __roomPending st !! group = None ->
  no_empty_entry (__roomList st) ->
  onmessage decode raw st =
    mkRes (set_roomList (spec_replay group (__roomList st) n) st)
          (if kept_quiet group (__roomList st) n then []
           else [Cb (EvMsg (make_msg data))])
          (Ok tt) /\
  (forall w s,
     __socket_room s = Some group ->
     no_empty_entry (__roomList s) ->
     let nw := notice_as (w_leave w) (w_msg w) in
     resume w s =
       mkRes (set_roomList (spec_replay group (__roomList s) nw) s)
             (if kept_quiet group (__roomList s) nw then []
              else [Cb (EvMsg (w_msg w))])
             (Ok tt)).
Proof.
  intros Hraw Hn Hroom Hpending Hwf. split.
  - rewrite (onmessage_notice decode raw data n group st Hroom Hpending Hraw Hn).
    by rewrite (code_update_spec group _ n Hwf), (returns_early_kept_quiet group _ n Hwf).
  - intros w s Hs Hwfs nw. rewrite (resume_run group w s Hs). fold nw.
    by rewrite (code_update_spec group _ nw Hwfs),
               (returns_early_kept_quiet group _ nw Hwfs).
Qed.

End NoticeDelivery.

(** X31 on the sample session: a join notice for a second connection of
    "u-2", who is tracked in the lobby, is applied and not passed on. *)
Lemma notice_delivery_witness :
  onmessage sample_decode "joined-c2" in_lobby_with_u2 =
    mkRes (set_roomList (spec_replay "lobby" (__roomList in_lobby_with_u2)
                           (Joined "u-2" (Some "scid:c2"))) in_lobby_with_u2)
          (if kept_quiet "lobby" (__roomList in_lobby_with_u2)
                (Joined "u-2" (Some "scid:c2")) then []
           else [Cb (EvMsg (make_msg
                   (notice_frame "u-2" "c2" "u-2 has joined the message group.")))])
          (Ok tt) /\
  (forall w s,
     __socket_room s = Some "lobby" ->
     no_empty_entry (__roomList s) ->
     let nw := notice_as (w_leave w) (w_msg w) in
     resume w s =
       mkRes (set_roomList (spec_replay "lobby" (__roomList s) nw) s)
             (if kept_quiet "lobby" (__roomList s) nw then []
              else [Cb (EvMsg (w_msg w))])
             (Ok tt)).
Proof.
  apply (notice_delivery sample_decode in_lobby_with_u2 "joined-c2"
           (notice_frame "u-2" "c2" "u-2 has joined the message group.")
           "lobby" (Joined "u-2" (Some "scid:c2"))).
  - reflexivity.
  - reflexivity.
  - reflexivity.
  - reflexivity.
  - exact lobby_tracked_no_empty.
Defined.

Section RoundTrip.

Variable decode : string -> option json.

(** X21. A join notice for a new connection id followed by the leave
    notice of that connection id leaves every user with the connection ids
    it had. The callback gets both notices when the sender was not tracked
    before, and neither of them when it was. *)
Theorem join_then_leave_restores (st : State) (group : string)
    (raw_join raw_leave : string) (data_join data_leave : json)
    (user : string) (c : cid) :
  joined_room st = Some group ->
  __roomPending st !! group = None ->
  no_empty_entry (__roomList st) ->
  decode raw_join = Some data_join ->
  notice_of data_join = Some (Joined user c) ->
  decode raw_leave = Some data_leave ->
  notice_of data_leave = Some (Left user c) ->
  c ∉ connections (__roomList st) group user ->
  let r := deliver decode [raw_join; raw_leave] st in
  r_out r = Ok tt /\
  (forall g u, connections (__roomList (r_st r)) g u = connections (__roomList st) g u) /\
  callbacks (r_log r) =
    (if tracked_user group user (__roomList st) then []
     else [EvMsg (make_msg data_join); EvMsg (make_msg data_leave)]).
Proof.
  intros Hroom Hpending Hne Hrawj Hj Hrawl Hl Hnew r. subst r.
  unfold deliver. simpl for_each.
  set (m := __roomList st) in *.
  set (m1 := code_update group m (Joined user c)).
  assert (Hne1 : no_empty_entry m1) by (by apply code_update_no_empty).
  assert (Hback : forall g u,
            connections (code_update group m1 (Left user c)) g u = connections m g u).
  { intros g u. rewrite (connections_code_update group m1 _ g u Hne1).
    unfold m1. rewrite !(connections_code_update group m _ _ _ Hne).
    case_bool_decide as Hat; [|done]. destruct Hat as [-> ->].
    rewrite bool_decide_eq_true_2 by done.
    rewrite bool_decide_eq_false_2 by done.
    rewrite filter_app, (filter_all_ne _ _ Hnew).
    rewrite filter_cons_False, filter_nil by (by intros H; apply H).
    by rewrite app_nil_r. }
  pose proof (onmessage_notice decode raw_join data_join _ group st
                Hroom Hpending Hrawj Hj) as Hrun1.
  fold m in Hrun1. fold m1 in Hrun1.
  set (s1 := set_roomList m1 st) in *.
  pose proof (onmessage_notice decode raw_leave data_leave _ group s1
                Hroom Hpending Hrawl Hl) as Hrun2.
  change (__roomList s1) with m1 in Hrun2.
  unfold bind, detached. rewrite Hrun1. cbv beta iota. rewrite Hrun2.
  simpl. split; [reflexivity|]. split; [exact Hback|].
  rewrite app_nil_r, callbacks_app.
  assert (Hearly : tracked_user group user (leave_update group user c m1)
                   = tracked_user group user m).
  { apply eq_true_iff_eq.
    rewrite (tracked_after_leave group user c m1).
    change (leave_update group user c m1) with (code_update group m1 (Left user c)).
    by rewrite Hback, (tracked_iff_connections group user m Hne). }
  rewrite Hearly.
  by destruct (tracked_user group user m).
Qed.

End RoundTrip.

Lemma join_then_leave_restores_witness :
  let r := deliver sample_decode ["joined-c2"; "left-c2"] in_lobby_with_u2 in
  r_out r = Ok tt /\
  (forall g u, connections (__roomList (r_st r)) g u
               = connections (__roomList in_lobby_with_u2) g u) /\
  callbacks (r_log r) =
    (if tracked_user "lobby" "u-2" (__roomList in_lobby_with_u2) then []
     else [EvMsg (make_msg (notice_frame "u-2" "c2" "u-2 has joined the message group."));
           EvMsg (make_msg (notice_frame "u-2" "c2" "u-2 has been disconnected."))]).
Proof.
  apply (join_then_leave_restores sample_decode in_lobby_with_u2 "lobby"
           "joined-c2" "left-c2"
           (notice_frame "u-2" "c2" "u-2 has joined the message group.")
           (notice_frame "u-2" "c2" "u-2 has been disconnected.")
           "u-2" (Some "scid:c2")).
  - reflexivity.
  - reflexivity.
  - exact lobby_tracked_no_empty.
  - reflexivity.
  - reflexivity.
  - reflexivity.
  - reflexivity.
  - apply (bool_decide_unpack _). vm_compute. exact I.
Defined.

(** ** Membership queries, continued *)

(** The connection ids tracked after a response has been merged are those
    tracked before together with those of the response. *)
Lemma merge_connections (group : string) (entries : list (string * string)) :
  forall m, no_empty_entry m ->
  forall g u c,
    c ∈ connections (fold_left (merge_entry group) entries m) g u <->
    c ∈ connections m g u \/
    (g = group /\ exists c', c = Some c' /\ (u, c') ∈ entries).
Proof.
  induction entries as [|[u0 c0] entries IH]; intros m Hne g u c.
  - simpl. split; [by left|]. intros [H | (_ & c' & _ & H)]; [done|].
    by apply elem_of_nil in H.
  - simpl fold_left. unfold merge_entry at 2. simpl fst. simpl snd.
    change (join_update group u0 (Some c0) m)
      with (code_update group m (Joined u0 (Some c0))).
    rewrite IH by (by apply code_update_no_empty).
    rewrite (connections_code_update group m _ g u Hne).
    split.
    + intros [Hin | (-> & c' & -> & Hin)].
      * case_bool_decide as Hat; [|by left]. destruct Hat as [-> ->].
        case_bool_decide as Hold; [by left|].
        apply elem_of_app in Hin as [Hin | Hin]; [by left|].
        apply list_elem_of_singleton in Hin as ->.
        right. split; [done|]. exists c0. split; [done|]. left.
      * right. split; [done|]. exists c'. split; [done|]. by right.
    + intros [Hin | (-> & c' & -> & Hin)].
      * left. case_bool_decide as Hat; [|done]. destruct Hat as [-> ->].
        case_bool_decide; [done|]. apply elem_of_app. by left.
      * apply elem_of_cons in Hin as [[= -> ->] | Hin].
        -- left. rewrite bool_decide_eq_true_2 by done.
           case_bool_decide; [done|]. apply elem_of_app. right. left.
        -- right. split; [done|]. by exists c'.
Qed.

Lemma no_waiters (p : nat) (ws : list Waiter) :
  Forall (fun w => w_promise w <> p) ws ->
  filter (fun w => w_promise w ≠ p) ws = ws /\
  filter (fun w => w_promise w = p) ws = [].
Proof.
  induction 1 as [|w ws Hw _ [IH1 IH2]]; [done|].
  rewrite filter_cons_True, filter_cons_False by done. by rewrite IH1, IH2.
Qed.

(** X22. A fulfilled unfiltered query adds its response to the
    membership map and takes nothing away: with no handler waiting on it,
    the connection ids tracked afterwards are exactly those tracked before
    together with those of the response, for the group of the query, and
    the callback is not called. A query filtered by user leaves the map as
    it is. *)
Theorem fulfilled_query_merges_response (st : State) (p : nat) (group : string)
    (user : option string) (entries : list (string * string)) :
  inflight st !! p = Some (group, user) ->
  no_empty_entry (__roomList st) ->
  Forall (fun w => w_promise w <> p) (waiting st) ->
  let r := settle p (Fulfilled entries) st in
  r_out r = Ok tt /\
  r_log r = [] /\
  (falsy_str user = true ->
     forall g u c,
       c ∈ connections (__roomList (r_st r)) g u <->
       c ∈ connections (__roomList st) g u \/
       (g = group /\ exists c', c = Some c' /\ (u, c') ∈ entries)) /\
  (falsy_str user = false -> __roomList (r_st r) = __roomList st).
Proof.
  intros Hq Hne Hws r. subst r. unfold settle.
  repeat mstep. rewrite Hq. cbv iota beta.
  repeat mstep. unfold when.
  destruct (no_waiters p _ Hws) as [Hkeep Hnone].
  destruct (falsy_str user) eqn:Huser; repeat mstep; simpl waiting;
    rewrite Hnone; simpl.
  - repeat split; try done.
    + intros Hin. by apply (merge_connections group entries _ Hne).
    + intros Hin. by apply (merge_connections group entries _ Hne).
  - repeat split; done.
Qed.

Lemma fulfilled_query_merges_response_witness :
  let st := r_st (getRealtimeUsers "lobby" None in_lobby_with_u2) in
  let r := settle 0 (Fulfilled [("u-2", "c9"); ("u-3", "c1")]) st in
  r_out r = Ok tt /\
  r_log r = [] /\
  (falsy_str None = true ->
     forall g u c,
       c ∈ connections (__roomList (r_st r)) g u <->
       c ∈ connections (__roomList st) g u \/
       (g = "lobby" /\ exists c', c = Some c' /\ (u, c') ∈ [("u-2", "c9"); ("u-3", "c1")])) /\
  (falsy_str None = false -> __roomList (r_st r) = __roomList st).
Proof.
  apply (fulfilled_query_merges_response
           (r_st (getRealtimeUsers "lobby" None in_lobby_with_u2)) 0 "lobby" None
           [("u-2", "c9"); ("u-3", "c1")]).
  - reflexivity.
  - exact lobby_tracked_no_empty.
  - constructor.
Defined.

Lemma resume_keeps_queries (P : State -> Prop) (w : Waiter) :
  (forall s v, P s -> P (set_roomList v s)) ->
  preserves P (resume w).
Proof.
  intros HP. unfold resume, notice_leave, notice_join.
  pres; apply preserves_modify; intros s Hs; by apply HP.
Qed.

(** X23. The bookkeeping of the membership queries stays consistent.
    [getRealtimeUsers] hands back a promise that is in flight for the
    group asked about, be it a new request or the pending one it shares;
    once a promise has settled it is no longer in flight, no pending entry
    names it, and settling it again does nothing. *)
Theorem queries_stay_consistent (st : State) :
  queries_consistent st ->
  (forall group user,
     let r := getRealtimeUsers group user st in
     queries_consistent (r_st r) /\
     forall p, r_out r = Ok p ->
       exists u, inflight (r_st r) !! p = Some (group, u) /\
                 falsy_str u = falsy_str user) /\
  (forall p reply,
     let r := settle p reply st in
     queries_consistent (r_st r) /\
     inflight (r_st r) !! p = None /\
     forall reply', settle p reply' (r_st r) = mkRes (r_st r) [] (Ok tt)).
Proof.
  intros [Hfresh Hpending]. split.
  - intros group user r. subst r. unfold getRealtimeUsers.
    case_bool_decide as Hgroup; [by split|].
    mstep.
    destruct (falsy_str user) eqn:Huser, (__roomPending st !! group) as [p0|] eqn:Hp0.
    + (* the pending query is shared *)
      simpl. split; [by split|]. intros p [= <-].
      destruct (Hpending group p0 Hp0) as (u & Hu & Hf). by exists u.
    + (* a new unfiltered request, recorded as pending *)
      repeat mstep. unfold when. repeat mstep. simpl. rewrite Hp0.
      unfold ret. simpl. split; [split|].
      * intros p q Hq. simpl in Hq |- *.
        destruct (decide (p = next_promise st)) as [-> | Hne]; [lia|].
        rewrite lookup_insert_ne in Hq by done. apply Hfresh in Hq. lia.
      * intros g p Hg. simpl in Hg. simpl.
        destruct (decide (g = group)) as [-> | Hneg].
        -- rewrite lookup_insert_eq in Hg. injection Hg as <-.
           rewrite lookup_insert_eq. by exists user.
        -- rewrite lookup_insert_ne in Hg by done.
           destruct (Hpending g p Hg) as (u & Hu & Hf). exists u. split; [|done].
           rewrite lookup_insert_ne; [done|].
           intros <-. apply Hfresh in Hu. lia.
      * intros p [= <-]. exists user. by rewrite lookup_insert_eq.
    + (* a filtered request while a query is pending *)
      repeat mstep. unfold when. repeat mstep. unfold ret. simpl.
      split; [split|].
      * intros p q Hq. simpl in Hq |- *.
        destruct (decide (p = next_promise st)) as [-> | Hne]; [lia|].
        rewrite lookup_insert_ne in Hq by done. apply Hfresh in Hq. lia.
      * intros g p Hg. simpl in Hg. simpl.
        destruct (Hpending g p Hg) as (u & Hu & Hf). exists u. split; [|done].
        rewrite lookup_insert_ne; [done|].
        intros <-. apply Hfresh in Hu. lia.
      * intros p [= <-]. exists user. by rewrite lookup_insert_eq.
    + (* a filtered request, nothing pending *)
      repeat mstep. unfold when. repeat mstep. unfold ret. simpl.
      split; [split|].
      * intros p q Hq. simpl in Hq |- *.
        destruct (decide (p = next_promise st)) as [-> | Hne]; [lia|].
        rewrite lookup_insert_ne in Hq by done. apply Hfresh in Hq. lia.
      * intros g p Hg. simpl in Hg. simpl.
        destruct (Hpending g p Hg) as (u & Hu & Hf). exists u. split; [|done].
        rewrite lookup_insert_ne; [done|].
        intros <-. apply Hfresh in Hu. lia.
      * intros p [= <-]. exists user. by rewrite lookup_insert_eq.
  - intros p reply r.
    assert (Hr : queries_consistent (r_st r) /\ inflight (r_st r) !! p = None).
    { subst r. unfold settle. mstep.
      destruct (inflight st !! p) as [[group user]|] eqn:Hq.
      - set (P := fun s => queries_consistent s /\ inflight s !! p = None).
        assert (HP3 : forall s',
                  inflight s' = delete p (inflight st) ->
                  next_promise s' = next_promise st ->
                  __roomPending s' = delete group (__roomPending st) ->
                  P s').
        { intros s' Hi Hn Hp. split; [split|].
          - rewrite Hi, Hn. intros p' q Hq'.
            apply lookup_delete_Some in Hq' as [_ Hq']. by apply Hfresh in Hq'.
          - rewrite Hi, Hp. intros g p' Hg.
            apply lookup_delete_Some in Hg as [Hneg Hg].
            destruct (Hpending g p' Hg) as (u & Hu & Hf). exists u. split; [|done].
            rewrite lookup_delete_ne; [done|].
            intros <-. rewrite Hq in Hu. by injection Hu as -> _.
          - rewrite Hi. apply lookup_delete_eq. }
        assert (Hrest : forall s, P s ->
                  P (r_st ((waiters <- read waiting ;;
                            modify (set_waiting (filter (fun w => w_promise w ≠ p) waiters)) ;;;
                            match reply with
                            | Fulfilled _ =>
                                for_each (filter (fun w => w_promise w = p) waiters)
                                         (fun w => detached (resume w))
                            | Rejected => ret tt
                            end) s))).
        { change (preserves P (waiters <- read waiting ;;
                    modify (set_waiting (filter (fun w => w_promise w ≠ p) waiters)) ;;;
                    match reply with
                    | Fulfilled _ =>
                        for_each (filter (fun w => w_promise w = p) waiters)
                                 (fun w => detached (resume w))
                    | Rejected => ret tt
                    end)).
          pres; first [ apply preserves_modify; by intros s Hs
                      | apply resume_keeps_queries; by intros s v Hs ]. }
        rewrite bind_modify.
        destruct reply as [entries|]; unfold when;
          [destruct (falsy_str user)|];
          rewrite ?bind_ret, ?bind_modify; apply Hrest, HP3; reflexivity.
      - simpl. by split. }
    destruct Hr as [Hc Hnone]. split; [exact Hc|]. split; [exact Hnone|].
    intros reply'. unfold settle. mstep. by rewrite Hnone.
Qed.

Lemma connected_queries_consistent : queries_consistent connected.
Proof.
  split.
  - intros p q Hq. simpl in Hq. by rewrite lookup_empty in Hq.
  - intros g p Hg. simpl in Hg. by rewrite lookup_empty in Hg.
Qed.

Lemma queries_stay_consistent_witness :
  let st := r_st (getRealtimeUsers "lobby" None connected) in
  (forall group user,
     let r := getRealtimeUsers group user st in
     queries_consistent (r_st r) /\
     forall p, r_out r = Ok p ->
       exists u, inflight (r_st r) !! p = Some (group, u) /\
                 falsy_str u = falsy_str user) /\
  (forall p reply,
     let r := settle p reply st in
     queries_consistent (r_st r) /\
     inflight (r_st r) !! p = None /\
     forall reply', settle p reply' (r_st r) = mkRes (r_st r) [] (Ok tt)).
Proof.
  apply (queries_stay_consistent (r_st (getRealtimeUsers "lobby" None connected))).
  exact (proj1 (proj1 (queries_stay_consistent connected connected_queries_consistent)
                  "lobby" None)).
Defined.

(** * Properties of the records module *)

Section RecordIds.

Import Records.
Local Open Scope Z_scope.

Lemma indexOf_range (c : ascii) (s : string) :
  indexOf c s = -1 \/ 0 <= indexOf c s < Z.of_nat (String.length s).
Proof.
  induction s as [|d s IH]; simpl; [by left|].
  destruct (Ascii.eqb d c); [right; lia|].
  destruct (indexOf c s <? 0) eqn:Hneg; [by left|].
  apply Z.ltb_ge in Hneg. right. lia.
Qed.

Lemma reduce_cons (c : ascii) (l : list ascii) (i : Z) (prev : option Z) :
  reduce (c :: l) i prev =
  reduce l (i + 1)
    (match prev, pow62 i with
     | Some prev, Some power =>
         Some (nearest_double (prev + nearest_double (indexOf c charset * power)))
     | _, _ => None
     end).
Proof. reflexivity. Qed.

Lemma reduce_app (l1 l2 : list ascii) :
  forall i prev,
    reduce (l1 ++ l2) i prev = reduce l2 (i + Z.of_nat (length l1)) (reduce l1 i prev).
Proof.
  induction l1 as [|c l1 IH]; intros i prev.
  - cbn [app length reduce]. by rewrite Z.add_0_r.
  - cbn [app length]. rewrite !reduce_cons, IH. f_equal. lia.
Qed.

Lemma append_nil (t : string) : (EmptyString ++ t)%string = t.
Proof. reflexivity. Qed.

Lemma append_cons (c : ascii) (s t : string) :
  (String c s ++ t)%string = String c (s ++ t).
Proof. reflexivity. Qed.

Lemma length_append (s t : string) :
  String.length (s ++ t) = (String.length s + String.length t)%nat.
Proof.
  induction s as [|c s IH]; [by rewrite append_nil|].
  rewrite append_cons. cbn [String.length plus]. by rewrite IH.
Qed.

Lemma substring_prefix (s t : string) :
  String.substring 0 (String.length s) (s ++ t) = s.
Proof.
  induction s as [|c s IH]; [rewrite append_nil; by destruct t|].
  rewrite append_cons. cbn [String.length String.substring]. by rewrite IH.
Qed.

Lemma length_list_ascii (s : string) :
  length (list_ascii_of_string s) = String.length s.
Proof. induction s as [|c s IH]; simpl; congruence. Qed.

(** Below 2^53 nothing is rounded. *)
Lemma nearest_double_small (x : Z) : Z.abs x < 2 ^ 53 -> nearest_double x = x.
Proof.
  intros H. unfold nearest_double. cbv zeta.
  apply Z.ltb_lt in H. by rewrite H.
Qed.

Lemma pow62_small (i : Z) : 0 <= i <= 8 -> pow62 i = Some (62 ^ i).
Proof.
  intros Hi. unfold pow62. rewrite bool_decide_eq_true_2; [done|].
  apply nearest_double_small.
  assert (0 < 62 ^ i) by (apply Z.pow_pos_nonneg; lia).
  assert (62 ^ i <= 62 ^ 8) by (apply Z.pow_le_mono_r; lia).
  assert (62 ^ 8 < 2 ^ 53) by (by vm_compute). lia.
Qed.

(** The first character is handled last, with the number of characters
    after it as its index. *)
Lemma base_decode_cons (c : ascii) (s : string) :
  base_decode (String c s) =
  reduce [c] (Z.of_nat (String.length s)) (base_decode s).
Proof.
  unfold base_decode. cbn [list_ascii_of_string rev].
  by rewrite reduce_app, length_rev, length_list_ascii, Z.add_0_l.
Qed.

Lemma digit_range (c : ascii) :
  0 <= indexOf c charset -> 0 <= indexOf c charset <= 61.
Proof.
  intros H. destruct (indexOf_range c charset) as [Hno | Hin]; [lia|].
  change (String.length charset) with 62%nat in Hin. lia.
Qed.

Lemma index_range (c : ascii) : -1 <= indexOf c charset <= 61.
Proof.
  destruct (indexOf_range c charset) as [Hno | Hin]; [lia|].
  change (String.length charset) with 62%nat in Hin. lia.
Qed.

Lemma base62_abs (s : string) :
  Z.abs (base62 s) < 62 ^ Z.of_nat (String.length s).
Proof.
  induction s as [|c s IH]; [by vm_compute|].
  cbn [base62 String.length]. rewrite Nat2Z.inj_succ, Z.pow_succ_r by lia.
  pose proof (index_range c) as Hc.
  assert (Hp : 0 < 62 ^ Z.of_nat (String.length s)) by (apply Z.pow_pos_nonneg; lia).
  revert Hc IH Hp. generalize (indexOf c charset), (base62 s).
  generalize (62 ^ Z.of_nat (String.length s)). intros p x y Hx Hy Hp.
  assert (- p <= x * p <= 61 * p) by nia. lia.
Qed.

Lemma reduce_one (c : ascii) (i : Z) (prev : option Z) :
  reduce [c] i prev =
  match prev, pow62 i with
  | Some prev, Some power =>
      Some (nearest_double (prev + nearest_double (indexOf c charset * power)))
  | _, _ => None
  end.
Proof. reflexivity. Qed.

(** One more digit in front of a number of at most seven digits: nothing
    is rounded. *)
Lemma reduce_one_exact (c : ascii) (n v : Z) :
  0 <= n <= 7 -> Z.abs v < 62 ^ n ->
  reduce [c] n (Some v) = Some (indexOf c charset * 62 ^ n + v).
Proof.
  intros Hn Hv. rewrite reduce_one, pow62_small by lia.
  pose proof (index_range c) as Hc.
  assert (Hp : 0 < 62 ^ n) by (apply Z.pow_pos_nonneg; lia).
  assert (Hp7 : 62 ^ n <= 62 ^ 7) by (apply Z.pow_le_mono_r; lia).
  assert (H7 : 62 * 62 ^ 7 < 2 ^ 53) by (by vm_compute).
  revert Hv Hc Hp Hp7 H7.
  generalize (indexOf c charset), (62 ^ n), (62 ^ 7).
  intros x p p7 Hv Hc Hp Hp7 H7.
  assert (Hprod : - p <= x * p <= 61 * p) by nia.
  rewrite (nearest_double_small (x * p)) by lia.
  rewrite nearest_double_small by lia.
  f_equal. lia.
Qed.

(** Up to eight characters every intermediate result is below 2^53: the
    result is the number the string denotes. *)
Lemma base_decode_exact (s : string) :
  (String.length s <= 8)%nat -> base_decode s = Some (base62 s).
Proof.
  induction s as [|c s IH]; intros Hlen; [reflexivity|].
  cbn [String.length] in Hlen.
  rewrite base_decode_cons, IH by lia.
  apply reduce_one_exact; [lia|apply base62_abs].
Qed.

Lemma base62_append (s t : string) :
  base62 (s ++ t) = base62 s * 62 ^ Z.of_nat (String.length t) + base62 t.
Proof.
  induction s as [|c s IH].
  - rewrite append_nil. cbn [base62]. lia.
  - rewrite append_cons. cbn [base62]. rewrite IH.
    rewrite length_append, Nat2Z.inj_add, Z.pow_add_r by lia.
    generalize (indexOf c charset), (base62 s), (base62 t).
    generalize (62 ^ Z.of_nat (String.length s)), (62 ^ Z.of_nat (String.length t)).
    intros p q x y z. ring.
Qed.

Lemma base62_bound (s : string) :
  digits s -> 0 <= base62 s < 62 ^ Z.of_nat (String.length s).
Proof.
  induction s as [|c s IH]; intros Hd.
  - by vm_compute.
  - apply Forall_cons in Hd as [Hc Hd]. specialize (IH Hd).
    apply digit_range in Hc.
    cbn [base62 String.length]. rewrite Nat2Z.inj_succ, Z.pow_succ_r by lia.
    revert Hc IH. generalize (indexOf c charset), (base62 s).
    generalize (62 ^ Z.of_nat (String.length s)). intros p x y Hx Hy. nia.
Qed.

Lemma digits_compare (c d : ascii) :
  0 <= indexOf c charset -> 0 <= indexOf d charset ->
  (indexOf c charset ?= indexOf d charset) = Ascii.compare c d.
Proof.
  assert (Hin : forall (x : ascii) (s : string),
            0 <= indexOf x s -> In x (list_ascii_of_string s)).
  { intros x s. induction s as [|y s IH]; simpl; [lia|].
    destruct (Ascii.eqb y x) eqn:Heq.
    - apply Ascii.eqb_eq in Heq. by left.
    - destruct (indexOf x s <? 0) eqn:Hneg; [lia|].
      apply Z.ltb_ge in Hneg. intros _. right. by apply IH. }
  intros Hc Hd. apply Hin in Hc, Hd.
  assert (Hall : forallb (fun x => forallb (fun y =>
                    match indexOf x charset ?= indexOf y charset, Ascii.compare x y with
                    | Eq, Eq | Lt, Lt | Gt, Gt => true
                    | _, _ => false
                    end) (list_ascii_of_string charset))
                  (list_ascii_of_string charset) = true) by (by vm_compute).
  rewrite forallb_forall in Hall. specialize (Hall c Hc).
  rewrite forallb_forall in Hall. specialize (Hall d Hd).
  destruct (indexOf c charset ?= indexOf d charset), (Ascii.compare c d); done.
Qed.

(** Digit strings of the same length compare the way the numbers they
    denote do. *)
Lemma base62_order (s t : string) :
  digits s -> digits t -> String.length s = String.length t ->
  (base62 s ?= base62 t) = String.compare s t.
Proof.
  revert t. induction s as [|c s IH]; intros [|d t] Hs Ht Hlen; try discriminate.
  - reflexivity.
  - apply Forall_cons in Hs as [Hc Hs]. apply Forall_cons in Ht as [Hd Ht].
    injection Hlen as Hlen. specialize (IH t Hs Ht Hlen).
    cbn [base62 String.compare].
    rewrite <- (digits_compare c d Hc Hd), <- IH, <- Hlen.
    pose proof (base62_bound s Hs) as Hbs.
    pose proof (base62_bound t Ht) as Hbt. rewrite <- Hlen in Hbt.
    clear IH Hc Hd. revert Hbs Hbt.
    generalize (indexOf c charset), (indexOf d charset), (base62 s), (base62 t).
    generalize (62 ^ Z.of_nat (String.length s)). intros p x y u v Hbs Hbt.
    destruct (Z.compare_spec x y) as [Heq | Hlt | Hgt].
    + rewrite Heq. destruct (Z.compare_spec u v).
      * apply Z.compare_eq_iff. lia.
      * apply Z.compare_lt_iff. lia.
      * apply Z.compare_gt_iff. lia.
    + apply Z.compare_lt_iff. nia.
    + apply Z.compare_gt_iff. nia.
Qed.

(** From nine digits on the sum is rounded: nine times the last digit
    decodes to 62^9, one more than the number the string denotes, and two
    timestamps that differ in the last digit decode to the same number. The
    powers are followed up to the tenth. *)
Example base_decode_rounds_from_nine_digits :
  base_decode "zzzzzzzzz" = Some (62 ^ 9) /\
  base62 "zzzzzzzzz" = 62 ^ 9 - 1 /\
  base_decode "zzzzzzzzw" = Some 13537086546263548 /\
  base_decode "zzzzzzzzx" = Some 13537086546263548 /\
  pow62 10 = Some (62 ^ 10) /\
  pow62 11 = None.
Proof. split; [|split; [|split; [|split; [|split]]]]; vm_compute; reflexivity. Qed.

(** X24. A timestamp of at most eight characters is decoded exactly.
    For such a string [base_decode] returns the number the string denotes
    in base 62, the first character being the most significant digit, and
    decoding a concatenation shifts the value of the first part by one
    place per character of the second. For strings of charset digits the
    number is below 62 to the power of the length, and two of the same
    length compare the way the strings do, character by character: the
    upload times of record ids sort as the ids do, and different timestamps
    decode to different numbers. *)
Theorem base_decode_timestamps (s t : string) :
  (String.length s <= 8)%nat -> (String.length t <= 8)%nat ->
  exists a b,
    base_decode s = Some a /\ base_decode t = Some b /\
    a = base62 s /\ b = base62 t /\
    ((String.length (s ++ t) <= 8)%nat ->
       base_decode (s ++ t) = Some (a * 62 ^ Z.of_nat (String.length t) + b)) /\
    (digits s -> 0 <= a < 62 ^ Z.of_nat (String.length s)) /\
    (digits s -> digits t -> String.length s = String.length t ->
       (a ?= b) = String.compare s t /\ (a = b -> s = t)).
Proof.
  intros Hs8 Ht8.
  exists (base62 s), (base62 t).
  split; [by apply base_decode_exact|].
  split; [by apply base_decode_exact|].
  split; [reflexivity|]. split; [reflexivity|].
  split; [intros Hlen; by rewrite base_decode_exact, base62_append|].
  split; [apply base62_bound|].
  intros Hs Ht Hsame.
  pose proof (base62_order s t Hs Ht Hsame) as Hcmp.
  split; [exact Hcmp|].
  intros Heq. rewrite Heq, Z.compare_refl in Hcmp.
  symmetry in Hcmp. by apply String.compare_eq_iff in Hcmp.
Qed.

(** X26. The upload time of a record is read from its id. An id is a
    base-62 timestamp followed by nine more characters; the handler of the
    key [rec] keeps the id and decodes all but its last nine characters. An
    id of at most nine characters gets the upload time 0, and the empty id
    is skipped. *)
Theorem record_id_upload_time (timestamp suffix : string) :
  String.length suffix = 9%nat ->
  keys_rec (timestamp ++ suffix) = Write ((timestamp ++ suffix)%string, base_decode timestamp) /\
  (forall r, r <> EmptyString -> (String.length r <= 9)%nat -> keys_rec r = Write (r, Some 0)) /\
  keys_rec EmptyString = Skip.
Proof.
  intros Hlen. split; [|split].
  - unfold keys_rec. rewrite bool_decide_eq_false_2.
    + cbv zeta. rewrite length_append, Hlen.
      replace (String.length timestamp + 9 - 9)%nat with (String.length timestamp) by lia.
      by rewrite substring_prefix.
    + intros Heq. apply (f_equal String.length) in Heq.
      rewrite length_append, Hlen in Heq. simpl in Heq. lia.
  - intros r Hne Hshort. unfold keys_rec. rewrite bool_decide_eq_false_2 by done.
    cbv zeta. replace (String.length r - 9)%nat with 0%nat by lia.
    by destruct r.
  - reflexivity.
Qed.

Lemma record_id_upload_time_witness :
  keys_rec ("1Ab9ZxQ" ++ "k3j5hsuid")
  = Write (("1Ab9ZxQ" ++ "k3j5hsuid")%string, base_decode "1Ab9ZxQ") /\
  (forall r, r <> EmptyString -> (String.length r <= 9)%nat -> keys_rec r = Write (r, Some 0)) /\
  keys_rec EmptyString = Skip.
Proof.
  apply (record_id_upload_time "1Ab9ZxQ" "k3j5hsuid"). reflexivity.
Defined.

Lemma base_decode_timestamps_witness :
  exists a b,
    base_decode "1Ab9ZxQ" = Some a /\ base_decode "1Ab9Zy0" = Some b /\
    a = base62 "1Ab9ZxQ" /\ b = base62 "1Ab9Zy0" /\
    ((String.length ("1Ab9ZxQ" ++ "1Ab9Zy0") <= 8)%nat ->
       base_decode ("1Ab9ZxQ" ++ "1Ab9Zy0")
       = Some (a * 62 ^ Z.of_nat (String.length "1Ab9Zy0") + b)) /\
    (digits "1Ab9ZxQ" -> 0 <= a < 62 ^ Z.of_nat (String.length "1Ab9ZxQ")) /\
    (digits "1Ab9ZxQ" -> digits "1Ab9Zy0" ->
     String.length "1Ab9ZxQ" = String.length "1Ab9Zy0" ->
       (a ?= b) = String.compare "1Ab9ZxQ" "1Ab9Zy0" /\ (a = b -> "1Ab9ZxQ" = "1Ab9Zy0")).
Proof.
  apply (base_decode_timestamps "1Ab9ZxQ" "1Ab9Zy0"); vm_compute; lia.
Defined.


(** ** Paths and typed strings *)

Lemma split_nonempty (sep : ascii) (s : string) : split sep s <> [].
Proof.
  induction s as [|c s IH]; cbn [split]; [done|].
  destruct (Ascii.eqb c sep); [done|]. by destruct (split sep s).
Qed.

Lemma split_no_sep (sep : ascii) (s : string) :
  ~ In sep (list_ascii_of_string s) -> split sep s = [s].
Proof.
  induction s as [|c s IH]; intros Hno; [done|].
  cbn [split]. cbn [list_ascii_of_string] in Hno.
  destruct (Ascii.eqb c sep) eqn:Heq.
  - apply Ascii.eqb_eq in Heq. exfalso. apply Hno. by left.
  - rewrite IH; [done|]. intros Hin. apply Hno. by right.
Qed.

Lemma split_at_sep (sep : ascii) (s t : string) :
  ~ In sep (list_ascii_of_string s) ->
  split sep (s ++ String sep t) = s :: split sep t.
Proof.
  induction s as [|c s IH]; intros Hno.
  - rewrite append_nil. cbn [split]. by rewrite Ascii.eqb_refl.
  - rewrite append_cons. cbn [split]. cbn [list_ascii_of_string] in Hno.
    destruct (Ascii.eqb c sep) eqn:Heq.
    + apply Ascii.eqb_eq in Heq. exfalso. apply Hno. by left.
    + rewrite IH; [done|]. intros Hin. apply Hno. by right.
Qed.

Lemma join_split (sep : ascii) (s : string) : join sep (split sep s) = s.
Proof.
  induction s as [|c s IH]; [done|].
  cbn [split]. destruct (Ascii.eqb c sep) eqn:Heq.
  - apply Ascii.eqb_eq in Heq. subst c.
    pose proof (split_nonempty sep s) as Hne.
    cbn [join]. destruct (split sep s) as [|part parts]; [done|].
    rewrite append_nil. by rewrite IH.
  - destruct (split sep s) as [|part parts] eqn:Hs.
    + by apply split_nonempty in Hs.
    + cbn [join] in *. destruct parts as [|part' parts].
      * by rewrite IH.
      * rewrite append_cons. by rewrite IH.
Qed.

Section Host.

Variable Number : string -> option Z.
Variable parseInt : option string -> option Z.
Variable JSON_parse : string -> option json.

Lemma typed_prefix (tag rest : string) :
  String.length tag = 3%nat ->
  String.substring 0 3 (tag ++ rest) = tag /\
  String.substring 3 (String.length (tag ++ rest) - 3) (tag ++ rest) = rest.
Proof.
  intros Hlen.
  destruct tag as [|a [|b [|c [|d tag]]]]; try discriminate. clear Hlen.
  rewrite !append_cons, append_nil. cbn [String.length String.substring].
  split; [by destruct rest|].
  replace (S (S (S (String.length rest))) - 3)%nat with (String.length rest) by lia.
  clear. induction rest as [|x rest IH]; [done|].
  cbn [String.length String.substring]. by rewrite IH.
Qed.


(** X28. The value of an index survives the exclamation marks in it. The
    stored value of the key [idx] is the name of the index, an exclamation
    mark, and the typed value without its leading exclamation mark; the
    handler splits it at every exclamation mark but joins all but the
    first part again, so that it reads the name and the typed value as
    they were, and a string value comes out unchanged whatever characters
    it has. A stored value without an exclamation mark gives the value
    "!". *)
Theorem index_value_survives (index_name rest : string) :
  ~ In "!"%char (list_ascii_of_string index_name) ->
  index_name <> EmptyString ->
  keys_idx Number JSON_parse (index_name ++ String "!" rest)
    = match normalizeTypedString Number JSON_parse (String "!" rest) with
      | Some value => Write (Some index_name, value)
      | None => Fail
      end /\
  (forall text,
     keys_idx Number JSON_parse (index_name ++ "!S%" ++ text)
     = Write (Some index_name, VString text)) /\
  keys_idx Number JSON_parse index_name = Write (Some index_name, VString "!").
Proof.
  intros Hname Hne.
  assert (Hgen : forall rest',
            keys_idx Number JSON_parse (index_name ++ String "!" rest')
            = match normalizeTypedString Number JSON_parse (String "!" rest') with
              | Some value => Write (Some index_name, value)
              | None => Fail
              end).
  { intros rest'. unfold keys_idx. rewrite bool_decide_eq_false_2.
    - cbv zeta. rewrite (split_at_sep "!" index_name rest' Hname).
      cbn [tail]. by rewrite join_split.
    - destruct index_name; [done|]. by rewrite append_cons. }
  split; [apply Hgen|]. split.
  - intros text. change ("!S%" ++ text)%string with (String "!" ("S%" ++ text)).
    rewrite Hgen. change (String "!" ("S%" ++ text)) with ("!S%" ++ text)%string.
    destruct (typed_prefix "!S%" text eq_refl) as [H1 H2].
    unfold normalizeTypedString. cbv zeta. by rewrite H1, H2.
  - unfold keys_idx. rewrite bool_decide_eq_false_2 by done. cbv zeta.
    rewrite (split_no_sep "!" index_name Hname). reflexivity.
Qed.

(** X29. The keys [tbl] and [usr_tbl] describe a table the same way. The
    value of [usr_tbl] is a user id, a slash, and a table path as the key
    [tbl] has it; its handler reads the user id and, from the path, the
    same table (name, access group, subscription) as the handler of [tbl]
    does. *)
Theorem usr_tbl_reads_tbl_path (user path : string) (table : Table) :
  ~ In "/"%char (list_ascii_of_string user) ->
  path <> EmptyString ->
  keys_usr_tbl parseInt (user ++ String "/" path) table
  = (Some user, keys_tbl parseInt path table).
Proof.
  intros Huser Hpath. unfold keys_usr_tbl, keys_tbl.
  rewrite (bool_decide_eq_false_2 (path = EmptyString)) by done. cbv zeta.
  by rewrite (split_at_sep "/" user path Huser).
Qed.

End Host.

Lemma index_value_survives_witness :
  keys_idx (fun _ => None) (fun _ => None) ("title" ++ String "!" "S%so!good")
    = match normalizeTypedString (fun _ => None) (fun _ => None) (String "!" "S%so!good") with
      | Some value => Write (Some "title", value)
      | None => Fail
      end /\
  (forall text,
     keys_idx (fun _ => None) (fun _ => None) ("title" ++ "!S%" ++ text)
     = Write (Some "title", VString text)) /\
  keys_idx (fun _ => None) (fun _ => None) "title" = Write (Some "title", VString "!").
Proof.
  apply (index_value_survives (fun _ => None) (fun _ => None) "title" "S%so!good").
  - cbn [list_ascii_of_string In]. intros H.
    repeat (destruct H as [H | H]; [discriminate H|]). exact H.
  - discriminate.
Defined.

Lemma usr_tbl_reads_tbl_path_witness :
  keys_usr_tbl (fun _ => Some 1) ("u-1" ++ String "/" "posts/svc/01") (mkTable None (Group None) None)
  = (Some "u-1", keys_tbl (fun _ => Some 1) "posts/svc/01" (mkTable None (Group None) None)).
Proof.
  apply (usr_tbl_reads_tbl_path (fun _ => Some 1) "u-1" "posts/svc/01").
  - cbn [list_ascii_of_string In]. intros H.
    repeat (destruct H as [H | H]; [discriminate H|]). exact H.
  - discriminate.
Defined.

End RecordIds.
